(** * Efficiency analysis pipeline of [streamlit_app.py]

    A shallow embedding of the data path of [main]: column renaming of the
    two uploaded sheets, preparation of the join input, the derived columns
    實際CT and 效率, the quality filter, and the advanced analysis (station
    metrics, anomaly groups, top performers).

    Modelling conventions.
    - A DataFrame is a header (ordered column labels) with rows of cells.
      A cell is a number or a text; the missing value is the number [NaN],
      as in pandas.
    - float64 values are exact rationals extended with [NaN], [+inf] and
      [-inf], with the IEEE rules for the special values.  The rounding error
      of binary64 and the sign of zero are not modelled; in particular a
      value that lies exactly halfway between two roundings here may have
      been moved off the tie by binary64, so the statements on the
      analysed ratio hold for either direction of a tie.
    - Text is a byte string, the UTF-8 encoding of a Python [str].
      Whitespace is the whitespace of [str.isspace], the ASCII characters
      and the others of Unicode, each in its encoding.
    - The dtype of a column is read off its cells, as pandas infers it from
      the values of a sheet.
    - A Python exception is a [Raise] in the [result] monad; every exception
      raised between the merge and the advanced analysis reaches the same
      handler of [main]. *)

From stdpp Require Import gmap strings.
From Stdlib Require Import ZArith QArith Qround Qabs Lia Lqa Bool.
From Stdlib Require Import String Ascii List Permutation Sorted.
From Stdlib Require Import DecimalString DecimalN.
Import ListNotations.

Local Open Scope string_scope.
Local Open Scope list_scope.

(** ** float64 values *)

Module Float.

Inductive num : Type :=
| NaN
| PInf
| NInf
| Fin (q : Q).

Definition Qltb (a b : Q) : bool := negb (Qle_bool b a).

Definition isnan (x : num) : bool :=
  match x with NaN => true | _ => false end.

Definition isfinite (x : num) : bool :=
  match x with Fin _ => true | _ => false end.

Definition isinf (x : num) : bool :=
  match x with PInf | NInf => true | _ => false end.

Definition is_zero (x : num) : bool :=
  match x with Fin q => Qeq_bool q 0 | _ => false end.

Definition neg (x : num) : num :=
  match x with
  | NaN => NaN
  | PInf => NInf
  | NInf => PInf
  | Fin q => Fin (- q)
  end.

(** [inf * 0] is NaN; otherwise the sign of the product. *)
Definition inf_times (positive : bool) (q : Q) : num :=
  if Qeq_bool q 0 then NaN
  else if Bool.eqb positive (Qltb 0 q) then PInf else NInf.

Definition mul (x y : num) : num :=
  match x, y with
  | NaN, _ | _, NaN => NaN
  | PInf, PInf | NInf, NInf => PInf
  | PInf, NInf | NInf, PInf => NInf
  | PInf, Fin q | Fin q, PInf => inf_times true q
  | NInf, Fin q | Fin q, NInf => inf_times false q
  | Fin a, Fin b => Fin (a * b)
  end.

(** Division follows IEEE 754 as numpy does: a non-zero number over zero is
    an infinity, zero over zero is NaN, and nothing raises. *)
Definition div (x y : num) : num :=
  match x, y with
  | NaN, _ | _, NaN => NaN
  | (PInf | NInf), (PInf | NInf) => NaN
  | PInf, Fin b => if Qltb b 0 then NInf else PInf
  | NInf, Fin b => if Qltb b 0 then PInf else NInf
  | Fin _, (PInf | NInf) => Fin 0
  | Fin a, Fin b =>
      if Qeq_bool b 0 then
        if Qeq_bool a 0 then NaN
        else if Qltb 0 a then PInf else NInf
      else Fin (a / b)
  end.

Definition add (x y : num) : num :=
  match x, y with
  | NaN, _ | _, NaN => NaN
  | PInf, NInf | NInf, PInf => NaN
  | PInf, _ | _, PInf => PInf
  | NInf, _ | _, NInf => NInf
  | Fin a, Fin b => Fin (a + b)
  end.

Definition sub (x y : num) : num := add x (neg y).

Definition abs (x : num) : num :=
  match x with
  | NaN => NaN
  | PInf | NInf => PInf
  | Fin q => Fin (Qabs q)
  end.

(** Comparisons are false as soon as one side is NaN. *)
Definition leb (x y : num) : bool :=
  match x, y with
  | NaN, _ | _, NaN => false
  | NInf, _ | _, PInf => true
  | PInf, _ | _, NInf => false
  | Fin a, Fin b => Qle_bool a b
  end.

Definition ltb (x y : num) : bool :=
  match x, y with
  | NaN, _ | _, NaN => false
  | PInf, _ | _, NInf => false
  | NInf, _ | _, PInf => true
  | Fin a, Fin b => Qltb a b
  end.

Definition eqb (x y : num) : bool :=
  match x, y with
  | PInf, PInf | NInf, NInf => true
  | Fin a, Fin b => Qeq_bool a b
  | _, _ => false
  end.

(** Equality of values, up to the representation of a rational. *)
Definition eqv (x y : num) : Prop :=
  match x, y with
  | NaN, NaN | PInf, PInf | NInf, NInf => True
  | Fin a, Fin b => a == b
  | _, _ => False
  end.

(** [numpy.rint]: the nearest integer, halves to the even one. *)
Definition rint (q : Q) : Z :=
  let f := Qfloor q in
  let d := q - inject_Z f in
  if Qltb d (1 # 2) then f
  else if Qltb (1 # 2) d then (f + 1)%Z
  else if Z.even f then f else (f + 1)%Z.

(** [Series.round(2)]: numpy scales by 100, rounds to an integer and
    divides by 100.  The scaled value is exact here; where it is a tie,
    binary64 may have left the tie before the rounding. *)
Definition round2 (x : num) : num :=
  match x with
  | Fin q => Fin (rint (q * 100) # 100)
  | _ => x
  end.

Definition of_Z (z : Z) : num := Fin (inject_Z z).
Definition of_nat (n : nat) : num := Fin (inject_Z (Z.of_nat n)).

(** Sum and mean of the non-missing values ([skipna=True]); the mean of no
    value is NaN. *)
Definition sum (xs : list num) : num := fold_left add xs (Fin 0).

Definition notna (xs : list num) : list num :=
  List.filter (fun x => negb (isnan x)) xs.

Definition mean (xs : list num) : num :=
  match notna xs with
  | [] => NaN
  | ys => div (sum ys) (of_nat (List.length ys))
  end.

End Float.

Abbreviation num := Float.num.
Abbreviation NaN := Float.NaN.
Abbreviation PInf := Float.PInf.
Abbreviation NInf := Float.NInf.
Abbreviation Fin := Float.Fin.

(** ** Text *)

Module Text.

(** ASCII part of [str.isspace]: TAB..CR, FS..US and the space. *)
Definition is_space (a : ascii) : bool :=
  let n := nat_of_ascii a in
  ((9 <=? n)%nat && (n <=? 13)%nat) || ((28 <=? n)%nat && (n <=? 32)%nat).

(** The whitespace of two bytes: U+0085 and U+00A0. *)
Definition is_space2 (a b : ascii) : bool :=
  (nat_of_ascii a =? 194)%nat
  && ((nat_of_ascii b =? 133)%nat || (nat_of_ascii b =? 160)%nat).

(** The whitespace of three bytes: U+1680, U+2000..U+200A, U+2028, U+2029,
    U+202F, U+205F and U+3000. *)
Definition is_space3 (a b c : ascii) : bool :=
  let x := nat_of_ascii a in
  let y := nat_of_ascii b in
  let z := nat_of_ascii c in
  ((x =? 225) && (y =? 154) && (z =? 128))%nat
  || ((x =? 226) && (y =? 128)
      && (((128 <=? z) && (z <=? 138)) || (z =? 168) || (z =? 169) || (z =? 175)))%nat
  || ((x =? 226) && (y =? 129) && (z =? 159))%nat
  || ((x =? 227) && (y =? 128) && (z =? 128))%nat.

(** Whitespace removed from the front, character by character; [two] and
    [three] recognise the characters of two and three bytes. *)
Fixpoint lstrip_with (two : ascii -> ascii -> bool)
         (three : ascii -> ascii -> ascii -> bool) (s : string) : string :=
  match s with
  | EmptyString => EmptyString
  | String a s1 =>
      if is_space a then lstrip_with two three s1
      else
        match s1 with
        | EmptyString => s
        | String b s2 =>
            if two a b then lstrip_with two three s2
            else
              match s2 with
              | EmptyString => s
              | String c s3 =>
                  if three a b c then lstrip_with two three s3 else s
              end
        end
  end.

Definition lstrip (s : string) : string := lstrip_with is_space2 is_space3 s.

Fixpoint rev_append (s acc : string) : string :=
  match s with
  | EmptyString => acc
  | String a s' => rev_append s' (String a acc)
  end.

Definition rev (s : string) : string := rev_append s EmptyString.

(** From the end the bytes of a character come last byte first. *)
Definition rstrip (s : string) : string :=
  rev (lstrip_with (fun b a => is_space2 a b) (fun c b a => is_space3 a b c) (rev s)).

(** [str.strip()] *)
Definition strip (s : string) : string := rstrip (lstrip s).

(** The pattern [^\s*$] of the blank-to-NaN replacement: whitespace only. *)
Definition is_blank (s : string) : bool :=
  match lstrip s with
  | EmptyString => true
  | String _ _ => false
  end.

(** [str.replace('%', '')] *)
Fixpoint remove_percent (s : string) : string :=
  match s with
  | EmptyString => EmptyString
  | String a s' =>
      if Ascii.eqb a "%" then remove_percent s' else String a (remove_percent s')
  end.

Definition string_of_N (n : N) : string :=
  NilZero.string_of_uint (N.to_uint n).

Definition digit (n : N) : ascii := ascii_of_N (48 + n).

(** Decimal expansion of [r / d] for [r < d], at most [fuel] digits and at
    least one. *)
Fixpoint frac_digits (fuel : nat) (r d : N) : string :=
  match fuel with
  | O => EmptyString
  | S fuel' =>
      let r10 := (r * 10)%N in
      String (digit (r10 / d))
        (if (r10 mod d =? 0)%N then EmptyString
         else frac_digits fuel' (r10 mod d) d)
  end.

(** [str(x)] of a float: [nan], [inf], [-inf], or the positional decimal
    form with at least one fractional digit ([85.0], [85.25]).  Seventeen
    fractional digits bound the expansion of a value that has no finite
    one; the exponent form Python uses for very large or very small
    magnitudes is not reproduced. *)
Definition float_str (x : num) : string :=
  match x with
  | Float.NaN => "nan"
  | Float.PInf => "inf"
  | Float.NInf => "-inf"
  | Float.Fin q =>
      let a := Z.abs_N (Qnum q) in
      let d := Npos (Qden q) in
      (if (Qnum q <? 0)%Z then "-" else "")
        ++ string_of_N (a / d) ++ "." ++ frac_digits 17 (a mod d) d
  end.

(** [str] of a Python integer *)
Definition int_str (z : Z) : string :=
  (if (z <? 0)%Z then "-" else "") ++ string_of_N (Z.abs_N z).

(** Split at the first dot. *)
Fixpoint split_dot (s : string) : string * option string :=
  match s with
  | EmptyString => (EmptyString, None)
  | String a s' =>
      if Ascii.eqb a "." then (EmptyString, Some s')
      else let '(i, f) := split_dot s' in (String a i, f)
  end.

Definition N_of_digits (s : string) : option N :=
  match NilEmpty.uint_of_string s with
  | Some u => Some (N.of_uint u)
  | None => None
  end.

Definition pow10 (n : nat) : positive := Nat.iter n (Pos.mul 10) 1%positive.

(** An unsigned decimal [ddd], [ddd.ddd], [ddd.] or [.ddd] with at least
    one digit. *)
Definition parse_unsigned (s : string) : option Q :=
  let '(i, f) := split_dot s in
  let f := match f with Some f => f | None => EmptyString end in
  if ((String.length i + String.length f)%nat =? 0)%nat then None
  else
    match N_of_digits i, N_of_digits f with
    | Some ni, Some nf =>
        let scale := pow10 (String.length f) in
        Some ((Z.of_N ni * Z.pos scale + Z.of_N nf) # scale)
    | _, _ => None
    end.

Definition parse_magnitude (s : string) : num :=
  if String.eqb s "inf" then Float.PInf
  else if String.eqb s "nan" then Float.NaN
  else match parse_unsigned s with
       | Some q => Float.Fin q
       | None => Float.NaN
       end.

(** [pd.to_numeric(errors='coerce')] on one text: a signed decimal, [inf]
    or [nan]; any other text is coerced to NaN.  Exponent notation and the
    other spellings pandas accepts are not modelled; the pipeline never
    formats such a text itself. *)
Definition parse_float (s : string) : num :=
  match s with
  | String a s' =>
      if Ascii.eqb a "-" then Float.neg (parse_magnitude s')
      else if Ascii.eqb a "+" then parse_magnitude s'
      else parse_magnitude s
  | EmptyString => Float.NaN
  end.

End Text.


(** ** Cells, exceptions and tables *)

Inductive cell : Type :=
| Num (x : num)
| Str (s : string).

(** The missing value [np.nan]. *)
Definition NA : cell := Num NaN.

Definition isna (c : cell) : bool :=
  match c with
  | Num x => Float.isnan x
  | Str _ => false
  end.

Definition is_str (c : cell) : bool :=
  match c with Str _ => true | Num _ => false end.

Definition cell_eqb (a b : cell) : bool :=
  match a, b with
  | Num x, Num y => Float.eqb x y
  | Str s, Str t => String.eqb s t
  | _, _ => false
  end.

(** Order of group keys: numbers before texts, texts by code point. *)
Definition cell_leb (a b : cell) : bool :=
  match a, b with
  | Num x, Num y => Float.leb x y
  | Num _, Str _ => true
  | Str _, Num _ => false
  | Str s, Str t => String.leb s t
  end.

Inductive exn : Type :=
| TypeError
| AttributeError
| KeyError
| ZeroDivisionError.

Inductive result (A : Type) : Type :=
| Ok (a : A)
| Raise (e : exn).

Arguments Ok {A} a.
Arguments Raise {A} e.

Definition result_bind {A B : Type} (m : result A) (k : A -> result B) : result B :=
  match m with
  | Ok a => k a
  | Raise e => Raise e
  end.

Notation "'let*' x := m 'in' k" := (result_bind m (fun x => k))
  (at level 10, x name, m at level 100, k at level 200).

Fixpoint mapR {A B : Type} (f : A -> result B) (l : list A) : result (list B) :=
  match l with
  | [] => Ok []
  | a :: l' =>
      let* b := f a in
      let* bs := mapR f l' in
      Ok (b :: bs)
  end.

(** Rows kept by a fallible predicate; the predicate is evaluated on every
    row, as a boolean mask is. *)
Fixpoint filterR {A : Type} (p : A -> result bool) (l : list A) : result (list A) :=
  match l with
  | [] => Ok []
  | a :: l' =>
      let* b := p a in
      let* r := filterR p l' in
      Ok (if b then a :: r else r)
  end.

Abbreviation row := (list cell).

Record table : Type := Table {
  columns : list string;
  rows : list row
}.

Fixpoint col_index (c : string) (cols : list string) : option nat :=
  match cols with
  | [] => None
  | c' :: cols' =>
      if String.eqb c c' then Some O
      else option_map S (col_index c cols')
  end.

(** [c in df.columns] *)
Definition has_col (c : string) (T : table) : bool :=
  match col_index c (columns T) with Some _ => true | None => false end.

(** The cell of a row under a label; a row shorter than the header reads as
    missing beyond its end. *)
Definition cell_at (cols : list string) (r : row) (c : string) : cell :=
  match col_index c cols with
  | Some i => default NA (r !! i)
  | None => NA
  end.

(** A row completed with missing cells to the width of the header. *)
Definition pad (n : nat) (r : row) : row :=
  take n r ++ replicate (n - List.length r) NA.

Definition set_header (cols : list string) (c : string) : list string :=
  match col_index c cols with
  | Some _ => cols
  | None => cols ++ [c]
  end.

Definition set_cell (cols : list string) (c : string) (v : cell) (r : row) : row :=
  let r' := pad (List.length cols) r in
  match col_index c cols with
  | Some i => <[i := v]> r'
  | None => r' ++ [v]
  end.

(** [df[c] = f(df)], element by element: an existing column is overwritten
    in place, a new one is appended. *)
Definition assign (c : string) (f : (string -> cell) -> cell) (T : table) : table :=
  {| columns := set_header (columns T) c;
     rows := List.map (fun r => set_cell (columns T) c (f (cell_at (columns T) r)) r)
                      (rows T) |}.

Definition assignM (c : string) (f : (string -> cell) -> result cell) (T : table)
  : result table :=
  let* rs := mapR (fun r => let* v := f (cell_at (columns T) r) in
                            Ok (set_cell (columns T) c v r)) (rows T) in
  Ok {| columns := set_header (columns T) c; rows := rs |}.

(** [df[cols]] *)
Definition select (cols : list string) (T : table) : table :=
  {| columns := cols;
     rows := List.map (fun r => List.map (cell_at (columns T) r) cols) (rows T) |}.

(** [df.rename(columns=mapping)]: every label that is a key of the dict is
    replaced; the cells are untouched. *)
Definition rename_columns (mapping : gmap string string) (T : table) : table :=
  {| columns := List.map (fun c => default c (mapping !! c)) (columns T);
     rows := rows T |}.

Definition column (c : string) (T : table) : list cell :=
  List.map (fun r => cell_at (columns T) r c) (rows T).

(** ** Column renaming of the two uploaded sheets ([main], lines 654-675) *)

Definition rename_mapping_1 (df1 : table) : gmap string string :=
  let m : gmap string string := ∅ in
  let m := if has_col "作業時間" df1 then <["作業時間" := "標工"]> m else m in
  let m := if has_col "工作內容" df1 then <["工作內容" := "工站"]> m else m in
  m.

Definition rename_mapping_2 (df2 : table) : gmap string string :=
  let m : gmap string string := ∅ in
  let m := if has_col "產出" df2 then <["產出" := "實際產出"]> m else m in
  let m := if has_col "RUN總時數" df2 then <["RUN總時數" := "人員作業時間"]> m else m in
  m.

Definition normalize_1 (df1 : table) : table :=
  let m := rename_mapping_1 df1 in
  if decide (m = ∅) then df1 else rename_columns m df1.

Definition normalize_2 (df2 : table) : table :=
  let m := rename_mapping_2 df2 in
  if decide (m = ∅) then df2 else rename_columns m df2.

(** ** Join input ([main], lines 715-728) *)

(** [df.replace('', np.nan)] *)
Definition replace_empty (c : cell) : cell :=
  match c with
  | Str EmptyString => NA
  | _ => c
  end.

(** A number without fractional part. *)
Definition is_integer (c : cell) : bool :=
  match c with
  | Num (Float.Fin q) => Qeq_bool q (inject_Z (Qfloor q))
  | _ => false
  end.

(** The column is of dtype float64: it holds numbers only, and one of them
    is missing, infinite or fractional.  A column of whole numbers is int64,
    and a column with a text is of dtype object, where [read_excel] leaves
    a whole number as a Python integer.  The dtype is the one pandas 2
    gives the column after [replace('', np.nan)], which infers it anew. *)
Definition float_dtype (col : list cell) : bool :=
  forallb (fun c => negb (is_str c)) col && negb (forallb is_integer col).

(** [astype(str)] of one cell of a column: the missing value becomes the
    text [nan], a whole number is printed without fractional part unless
    the column is float64. *)
Definition astype_str (as_float : bool) (c : cell) : string :=
  match c with
  | Str s => s
  | Num x =>
      match x with
      | Float.Fin q =>
          if negb as_float && is_integer c then Text.int_str (Qfloor q)
          else Text.float_str x
      | _ => Text.float_str x
      end
  end.

Definition map_cells (f : cell -> cell) (T : table) : table :=
  {| columns := columns T; rows := List.map (List.map f) (rows T) |}.

(** One turn of the loop over 料號 and 工序. *)
Definition strip_column (col : string) (df : table) : table :=
  if has_col col df
  then assign col
         (fun get => Str (Text.strip (astype_str (float_dtype (column col df))
                                                 (get col)))) df
  else df.

Definition processed (df : table) : table :=
  fold_left (fun d col => strip_column col d) ["料號"; "工序"]
            (map_cells replace_empty df).

(** [df.dropna(subset=...)]; a label that is no column is a [KeyError]. *)
Definition dropna (subset : list string) (df : table) : result table :=
  if forallb (fun k => has_col k df) subset
  then Ok {| columns := columns df;
             rows := List.filter
                       (fun r => forallb (fun k => negb (isna (cell_at (columns df) r k)))
                                         subset)
                       (rows df) |}
  else Raise KeyError.

(** [df_filtered]: what [pd.merge] receives of one sheet. *)
Definition join_input (merge_columns : list string) (df : table) : result table :=
  dropna merge_columns (processed df).

(** ** Derived columns ([main], lines 765-775) *)

Fixpoint string_repeat (n : nat) (s : string) : string :=
  match n with
  | O => EmptyString
  | S n' => (s ++ string_repeat n' s)%string
  end.

(** [x * k] for an integer [k]: Python repeats a text. *)
Definition cell_mul (c : cell) (k : nat) : cell :=
  match c with
  | Num x => Num (Float.mul x (Float.of_nat k))
  | Str s => Str (string_repeat k s)
  end.

(** [x / y]: a text on either side is a [TypeError]. *)
Definition cell_div (a b : cell) : result cell :=
  match a, b with
  | Num x, Num y => Ok (Num (Float.div x y))
  | _, _ => Raise TypeError
  end.

(** [(x * 100).round(2).astype(str) + '%'] on the freshly divided column. *)
Definition percent_text (c : cell) : result cell :=
  match c with
  | Num x =>
      Ok (Str (Text.float_str (Float.round2 (Float.mul x (Float.of_nat 100)))
                 ++ "%")%string)
  | Str _ => Raise TypeError
  end.

(** [merged_df.rename(columns={'標工': '標準CT'})] *)
Definition rename_standard_ct (merged_df : table) : table :=
  if has_col "標工" merged_df
  then rename_columns {["標工" := "標準CT"]} merged_df
  else merged_df.

(** 實際CT = 人員作業時間 * 3600 / 實際產出, when both columns exist. *)
Definition with_actual_ct (merged_df : table) : result table :=
  if has_col "人員作業時間" merged_df && has_col "實際產出" merged_df
  then assignM "實際CT"
         (fun get => cell_div (cell_mul (get "人員作業時間") 3600) (get "實際產出"))
         merged_df
  else Ok merged_df.

(** 效率 = 實際產出 / 理論產出, then its text as a percentage, when both
    columns exist. *)
Definition with_efficiency (merged_df : table) : result table :=
  if has_col "實際產出" merged_df && has_col "理論產出" merged_df
  then
    let* df := assignM "效率" (fun get => cell_div (get "實際產出") (get "理論產出"))
                       merged_df in
    assignM "效率" (fun get => percent_text (get "效率")) df
  else Ok merged_df.

Definition derive (merged_df : table) : result table :=
  let* df := with_actual_ct (rename_standard_ct merged_df) in
  with_efficiency df.

(** ** Selection, conversions and the quality filter ([main], lines 777-852) *)

Definition important_columns : list string :=
  ["工站"; "姓名"; "人員作業時間"; "理論產出"; "實際產出"; "效率"; "標準CT"; "實際CT"].

Definition available_columns (merged_df : table) : list string :=
  List.filter (fun c => has_col c merged_df) important_columns.

(** [pd.to_numeric(errors='coerce')] of one cell *)
Definition to_numeric (c : cell) : num :=
  match c with
  | Num x => x
  | Str s => Text.parse_float s
  end.

Definition assign_if (c : string) (f : (string -> cell) -> cell) (T : table) : table :=
  if has_col c T then assign c f T else T.

(** A column the sheets brought has the [.str] accessor when it holds a
    text.  The cells of a column without a value (all missing, or no row)
    do not tell its dtype: it is taken as float64. *)
Definition is_object (col : list cell) : bool :=
  existsb is_str col.

(** The column 效率 was computed at line 775: it is a column of texts,
    also when the table has no row. *)
Definition computed_efficiency (df : table) : bool :=
  has_col "實際產出" df && has_col "理論產出" df.

(** [.str.replace('%', '')] then [to_numeric]: the [.str] accessor of a
    numeric column is an [AttributeError]; a cell that is no text reads as
    missing. *)
Definition efficiency_value (df : table) : result table :=
  if has_col "效率" df then
    if computed_efficiency df || is_object (column "效率" df) then
      Ok (assign "效率值"
            (fun get => match get "效率" with
                        | Str s => Num (Text.parse_float (Text.remove_percent s))
                        | Num _ => NA
                        end) df)
    else Raise AttributeError
  else Ok df.

(** [replace(r'^\s*$', np.nan, regex=True)] of one cell *)
Definition blank_to_nan (c : cell) : cell :=
  match c with
  | Str s => if Text.is_blank s then NA else c
  | Num _ => c
  end.

Definition convert (selected_df : table) : result table :=
  let df := assign_if "實際產出" (fun get => Num (to_numeric (get "實際產出"))) selected_df in
  let df := assign_if "實際CT" (fun get => Num (to_numeric (get "實際CT"))) df in
  let* df := efficiency_value df in
  Ok (fold_left (fun d col => assign_if col (fun get => blank_to_nan (get col)) d)
                ["姓名"; "工站"; "標準CT"] df).

(** One entry of [filter_conditions], as a test of one row. *)
Definition condition : Type := (string -> cell) -> result bool.

Definition fillna0 (x : num) : num :=
  if Float.isnan x then Fin 0 else x.

(** [s.fillna(0) >= k] *)
Definition ge_filled (col : string) (k : Q) : condition :=
  fun get => match get col with
             | Num x => Ok (Float.leb (Fin k) (fillna0 x))
             | Str _ => Raise TypeError
             end.

(** [~s.isin(values)] *)
Definition not_isin (col : string) (values : list string) : condition :=
  fun get => match get col with
             | Str s => Ok (negb (existsb (String.eqb s) values))
             | Num _ => Ok true
             end.

(** [s.between(lo, hi)], both ends included *)
Definition between (col : string) (lo hi : Q) : condition :=
  fun get => match get col with
             | Num x => Ok (Float.leb (Fin lo) x && Float.leb x (Fin hi))
             | Str _ => Raise TypeError
             end.

(** [s.notna()] *)
Definition notna (col : string) : condition :=
  fun get => Ok (negb (isna (get col))).

Definition when_col (col : string) (df : table) (c : condition) : list condition :=
  if has_col col df then [c] else [].

Definition filter_conditions (selected_df : table) : list condition :=
  when_col "人員作業時間" selected_df (ge_filled "人員作業時間" (3 # 100))
  ++ when_col "實際產出" selected_df (ge_filled "實際產出" 0)
  ++ when_col "實際CT" selected_df (ge_filled "實際CT" 0)
  ++ when_col "效率" selected_df (not_isin "效率" ["0.0%"; "inf%"; "nan%"])
  ++ when_col "姓名" selected_df (not_isin "姓名" ["MFGR"; "MFG_R"])
  ++ when_col "效率值" selected_df (between "效率值" 20 150)
  ++ when_col "工站" selected_df (notna "工站")
  ++ when_col "標準CT" selected_df (notna "標準CT")
  ++ when_col "姓名" selected_df (notna "姓名").

(** [np.logical_and.reduce] at one row: every condition is evaluated. *)
Definition all_conditions (conds : list condition) (get : string -> cell) : result bool :=
  let* bs := mapR (fun c : condition => c get) conds in
  Ok (forallb (fun b : bool => b) bs).

(** The quality filter: with no active condition the table goes through
    unchanged. *)
Definition quality_filter (selected_df : table) : result table :=
  match filter_conditions selected_df with
  | [] => Ok selected_df
  | conds =>
      let* kept := filterR (fun r => all_conditions conds (cell_at (columns selected_df) r))
                           (rows selected_df) in
      Ok {| columns := columns selected_df; rows := kept |}
  end.

(** [filtered_df] of one run, from the derived merged table. *)
Definition filtered_of (merged_df : table) : result table :=
  match available_columns merged_df with
  | [] => Ok merged_df
  | available =>
      let* selected_df := convert (select available merged_df) in
      quality_filter selected_df
  end.

(** ** Advanced analysis ([main], lines 921-974) *)

(** The number held by a cell of a numeric column. *)
Definition value (c : cell) : num :=
  match c with
  | Num x => x
  | Str _ => NaN
  end.

Definition needed_cols : list string := ["工站"; "姓名"].

Definition has_ct_cols (base_df : table) : bool :=
  has_col "標準CT" base_df && has_col "實際CT" base_df.

Definition has_eff_cols (base_df : table) : bool :=
  has_col "效率值" base_df || has_col "效率" base_df.

Definition enough_columns (base_df : table) : bool :=
  forallb (fun c => has_col c base_df) needed_cols && has_eff_cols base_df.

(** 效率 as a ratio: the percentage over 100. *)
Definition efficiency_ratio (df : table) : table :=
  if has_col "效率值" df
  then assign "效率"
         (fun get => Num (Float.div (to_numeric (get "效率值")) (Fin 100))) df
  else assign "效率"
         (fun get => Num (Float.div
                            (Text.parse_float
                               (Text.remove_percent
                                  (astype_str (float_dtype (column "效率" df))
                                              (get "效率"))))
                            (Fin 100))) df.

Definition ct_columns (df : table) : table :=
  let df := assign "標準CT" (fun get => Num (to_numeric (get "標準CT"))) df in
  let df := assign "實際CT" (fun get => Num (to_numeric (get "實際CT"))) df in
  let df := assign "CT差異"
              (fun get => Num (Float.sub (value (get "實際CT")) (value (get "標準CT")))) df in
  assign "CT差異率"
    (fun get => Num (Float.mul (Float.div (value (get "CT差異")) (value (get "標準CT")))
                               (Fin 100))) df.

Definition station_of (df : table) (r : row) : cell := cell_at (columns df) r "工站".
Definition name_of (df : table) (r : row) : cell := cell_at (columns df) r "姓名".
Definition efficiency_of (df : table) (r : row) : num :=
  value (cell_at (columns df) r "效率").

(** First occurrences, up to the equality of keys. *)
Fixpoint distinct (l : list cell) : list cell :=
  match l with
  | [] => []
  | k :: l' => k :: List.filter (fun k' => negb (cell_eqb k k')) (distinct l')
  end.

Fixpoint insert_sorted (k : cell) (l : list cell) : list cell :=
  match l with
  | [] => [k]
  | k' :: l' => if cell_leb k k' then k :: l else k' :: insert_sorted k l'
  end.

Definition sort_keys (l : list cell) : list cell :=
  fold_right insert_sorted [] l.

(** Keys of [groupby('工站')]: the distinct non-missing stations, sorted. *)
Definition group_keys (df : table) : list cell :=
  sort_keys (distinct (List.filter (fun k => negb (isna k)) (column "工站" df))).

Definition group_rows (df : table) (k : cell) : list row :=
  List.filter (fun r => cell_eqb (station_of df r) k) (rows df).

(** ['效率': 'mean'] skips the missing ratios; ['姓名': 'count'] counts the
    non-missing names. *)
Definition group_mean (df : table) (k : cell) : num :=
  Float.mean (List.map (efficiency_of df) (group_rows df k)).

Definition group_count (df : table) (k : cell) : nat :=
  List.length (List.filter (fun r => negb (isna (name_of df r))) (group_rows df k)).

Definition station_metrics (analysis_df : table) : table :=
  {| columns := ["工站"; "效率"; "人數"];
     rows := List.map
               (fun k => [k;
                          Num (Float.mul (group_mean analysis_df k) (Fin 100));
                          Num (Float.of_nat (group_count analysis_df k))])
               (group_keys analysis_df) |}.

Definition too_low : Q := 8 # 10.
Definition too_high : Q := 105 # 100.

Definition keep_rows (p : row -> bool) (df : table) : table :=
  {| columns := columns df; rows := List.filter p (rows df) |}.

Definition low_efficiency (analysis_df : table) : table :=
  keep_rows (fun r => Float.ltb (efficiency_of analysis_df r) (Fin too_low)) analysis_df.

Definition high_efficiency (analysis_df : table) : table :=
  keep_rows (fun r => Float.ltb (Fin too_high) (efficiency_of analysis_df r)) analysis_df.

Definition ct_abnormal (has_ct : bool) (analysis_df : table) : table :=
  if has_ct
  then keep_rows (fun r => Float.ltb (Fin 20)
                         (Float.abs (value (cell_at (columns analysis_df) r "CT差異率"))))
             analysis_df
  else {| columns := ["工站"; "姓名"; "標準CT"; "實際CT"; "CT差異"; "CT差異率"];
          rows := [] |}.

(** [sort_values('效率', ascending=False)] with the default
    [kind='quicksort']: the rows with a ratio come first, by non-increasing
    ratio, and the rows without one follow in their original order.  The
    default kind is not a stable sort: which of the orders of equal ratios
    comes out is left to numpy (its quicksort partitions an array of more
    than sixteen elements by swaps), hence a relation. *)
Definition descending (key : row -> num) (l : list row) : Prop :=
  StronglySorted (fun a b => Float.leb (key b) (key a) = true) l.

Definition sort_values_desc (key : row -> num) (l out : list row) : Prop :=
  exists s,
    Permutation s (List.filter (fun r => negb (Float.isnan (key r))) l)
    /\ descending key s
    /\ out = s ++ List.filter (fun r => Float.isnan (key r)) l.

(** [.head(10)] of the sorted table *)
Definition top_performers (analysis_df out : table) : Prop :=
  exists sorted,
    sort_values_desc (efficiency_of analysis_df) (rows analysis_df) sorted
    /\ out = {| columns := columns analysis_df; rows := firstn 10 sorted |}.

(** One outcome of the default sort: the insertion sort that keeps equal
    ratios in their original order. *)
Fixpoint insert_desc (key : row -> num) (r : row) (l : list row) : list row :=
  match l with
  | [] => [r]
  | r' :: l' =>
      if Float.ltb (key r') (key r) then r :: l else r' :: insert_desc key r l'
  end.

Definition sort_values_stable (key : row -> num) (l : list row) : list row :=
  fold_right (insert_desc key) [] (List.filter (fun r => negb (Float.isnan (key r))) l)
  ++ List.filter (fun r => Float.isnan (key r)) l.

Record analysis : Type := Analysis {
  analysis_df : table;
  metrics : table;
  low : table;
  high : table;
  abnormal : table
}.

(** What the advanced analysis block computes: its tables, or the notice of
    its [else] branch.  The charts and the reports drawn from the tables
    afterwards are not part of the embedding. *)
Inductive advanced : Type :=
| Analysed (a : analysis)
| Skipped (notice : string).

Definition skip_notice : string :=
  "進階分析略過：缺少必要欄位（至少需含 工站/姓名/效率）".

Definition advanced_analysis (base_df : table) : advanced :=
  if enough_columns base_df then
    let df := efficiency_ratio base_df in
    let df := if has_ct_cols base_df then ct_columns df else df in
    Analysed {| analysis_df := df;
                metrics := station_metrics df;
                low := low_efficiency df;
                high := high_efficiency df;
                abnormal := ct_abnormal (has_ct_cols base_df) df |}
  else Skipped skip_notice.

(** ** One run of the merge-and-analyse block ([main], lines 745-1158) *)

(** The tables [st.session_state] keeps; its other entries are not read by
    the analysis. *)
Definition base_of (session_state : gmap string table) (filtered_df : table) : table :=
  match session_state !! "filtered_df" with
  | Some t => t
  | None =>
      match session_state !! "merged_df" with
      | Some t => t
      | None => filtered_df
      end
  end.

Record run : Type := Run {
  merged_out : table;
  filtered_out : table;
  advanced_out : advanced;
  state_out : gmap string table
}.

(** [merged_df] is the table [pd.merge] returned.  The merged table is
    stored in the session before it is completed in place, so the entry
    holds the completed table.  The share of filtered rows divides by the
    number of merged rows, a [ZeroDivisionError] when there is none. *)
Definition run_analysis (session_state : gmap string table) (merged_df : table)
  : result run :=
  let* merged_df := derive merged_df in
  let session_state := <["merged_df" := merged_df]> session_state in
  let* filtered_df := filtered_of merged_df in
  let session_state := <["filtered_df" := filtered_df]> session_state in
  if (List.length (rows merged_df) =? 0)%nat then Raise ZeroDivisionError
  else
    Ok {| merged_out := merged_df;
          filtered_out := filtered_df;
          advanced_out := advanced_analysis (base_of session_state filtered_df);
          state_out := session_state |}.

(** ** Notions of the statements *)

(** A row read through its header. *)
Definition view (T : table) (r : row) : string -> cell := cell_at (columns T) r.

(** Row by row, the views of two tables of equal height are related. *)
Definition stage (P : (string -> cell) -> (string -> cell) -> Prop) (T T' : table)
  : Prop :=
  Forall2 (fun r r' => P (view T r) (view T' r')) (rows T) (rows T').

(** The column [c] is recomputed by [f], the others are kept. *)
Definition assigned (c : string) (f : (string -> cell) -> cell)
  (g g' : string -> cell) : Prop :=
  g' c = f g /\ forall c', c' <> c -> g' c' = g c'.

(** The key columns the loop of the join preparation trims. *)
Definition trimmed_columns : list string := ["料號"; "工序"].


(** The columns [cols] hold no text. *)
Definition numeric_at (cols : list string) (T : table) : Prop :=
  Forall (fun r => Forall (fun c => is_str (cell_at (columns T) r c) = false) cols)
         (rows T).

(** A fallible test that returns [True]. *)
Definition passes {A} (p : A -> result bool) (a : A) : bool :=
  match p a with Ok true => true | _ => false end.

(** The mask of the quality filter at one row. *)
Definition keeps (T : table) (r : row) : result bool :=
  all_conditions (filter_conditions T) (cell_at (columns T) r).

(** A table whose every record has a station, a name and a ratio. *)
Definition complete (df : table) : Prop :=
  Forall (fun r => isna (station_of df r) = false
                   /\ isna (name_of df r) = false
                   /\ Float.isnan (efficiency_of df r) = false) (rows df).


(** The mean in the words of the specification: the sum of the ratios of
    all the rows over their number. *)
Definition arithmetic_mean (xs : list num) : num :=
  Float.div (Float.sum xs) (Float.of_nat (List.length xs)).

(** Equal ratios keep their original relative order: for each ratio, the
    selected rows having it are the first of the rows of the table having
    it, in the same order. *)
Definition keeps_tie_order (analysis_df out : table) : Prop :=
  forall x : num,
    List.filter (fun r => Float.eqb (efficiency_of analysis_df r) x) (rows out)
    `prefix_of`
    List.filter (fun r => Float.eqb (efficiency_of analysis_df r) x) (rows analysis_df).

(** An earlier row [ri] and a later row [rj] of a descending order with the
    missing ratios last. *)
Definition ordered_pair (key : row -> num) (ri rj : row) : Prop :=
  Float.isnan (key rj) = true
  \/ (Float.isnan (key ri) = false /\ Float.leb (key rj) (key ri) = true).

(** The selection under the stable outcome of the sort. *)
Definition top_stable (analysis_df : table) : table :=
  {| columns := columns analysis_df;
     rows := firstn 10 (sort_values_stable (efficiency_of analysis_df)
                                           (rows analysis_df)) |}.

(** The ratio of a merged record as the advanced analysis reads it: the
    quotient as a percentage rounded to two decimals, over 100. *)
Definition rounded_ratio (o t : num) : num :=
  Float.div (Float.round2 (Float.mul (Float.div o t) (Float.of_nat 100))) (Fin 100).

(** The text of the percentage of a merged record. *)
Definition percentage_text (o t : num) : string :=
  (Text.float_str (Float.round2 (Float.mul (Float.div o t) (Float.of_nat 100))) ++ "%")%string.

Definition is_digit (a : ascii) : bool :=
  let n := nat_of_ascii a in ((48 <=? n)%nat && (n <=? 57)%nat).

Fixpoint all_digits (s : string) : bool :=
  match s with
  | EmptyString => true
  | String a s' => is_digit a && all_digits s'
  end.

(** The fractional digits of [r / 100] are read back exactly. *)
Definition frac_ok (r : N) : bool :=
  let f := Text.frac_digits 17 r 100 in
  match Text.N_of_digits f with
  | Some nf =>
      (0 <? String.length f)%nat
      && (nf * 100 =? r * Npos (Text.pow10 (String.length f)))%N
  | None => false
  end.

(** The fractional digits of [r / 100] hold no percent sign. *)
Definition frac_plain (r : N) : bool :=
  let f := Text.frac_digits 17 r 100 in
  String.eqb (Text.remove_percent f) f.

(** ** Sample tables *)

Definition pct (z : Z) : cell := Num (Fin (inject_Z z)).

Definition operator (station name : string) (ratio : Z) : row :=
  [Str station; Str name; Num (Fin (ratio # 100))].

(** One hour of work, nothing produced. *)
Definition one_hour_no_output : table :=
  {| columns := ["人員作業時間"; "實際產出"];
     rows := [[Num (Fin 1); Num (Fin 0)]] |}.

(** A sheet with a part number of blanks and a name with blanks around. *)
Definition blank_key_sheet : table :=
  {| columns := ["料號"; "姓名"];
     rows := [[Str "  "; Str " amy "]] |}.

(** A selected table: a reserved name, a percentage too low, and both ends
    of the accepted range. *)
Definition sample_selected : table :=
  {| columns := ["工站"; "姓名"; "效率"; "效率值"];
     rows := [[Str "A"; Str "amy"; Str "75.0%"; pct 75];
              [Str "A"; Str "MFGR"; Str "95.0%"; pct 95];
              [Str "B"; Str "cat"; Str "10.0%"; pct 10];
              [Str "B"; Str "dan"; Str "150.0%"; pct 150]] |}.

Definition sample_kept : table :=
  {| columns := ["工站"; "姓名"; "效率"; "效率值"];
     rows := [[Str "A"; Str "amy"; Str "75.0%"; pct 75];
              [Str "B"; Str "dan"; Str "150.0%"; pct 150]] |}.

(** A merged table without the column 工站. *)
Definition no_station : table :=
  {| columns := ["姓名"; "理論產出"; "實際產出"];
     rows := [[Str "amy"; pct 100; pct 75]] |}.

Definition no_station_run : run :=
  Eval vm_compute in
    match run_analysis ∅ no_station with
    | Ok r => r
    | Raise _ =>
        {| merged_out := no_station; filtered_out := no_station;
           advanced_out := Skipped EmptyString; state_out := ∅ |}
    end.

(** Eighteen operators of one station, all at 90 %. *)
Definition tied_table : table :=
  {| columns := ["工站"; "姓名"; "效率"];
     rows := List.map (fun name => operator "A" name 90)
               ["n01"; "n02"; "n03"; "n04"; "n05"; "n06"; "n07"; "n08"; "n09";
                "n10"; "n11"; "n12"; "n13"; "n14"; "n15"; "n16"; "n17"; "n18"] |}.

(** The last ten of them, last first. *)
Definition tied_reversed : table :=
  {| columns := columns tied_table;
     rows := firstn 10 (rev (rows tied_table)) |}.

(** One station with three records: one without a name, two without a
    ratio. *)
Definition ragged_station : table :=
  {| columns := ["工站"; "姓名"; "效率"];
     rows := [[Str "A"; Str "amy"; Num (Fin (90 # 100))];
              [Str "A"; NA; NA];
              [Str "A"; Str "bob"; NA]] |}.

(** The three filtered records of the example of the specification. *)
Definition spec_example : table :=
  {| columns := ["工站"; "姓名"; "效率"];
     rows := [operator "StationA" "p1" 75;
              operator "StationA" "p2" 95;
              operator "StationB" "p3" 110] |}.

(** A merged table: two stations, a record without output, one without
    theoretical output under a reserved name, one with a blank station. *)
Definition sample_merged : table :=
  {| columns := ["料號"; "工站"; "姓名"; "人員作業時間"; "理論產出"; "實際產出"; "標工"];
     rows := [[Str "P1"; Str "A"; Str "amy"; pct 1; pct 100; pct 75; pct 30];
              [Str "P1"; Str "A"; Str "bob"; pct 1; pct 100; pct 95; pct 30];
              [Str "P2"; Str "B"; Str "cat"; pct 1; pct 100; pct 110; pct 30];
              [Str "P2"; Str "B"; Str "dan"; pct 1; pct 100; pct 0; pct 30];
              [Str "P2"; Str "B"; Str "MFGR"; pct 1; pct 0; pct 10; pct 30];
              [Str "P2"; Str " "; Str "eve"; pct 1; pct 3; pct 1; pct 30]] |}.

Definition sample_run : run :=
  Eval vm_compute in
    match run_analysis ∅ sample_merged with
    | Ok r => r
    | Raise _ =>
        {| merged_out := sample_merged; filtered_out := sample_merged;
           advanced_out := Skipped EmptyString; state_out := ∅ |}
    end.

Definition sample_analysis : analysis :=
  Eval vm_compute in
    match advanced_out sample_run with
    | Analysed a => a
    | Skipped _ =>
        {| analysis_df := sample_merged; metrics := sample_merged;
           low := sample_merged; high := sample_merged; abnormal := sample_merged |}
    end.

(** One record with a third of the theoretical output. *)
Definition third_output : table :=
  {| columns := ["工站"; "姓名"; "理論產出"; "實際產出"];
     rows := [[Str "A"; Str "amy"; pct 3; pct 1]] |}.

(** Part numbers with the ideographic space U+3000 before, after and
    inside, and a no-break space U+00A0 behind. *)
Definition wide_space_sheet : table :=
  {| columns := ["料號"];
     rows := [[Str "　P1　"]; [Str "P 2  "]] |}.

(** Part numbers given as whole numbers. *)
Definition numbered_parts : table :=
  {| columns := ["料號"];
     rows := [[pct 1001]; [pct 1002]] |}.


(** ** Further parts of [main] (lines 699 and 912-917) *)

(** [set(df1.columns) & set(df2.columns)]: the labels the key selection
    offers.  The order of the list Python makes of the set is not fixed,
    so the set itself is kept. *)
Definition common_columns (df1 df2 : table) : gset string :=
  list_to_set (columns df1) ∩ list_to_set (columns df2).

(** The share of filtered rows shown with the statistics,
    [(len(merged_df) - len(filtered_df)) / len(merged_df) * 100]: plain
    Python division, a [ZeroDivisionError] without merged rows. *)
Definition filter_rate (merged_df filtered_df : table) : result num :=
  let m := Z.of_nat (List.length (rows merged_df)) in
  let f := Z.of_nat (List.length (rows filtered_df)) in
  if (m =? 0)%Z then Raise ZeroDivisionError
  else Ok (Fin (inject_Z (m - f) / inject_Z m * 100)).

(** ** Key figures and advice of the advanced analysis ([main], lines 979-983 and 1111-1137) *)

(** [(analysis_df['效率'] >= 0.8).mean() * 100]: the comparison is false on
    a missing ratio, and the mean of no value is NaN.  The text written
    with one decimal is not part of the embedding. *)
Definition qualified (analysis_df : table) (r : row) : bool :=
  Float.leb (Fin (8 # 10)) (efficiency_of analysis_df r).

Definition qualified_rate (analysis_df : table) : num :=
  Float.mul
    (Float.mean (List.map (fun r => if qualified analysis_df r then Fin 1 else Fin 0)
                          (rows analysis_df)))
    (Fin 100).

(** [Series.unique()]: the values in order of first appearance; the missing
    value is kept, once. *)
Definition same_value (a b : cell) : bool :=
  cell_eqb a b || (isna a && isna b).

Fixpoint unique (l : list cell) : list cell :=
  match l with
  | [] => []
  | k :: l' => k :: List.filter (fun k' => negb (same_value k k')) (unique l')
  end.

(** [', '.join(stations)]: an item that is no text is a [TypeError]. *)
Fixpoint join_stations (stations : list cell) : result string :=
  match stations with
  | [] => Ok EmptyString
  | Num _ :: _ => Raise TypeError
  | Str s :: rest =>
      let* t := join_stations rest in
      Ok (match rest with [] => s | _ => s ++ ", " ++ t end)%string
  end.

(** The station lists of the advice: the stations of the records above
    [too_high], then of the records below [too_low], each joined when it is
    not empty. *)
Definition station_advice (analysis_df : table)
  : result (option string * option string) :=
  let high_stations := unique (column "工站" (high_efficiency analysis_df)) in
  let low_stations := unique (column "工站" (low_efficiency analysis_df)) in
  let* h := if (0 <? List.length high_stations)%nat
            then let* s := join_stations high_stations in Ok (Some s)
            else Ok None in
  let* l := if (0 <? List.length low_stations)%nat
            then let* s := join_stations low_stations in Ok (Some s)
            else Ok None in
  Ok (h, l).

(** ** Data of the charts ([plot_ct_scatter], [plot_efficiency_heatmap]) *)

(** [Series.max()]: the greatest of the values that are not missing, NaN
    when there is none. *)
Definition series_max (xs : list num) : num :=
  match Float.notna xs with
  | [] => NaN
  | y :: ys => fold_left (fun m x => if Float.ltb m x then x else m) ys y
  end.

(** Python's [max(a, b)]: [b] when [b > a], else [a]. *)
Definition py_max (a b : num) : num := if Float.ltb a b then b else a.

(** [max_ct] of [plot_ct_scatter], the end of the ideal line; a column
    that does not exist is a [KeyError].  The chart is drawn from the
    analysis table, whose cycle times have been made numbers. *)
Definition max_ct (df : table) : result num :=
  if has_col "標準CT" df && has_col "實際CT" df
  then Ok (py_max (series_max (List.map value (column "標準CT" df)))
                  (series_max (List.map value (column "實際CT" df))))
  else Raise KeyError.

(** The cells of the heat map, [pivot_table(values='效率', index='工站',
    aggfunc='mean')]: the mean of each station, the stations without a
    mean being dropped; the station is the label on the x axis, the mean
    the value of z.  A column that does not exist is a [KeyError].  The
    drawing itself is not part of the embedding. *)
Definition heatmap_cells (df : table) : result (list (cell * num)) :=
  if has_col "工站" df && has_col "效率" df
  then Ok (List.filter (fun kv => negb (Float.isnan (snd kv)))
                       (List.map (fun k => (k, group_mean df k)) (group_keys df)))
  else Raise KeyError.

(** ** Further notions of the statements *)

(** The renaming of the first sheet as a map on labels. *)
Definition canonical_1 (c : string) : string :=
  if String.eqb c "作業時間" then "標工"
  else if String.eqb c "工作內容" then "工站" else c.

(** The renaming of the second sheet as a map on labels. *)
Definition canonical_2 (c : string) : string :=
  if String.eqb c "產出" then "實際產出"
  else if String.eqb c "RUN總時數" then "人員作業時間" else c.

(** Strictly ascending group keys. *)
Definition key_lt (a b : cell) : Prop := cell_leb a b = true /\ cell_eqb a b = false.

(** The cells of a row under the labels [cols] hold no text. *)
Definition no_text (cols : list string) (g : string -> cell) : Prop :=
  Forall (fun c => is_str (g c) = false) cols.

(** ** Further sample tables *)

(** A table of three records: too low, in between, too high, and one
    without a ratio. *)
Definition mixed_ratios : table :=
  {| columns := ["工站"; "姓名"; "效率"];
     rows := [operator "A" "amy" 75; operator "A" "bob" 95;
              operator "B" "cat" 110; [Str "B"; Str "dan"; NA]] |}.

(** Two sheets sharing 料號 and 姓名; the second has a record without a
    part number. *)
Definition time_sheet : table :=
  {| columns := ["料號"; "姓名"; "作業時間"];
     rows := [[Str "P1"; Str "amy"; pct 30]] |}.

Definition output_sheet : table :=
  {| columns := ["料號"; "姓名"; "產出"];
     rows := [[Str "P1"; Str "amy"; pct 75]; [NA; Str "bob"; pct 95]] |}.

(** Four records with both cycle times: 33 % over the standard, 10 % over
    it, a standard of zero, and no standard. *)
Definition ct_sheet : table :=
  {| columns := ["工站"; "姓名"; "效率值"; "標準CT"; "實際CT"];
     rows := [[Str "A"; Str "amy"; pct 75; pct 30; pct 40];
              [Str "A"; Str "bob"; pct 95; pct 30; pct 33];
              [Str "B"; Str "cat"; pct 110; pct 0; pct 12];
              [Str "B"; Str "dan"; pct 90; NA; pct 12]] |}.

Definition ct_analysis : analysis :=
  Eval vm_compute in
    match advanced_analysis ct_sheet with
    | Analysed a => a
    | Skipped _ =>
        {| analysis_df := ct_sheet; metrics := ct_sheet;
           low := ct_sheet; high := ct_sheet; abnormal := ct_sheet |}
    end.

(** Stations given by number: one record too low. *)
Definition numbered_stations : table :=
  {| columns := ["工站"; "姓名"; "效率"];
     rows := [[pct 10; Str "amy"; Num (Fin (75 # 100))];
              [pct 20; Str "bob"; Num (Fin (95 # 100))]] |}.

(** Cycle times of three records: the standard is missing in all. *)
Definition no_standard_ct : table :=
  {| columns := ["標準CT"; "實際CT"];
     rows := [[NA; pct 40]; [NA; pct 33]; [NA; NA]] |}.


(** * Properties *)

(** ** The definitions on small inputs *)

Example float_str_85 : Text.float_str (Fin (8500 # 100)) = "85.0".
Proof. reflexivity. Qed.

Example float_str_negative : Text.float_str (Fin (-105 # 100)) = "-1.05".
Proof. reflexivity. Qed.

Example parse_float_negative : Text.parse_float "-1.05" = Fin (-105 # 100).
Proof. reflexivity. Qed.

Example parse_float_text : Text.parse_float "n/a" = NaN.
Proof. reflexivity. Qed.

Example strip_blanks : Text.strip "  a b  " = "a b".
Proof. reflexivity. Qed.

Example rint_half_even : Float.rint (5 # 2) = 2%Z /\ Float.rint (7 # 2) = 4%Z.
Proof. split; reflexivity. Qed.

Example sample_percentages :
  (let* d := derive sample_merged in Ok (column "效率" d))
  = Ok [Str "75.0%"; Str "95.0%"; Str "110.0%"; Str "0.0%"; Str "inf%"; Str "33.33%"].
Proof. reflexivity. Qed.

Example sample_filtered_names :
  column "姓名" (filtered_out sample_run) = [Str "amy"; Str "bob"; Str "cat"].
Proof. reflexivity. Qed.

(** The example of the specification: StationA 85.0 with two records,
    StationB 110.0 with one; one record too low, one too high. *)
Example spec_example_metrics :
  List.map (fun m => (nth 0 m NA,
                      Float.eqb (value (nth 1 m NA)) (Fin 85),
                      Float.eqb (value (nth 1 m NA)) (Fin 110),
                      nth 2 m NA))
           (rows (station_metrics spec_example))
  = [(Str "StationA", true, false, Num (Float.of_nat 2));
     (Str "StationB", false, true, Num (Float.of_nat 1))].
Proof. reflexivity. Qed.

Example spec_example_anomalies :
  column "姓名" (low_efficiency spec_example) = [Str "p1"]
  /\ column "姓名" (high_efficiency spec_example) = [Str "p3"].
Proof. split; reflexivity. Qed.

(** ** Text of a number and back *)

Lemma all_digits_uint u : all_digits (NilEmpty.string_of_uint u) = true.
Proof. induction u; simpl; auto. Qed.

Lemma string_of_N_uint n :
  Text.string_of_N n = NilEmpty.string_of_uint (N.to_uint n)
  /\ N.to_uint n <> Decimal.Nil.
Proof.
  unfold Text.string_of_N, NilZero.string_of_uint.
  assert (H : N.to_uint n <> Decimal.Nil).
  { destruct n; simpl; [discriminate | apply DecimalPos.Unsigned.to_uint_nonnil]. }
  split; [| exact H]. destruct (N.to_uint n); congruence.
Qed.

Lemma string_of_N_digits n : all_digits (Text.string_of_N n) = true.
Proof. destruct (string_of_N_uint n) as [-> _]. apply all_digits_uint. Qed.

Lemma string_of_N_cons n :
  exists a s, Text.string_of_N n = String a s /\ is_digit a = true.
Proof.
  pose proof (string_of_N_digits n) as Hd.
  destruct (string_of_N_uint n) as [He Hn].
  rewrite He in *. destruct (N.to_uint n) eqn:E; try congruence;
    simpl in *; eauto.
Qed.

Lemma N_of_digits_string_of_N n : Text.N_of_digits (Text.string_of_N n) = Some n.
Proof.
  destruct (string_of_N_uint n) as [-> _]. unfold Text.N_of_digits.
  rewrite NilEmpty.usu. now rewrite Unsigned.of_to.
Qed.

Lemma split_dot_app i f :
  all_digits i = true ->
  Text.split_dot (i ++ String "." f)%string = (i, Some f).
Proof.
  induction i as [| a i IH]; simpl; intros H; [reflexivity |].
  apply andb_prop in H as [Ha Hi].
  destruct (Ascii.eqb a ".") eqn:E.
  - apply Ascii.eqb_eq in E. subst a. discriminate.
  - now rewrite (IH Hi).
Qed.

Lemma is_digit_not_special a :
  is_digit a = true ->
  Ascii.eqb a "-" = false /\ Ascii.eqb a "+" = false
  /\ Ascii.eqb a "i" = false /\ Ascii.eqb a "n" = false.
Proof.
  intros H. repeat split;
    (destruct (Ascii.eqb a _) eqn:E; [apply Ascii.eqb_eq in E; subst a; discriminate | reflexivity]).
Qed.

Lemma frac_ok_all r : (r < 100)%N -> frac_ok r = true.
Proof.
  intros H.
  assert (Hall : forallb frac_ok (List.map N.of_nat (seq 0 100)) = true)
    by (vm_compute; reflexivity).
  rewrite forallb_forall in Hall. apply Hall.
  apply in_map_iff. exists (N.to_nat r). split; [lia |].
  apply in_seq. lia.
Qed.

Lemma parse_unsigned_hundredths (a : N) :
  exists q, Text.parse_unsigned
              (Text.string_of_N (a / 100) ++ "."
                 ++ Text.frac_digits 17 (a mod 100) 100)%string = Some q
            /\ q == (Z.of_N a # 100).
Proof.
  unfold Text.parse_unsigned.
  change ("." ++ ?f)%string with (String "." f).
  rewrite split_dot_app by apply string_of_N_digits.
  rewrite N_of_digits_string_of_N.
  pose proof (frac_ok_all (a mod 100)) as Hf.
  assert (Hlt : (a mod 100 < 100)%N) by (apply N.mod_lt; lia).
  specialize (Hf Hlt). unfold frac_ok in Hf.
  set (f := Text.frac_digits 17 (a mod 100) 100) in *.
  destruct (Text.N_of_digits f) as [nf|]; [| discriminate].
  apply andb_prop in Hf as [Hlen Hval].
  apply Nat.ltb_lt in Hlen. apply N.eqb_eq in Hval.
  destruct (Nat.eqb_spec (String.length (Text.string_of_N (a / 100)) + String.length f) 0);
    [lia |].
  eexists. split; [reflexivity |].
  set (sc := Text.pow10 (String.length f)) in *.
  unfold Qeq. simpl.
  pose proof (N.div_mod a 100 ltac:(lia)) as Hdm.
  lia.
Qed.

Lemma eqb_cons_false c s t a u :
  Ascii.eqb c a = false ->
  String.eqb (String c s ++ t)%string (String a u) = false.
Proof.
  intros H. destruct (String.eqb_spec (String c s ++ t) (String a u)) as [E |];
    [| reflexivity].
  change (String c s ++ t)%string with (String c (s ++ t))%string in E.
  injection E as -> _.
  rewrite Ascii.eqb_refl in H. discriminate.
Qed.

Lemma parse_magnitude_hundredths (a : N) :
  exists q, Text.parse_magnitude
              (Text.string_of_N (a / 100) ++ "."
                 ++ Text.frac_digits 17 (a mod 100) 100)%string = Fin q
            /\ q == (Z.of_N a # 100).
Proof.
  destruct (parse_unsigned_hundredths a) as (q & Hq & Hv).
  exists q. split; [| exact Hv]. unfold Text.parse_magnitude. rewrite Hq.
  destruct (string_of_N_cons (a / 100)) as (c & s & -> & Hc).
  apply is_digit_not_special in Hc as (_ & _ & Hi & Hn).
  rewrite !eqb_cons_false by assumption. reflexivity.
Qed.

(** Reading back the text of a value with two decimals gives the value. *)
Lemma parse_float_str_hundredths (k : Z) :
  Float.eqv (Text.parse_float (Text.float_str (Fin (k # 100)))) (Fin (k # 100)).
Proof.
  unfold Text.float_str. cbn [Qnum Qden].
  change (N.pos 100) with 100%N.
  destruct (parse_magnitude_hundredths (Z.abs_N k)) as (q & Hq & Hv).
  destruct (Z.ltb_spec k 0) as [Hk | Hk].
  - change ("-" ++ ?s)%string with (String "-" s).
    cbn [Text.parse_float]. rewrite Ascii.eqb_refl, Hq.
    cbn [Float.neg Float.eqv]. rewrite Hv. unfold Qeq, Qopp. cbn [Qnum Qden]. lia.
  - change ("" ++ ?s)%string with s.
    revert Hq. destruct (string_of_N_cons (Z.abs_N k / 100)) as (c & s & -> & Hc).
    apply is_digit_not_special in Hc as (Hm & Hp & _ & _).
    intros Hq.
    change (String c s ++ ?t)%string with (String c (s ++ t))%string in *.
    cbn [Text.parse_float]. rewrite Hm, Hp, Hq. cbn [Float.eqv]. rewrite Hv.
    unfold Qeq. cbn [Qnum Qden]. lia.
Qed.

(** ** Headers and rows *)

Lemma col_index_Some c cols i :
  col_index c cols = Some i -> cols !! i = Some c.
Proof.
  revert i. induction cols as [| c' cols IH]; simpl; intros i H; [discriminate |].
  destruct (String.eqb_spec c c') as [-> | Hne].
  - injection H as <-. reflexivity.
  - destruct (col_index c cols) as [j |]; [| discriminate].
    injection H as <-. simpl. now apply IH.
Qed.

Lemma col_index_lt c cols i :
  col_index c cols = Some i -> (i < List.length cols)%nat.
Proof. intros H. apply col_index_Some in H. now apply lookup_lt_Some in H. Qed.

Lemma col_index_None c cols :
  col_index c cols = None <-> ~ In c cols.
Proof.
  induction cols as [| c' cols IH]; simpl; [tauto |].
  destruct (String.eqb_spec c c') as [-> | Hne].
  - split; [discriminate | tauto].
  - destruct (col_index c cols); simpl.
    + split; [discriminate |]. intros H. exfalso.
      assert (Hc : ~ In c cols) by tauto. apply IH in Hc. discriminate.
    + split; [| reflexivity]. intros _ [E | HIn]; [congruence | now apply IH].
Qed.

Lemma col_index_app_l c cols more i :
  col_index c cols = Some i -> col_index c (cols ++ more) = Some i.
Proof.
  revert i. induction cols as [| c' cols IH]; simpl; intros i H; [discriminate |].
  destruct (String.eqb c c'); [assumption |].
  destruct (col_index c cols) as [j |]; [| discriminate].
  now rewrite (IH j eq_refl).
Qed.

Lemma col_index_app_new c cols :
  col_index c cols = None -> col_index c (cols ++ [c]) = Some (List.length cols).
Proof.
  induction cols as [| c' cols IH]; simpl; intros H.
  - now rewrite String.eqb_refl.
  - destruct (String.eqb c c'); [discriminate |].
    destruct (col_index c cols); [discriminate |]. now rewrite IH.
Qed.

Lemma col_index_app_other c c' cols :
  c' <> c -> col_index c' cols = None -> col_index c' (cols ++ [c]) = None.
Proof.
  intros Hne H. apply col_index_None. apply col_index_None in H.
  rewrite in_app_iff. simpl. intuition congruence.
Qed.

Lemma col_index_inj c c' cols i :
  col_index c cols = Some i -> col_index c' cols = Some i -> c = c'.
Proof.
  intros H H'. apply col_index_Some in H. apply col_index_Some in H'. congruence.
Qed.

Lemma length_pad n r : List.length (pad n r) = n.
Proof.
  unfold pad. rewrite length_app, length_take, length_replicate. lia.
Qed.

Lemma lookup_pad n r i :
  (i < n)%nat -> default NA (pad n r !! i) = default NA (r !! i).
Proof.
  intros Hi. unfold pad.
  destruct (Nat.lt_ge_cases i (List.length r)) as [Hlt | Hge].
  - rewrite lookup_app_l by (rewrite length_take; lia).
    now rewrite lookup_take_lt by lia.
  - rewrite lookup_app_r by (rewrite length_take; lia).
    rewrite (lookup_ge_None_2 r i) by lia.
    rewrite lookup_replicate_2; [reflexivity |]. rewrite length_take. lia.
Qed.

Lemma cell_at_set_same cols c v r :
  cell_at (set_header cols c) (set_cell cols c v r) c = v.
Proof.
  unfold cell_at, set_header, set_cell.
  destruct (col_index c cols) as [i |] eqn:E.
  - rewrite E. rewrite list_lookup_insert_eq; [reflexivity |].
    rewrite length_pad. eauto using col_index_lt.
  - rewrite (col_index_app_new _ _ E).
    rewrite lookup_app_r by (rewrite length_pad; lia).
    rewrite length_pad, Nat.sub_diag. reflexivity.
Qed.

Lemma cell_at_set_other cols c c' v r :
  c' <> c ->
  cell_at (set_header cols c) (set_cell cols c v r) c' = cell_at cols r c'.
Proof.
  intros Hne. unfold cell_at, set_header, set_cell.
  destruct (col_index c cols) as [i |] eqn:E.
  - destruct (col_index c' cols) as [j |] eqn:E'; [| reflexivity].
    rewrite list_lookup_insert_ne.
    + apply lookup_pad. eauto using col_index_lt.
    + intros ->. apply Hne. eauto using col_index_inj.
  - destruct (col_index c' cols) as [j |] eqn:E'.
    + rewrite (col_index_app_l _ _ _ _ E').
      rewrite lookup_app_l by (rewrite length_pad; eauto using col_index_lt).
      apply lookup_pad. eauto using col_index_lt.
    + now rewrite (col_index_app_other _ _ _ Hne E').
Qed.

Lemma has_col_In c T : has_col c T = true <-> In c (columns T).
Proof.
  unfold has_col. destruct (col_index c (columns T)) eqn:E.
  - split; [| reflexivity]. intros _.
    destruct (in_dec string_dec c (columns T)) as [| Hn]; [assumption |].
    apply col_index_None in Hn. congruence.
  - split; [discriminate |]. intros H. apply col_index_None in E. tauto.
Qed.

Lemma In_set_header c c' cols :
  In c' (set_header cols c) <-> In c' cols \/ c' = c.
Proof.
  unfold set_header. destruct (col_index c cols) eqn:E.
  - split; [tauto |]. intros [H | ->]; [assumption |].
    destruct (in_dec string_dec c cols) as [| Hn]; [assumption |].
    apply col_index_None in Hn. congruence.
  - rewrite in_app_iff. simpl. intuition congruence.
Qed.

Lemma cell_at_select cols cs r c :
  In c cs -> cell_at cs (List.map (cell_at cols r) cs) c = cell_at cols r c.
Proof.
  intros HIn. unfold cell_at at 1.
  destruct (col_index c cs) as [i |] eqn:E.
  - apply col_index_Some in E.
    change (List.map (cell_at cols r) cs) with (cell_at cols r <$> cs).
    rewrite list_lookup_fmap, E. reflexivity.
  - apply col_index_None in E. tauto.
Qed.

(** ** Column renaming *)

Lemma has_col_false c T : has_col c T = false <-> ~ In c (columns T).
Proof.
  rewrite <- has_col_In. destruct (has_col c T); split; congruence.
Qed.

(** A label leaves the header when the dict renames it and renames nothing
    to it. *)
Lemma rename_removes k (m : gmap string string) T :
  (In k (columns T) -> is_Some (m !! k)) ->
  (forall k' v, m !! k' = Some v -> v <> k) ->
  has_col k (rename_columns m T) = false.
Proof.
  intros Hkey Hval. apply has_col_false. simpl. rewrite in_map_iff.
  intros (c & Hc & HIn). destruct (m !! c) as [v |] eqn:E; simpl in Hc.
  - now apply (Hval c v).
  - subst c. destruct (Hkey HIn) as [v Hv]. congruence.
Qed.

Lemma rename_mapping_1_again df1 :
  rename_mapping_1 df1 <> ∅ ->
  rename_mapping_1 (rename_columns (rename_mapping_1 df1) df1) = ∅.
Proof.
  intros Hne. unfold rename_mapping_1 at 1.
  rewrite !rename_removes; [reflexivity | | | |].
  all: unfold rename_mapping_1 in *.
  all: destruct (has_col "作業時間" df1) eqn:Ha, (has_col "工作內容" df1) eqn:Hb.
  all: try (exfalso; apply Hne; reflexivity).
  all: try (intros HIn; apply has_col_In in HIn; try congruence;
            eexists; simplify_map_eq; reflexivity).
  all: intros k' v Hv; repeat (apply lookup_insert_Some in Hv as [[<- <-] | [_ Hv]]);
       try (rewrite lookup_empty in Hv); try discriminate.
Qed.

Lemma rename_mapping_2_again df2 :
  rename_mapping_2 df2 <> ∅ ->
  rename_mapping_2 (rename_columns (rename_mapping_2 df2) df2) = ∅.
Proof.
  intros Hne. unfold rename_mapping_2 at 1.
  rewrite !rename_removes; [reflexivity | | | |].
  all: unfold rename_mapping_2 in *.
  all: destruct (has_col "產出" df2) eqn:Ha, (has_col "RUN總時數" df2) eqn:Hb.
  all: try (exfalso; apply Hne; reflexivity).
  all: try (intros HIn; apply has_col_In in HIn; try congruence;
            eexists; simplify_map_eq; reflexivity).
  all: intros k' v Hv; repeat (apply lookup_insert_Some in Hv as [[<- <-] | [_ Hv]]);
       try (rewrite lookup_empty in Hv); try discriminate.
Qed.

(** C8. Renaming the columns of either sheet a second time changes
    nothing: [normalize (normalize T) = normalize T] for the mapping of the
    first sheet (作業時間→標工, 工作內容→工站) and of the second
    (產出→實際產出, RUN總時數→人員作業時間), each pair applied only when its
    source column exists. *)
Theorem normalize_idempotent (T : table) :
  normalize_1 (normalize_1 T) = normalize_1 T
  /\ normalize_2 (normalize_2 T) = normalize_2 T.
Proof.
  split.
  - unfold normalize_1. cbv zeta.
    destruct (decide (rename_mapping_1 T = ∅)) as [E | Hne].
    + now rewrite decide_True by exact E.
    + rewrite (rename_mapping_1_again T Hne). now rewrite decide_True by reflexivity.
  - unfold normalize_2. cbv zeta.
    destruct (decide (rename_mapping_2 T = ∅)) as [E | Hne].
    + now rewrite decide_True by exact E.
    + rewrite (rename_mapping_2_again T Hne). now rewrite decide_True by reflexivity.
Qed.

(** ** The result monad on lists *)

Lemma mapR_Ok {A B} (f : A -> result B) l l' :
  mapR f l = Ok l' -> Forall2 (fun a b => f a = Ok b) l l'.
Proof.
  revert l'. induction l as [| a l IH]; simpl; intros l' H.
  - injection H as <-. constructor.
  - destruct (f a) as [b |] eqn:Ea; [| discriminate]. simpl in H.
    destruct (mapR f l) as [bs |]; [| discriminate]. simpl in H.
    injection H as <-. constructor; auto.
Qed.

Lemma mapR_total {A B} (f : A -> result B) l :
  Forall (fun a => exists b, f a = Ok b) l -> exists l', mapR f l = Ok l'.
Proof.
  induction 1 as [| a l [b Hb] _ [bs Hbs]]; simpl.
  - eexists. reflexivity.
  - rewrite Hb. simpl. rewrite Hbs. simpl. eexists. reflexivity.
Qed.

(** ** Actual cycle time *)

Lemma Qeq_bool_false a b : Qeq_bool a b = false -> ~ a == b.
Proof. intros H E. apply Qeq_bool_iff in E. congruence. Qed.

Lemma mul_3600 h :
  Float.isnan (Float.mul h (Float.of_nat 3600)) = Float.isnan h
  /\ Float.is_zero (Float.mul h (Float.of_nat 3600)) = Float.is_zero h.
Proof.
  destruct h as [| | | a]; try (split; reflexivity).
  split; [reflexivity |]. simpl.
  destruct (Qeq_bool a 0) eqn:E.
  - apply Qeq_bool_iff in E. apply Qeq_bool_iff. rewrite E. reflexivity.
  - apply Qeq_bool_false in E.
    destruct (Qeq_bool (a * _) 0) eqn:E'; [| reflexivity].
    apply Qeq_bool_iff in E'. exfalso. apply E.
    apply Qmult_integral in E' as [E' | E']; [assumption | discriminate].
Qed.

(** Division by zero: NaN for a zero or missing numerator, an infinity
    otherwise. *)
Lemma div_by_zero x o :
  Float.is_zero o = true ->
  (Float.isnan x || Float.is_zero x = true -> Float.div x o = NaN)
  /\ (Float.isnan x = false -> Float.is_zero x = false ->
      Float.isinf (Float.div x o) = true).
Proof.
  destruct o as [| | | b]; try discriminate. simpl. intros Hb.
  assert (Hlt : Float.Qltb b 0 = false).
  { unfold Float.Qltb. apply Qeq_bool_iff in Hb. rewrite Hb. reflexivity. }
  destruct x as [| | | a]; simpl; try rewrite Hlt; try rewrite Hb; try (split; auto; discriminate).
  split.
  - intros ->. reflexivity.
  - intros _ ->. destruct (Float.Qltb 0 a); reflexivity.
Qed.

Lemma div_nan x o :
  Float.isnan x || Float.isnan o = true -> Float.div x o = NaN.
Proof. destruct x, o; simpl; try discriminate; reflexivity. Qed.

Lemma assignM_Ok c f T T' :
  assignM c f T = Ok T' ->
  columns T' = set_header (columns T) c
  /\ Forall2 (fun r r' => exists v, f (cell_at (columns T) r) = Ok v
                                    /\ r' = set_cell (columns T) c v r)
             (rows T) (rows T').
Proof.
  unfold assignM. intros H.
  destruct (mapR _ (rows T)) as [rs |] eqn:E; [| discriminate].
  simpl in H. injection H as <-. simpl. split; [reflexivity |].
  apply mapR_Ok in E. eapply Forall2_impl; [| exact E].
  intros r r' Hr. cbv beta in Hr.
  destruct (f (cell_at (columns T) r)) as [v |]; [| discriminate].
  simpl in Hr. injection Hr as <-. eauto.
Qed.

Lemma assignM_total c f T :
  Forall (fun r => exists v, f (cell_at (columns T) r) = Ok v) (rows T) ->
  exists T', assignM c f T = Ok T'.
Proof.
  intros H. unfold assignM.
  destruct (mapR_total (fun r => let* v := f (cell_at (columns T) r) in
                                 Ok (set_cell (columns T) c v r)) (rows T)) as [rs Hrs].
  - eapply Forall_impl; [| exact H]. intros r [v Hv]. cbv beta. rewrite Hv.
    simpl. eauto.
  - rewrite Hrs. simpl. eauto.
Qed.

Lemma cell_not_str c : is_str c = false -> c = Num (value c).
Proof. destruct c; [reflexivity | discriminate]. Qed.

(** C1, as the code has it. When 人員作業時間 and 實際產出 are columns of
    numbers, the derivation raises nothing and sets 實際CT to
    人員作業時間 * 3600 / 實際產出 in every row: missing when either input is
    missing, missing when both 實際產出 and 人員作業時間 are zero, and an
    infinity (not a missing value) when 實際產出 is zero and 人員作業時間 is
    a non-zero number. *)
Theorem actual_ct_degenerate (df : table) :
  has_col "人員作業時間" df = true ->
  has_col "實際產出" df = true ->
  Forall (fun r => is_str (cell_at (columns df) r "人員作業時間") = false
                   /\ is_str (cell_at (columns df) r "實際產出") = false) (rows df) ->
  exists df',
    with_actual_ct df = Ok df'
    /\ Forall2
         (fun r r' =>
            let h := value (cell_at (columns df) r "人員作業時間") in
            let o := value (cell_at (columns df) r "實際產出") in
            let ct := cell_at (columns df') r' "實際CT" in
            ct = Num (Float.div (Float.mul h (Float.of_nat 3600)) o)
            /\ (Float.isnan h || Float.isnan o = true -> ct = NA)
            /\ (Float.is_zero o = true -> Float.is_zero h = true -> ct = NA)
            /\ (Float.is_zero o = true -> Float.isnan h = false ->
                Float.is_zero h = false ->
                exists x, ct = Num x /\ Float.isinf x = true))
         (rows df) (rows df').
Proof.
  intros Hh Ho Hnum. unfold with_actual_ct. rewrite Hh, Ho. cbn [andb].
  set (f := fun get : string -> cell =>
              cell_div (cell_mul (get "人員作業時間") 3600) (get "實際產出")).
  assert (Hf : forall r,
             is_str (cell_at (columns df) r "人員作業時間") = false ->
             is_str (cell_at (columns df) r "實際產出") = false ->
             f (cell_at (columns df) r)
             = Ok (Num (Float.div
                          (Float.mul (value (cell_at (columns df) r "人員作業時間"))
                                     (Float.of_nat 3600))
                          (value (cell_at (columns df) r "實際產出"))))).
  { intros r H1 H2. unfold f.
    rewrite (cell_not_str _ H1) at 1. rewrite (cell_not_str _ H2) at 1. reflexivity. }
  destruct (assignM_total "實際CT" f df) as [df' Hdf'].
  { eapply Forall_impl; [| exact Hnum]. intros r [H1 H2]. rewrite (Hf r H1 H2). eauto. }
  exists df'. split; [exact Hdf' |].
  apply assignM_Ok in Hdf' as [Hcols Hrows]. rewrite Hcols.
  clear Hcols. induction Hrows as [| r r' rs rs' (v & Hv & ->) _ IH]; [constructor |].
  apply Forall_cons_iff in Hnum as [[H1 H2] Hnum]. constructor; [| now apply IH].
  cbv zeta. rewrite cell_at_set_same. rewrite (Hf r H1 H2) in Hv. injection Hv as <-.
  set (h := value (cell_at (columns df) r "人員作業時間")).
  set (o := value (cell_at (columns df) r "實際產出")).
  destruct (mul_3600 h) as [Hn Hz].
  split; [reflexivity |]. split; [| split].
  - intros Hna. unfold NA. f_equal. apply div_nan. now rewrite Hn.
  - intros Hzo Hzh. unfold NA. f_equal.
    apply (proj1 (div_by_zero _ o Hzo)). rewrite Hz, Hzh. apply orb_true_r.
  - intros Hzo Hnh Hzh. eexists. split; [reflexivity |].
    apply (proj2 (div_by_zero _ o Hzo)); congruence.
Qed.

(** C1, refuted as stated: one hour of work and no output give an
    actual cycle time of plus infinity, which is not a missing value. *)
Lemma actual_ct_zero_output_is_infinite :
  with_actual_ct one_hour_no_output
  = Ok {| columns := ["人員作業時間"; "實際產出"; "實際CT"];
          rows := [[Num (Fin 1); Num (Fin 0); Num PInf]] |}
  /\ isna (Num PInf) = false.
Proof. split; reflexivity. Qed.

Lemma actual_ct_degenerate_witness :
  exists df',
    with_actual_ct one_hour_no_output = Ok df'
    /\ Forall2
         (fun r r' =>
            let h := value (cell_at (columns one_hour_no_output) r "人員作業時間") in
            let o := value (cell_at (columns one_hour_no_output) r "實際產出") in
            let ct := cell_at (columns df') r' "實際CT" in
            ct = Num (Float.div (Float.mul h (Float.of_nat 3600)) o)
            /\ (Float.isnan h || Float.isnan o = true -> ct = NA)
            /\ (Float.is_zero o = true -> Float.is_zero h = true -> ct = NA)
            /\ (Float.is_zero o = true -> Float.isnan h = false ->
                Float.is_zero h = false ->
                exists x, ct = Num x /\ Float.isinf x = true))
         (rows one_hour_no_output) (rows df').
Proof.
  apply (actual_ct_degenerate one_hour_no_output); [reflexivity | reflexivity |].
  repeat constructor.
Defined.

(** ** The quality filter *)

Lemma filterR_Ok {A} (p : A -> result bool) l l' :
  filterR p l = Ok l' -> l' = List.filter (passes p) l.
Proof.
  revert l'. induction l as [| a l IH]; simpl; intros l' H.
  - now injection H as <-.
  - unfold passes at 1. destruct (p a) as [b |]; [| discriminate]. simpl in H.
    destruct (filterR p l) as [r |]; [| discriminate]. simpl in H.
    injection H as <-. rewrite (IH r eq_refl). now destruct b.
Qed.

Lemma filterR_all_pass {A} (p : A -> result bool) l :
  Forall (fun a => p a = Ok true) l -> filterR p l = Ok l.
Proof.
  induction 1 as [| a l Ha _ IH]; simpl; [reflexivity |].
  rewrite Ha. simpl. rewrite IH. reflexivity.
Qed.


Lemma passes_Ok {A} (p : A -> result bool) a : passes p a = true -> p a = Ok true.
Proof. unfold passes. destruct (p a) as [[|] |]; congruence. Qed.

Lemma filter_sublist {A} (f : A -> bool) (l : list A) : sublist (List.filter f l) l.
Proof.
  induction l as [| a l IH]; simpl; [constructor |].
  destruct (f a); now constructor.
Qed.

Lemma quality_filter_unfold T :
  quality_filter T
  = let* kept := filterR (keeps T) (rows T) in
    Ok {| columns := columns T; rows := kept |}.
Proof.
  unfold quality_filter, keeps. destruct (filter_conditions T) as [| c cs] eqn:E.
  - rewrite filterR_all_pass by (apply Forall_forall; reflexivity).
    simpl. now destruct T.
  - reflexivity.
Qed.

Lemma quality_filter_Ok T T' :
  quality_filter T = Ok T' ->
  columns T' = columns T /\ rows T' = List.filter (passes (keeps T)) (rows T).
Proof.
  rewrite quality_filter_unfold. intros H.
  destruct (filterR (keeps T) (rows T)) as [kept |] eqn:E; [| discriminate].
  simpl in H. injection H as <-. simpl. split; [reflexivity |].
  now apply filterR_Ok.
Qed.

(** The active conditions depend on the header only. *)
Lemma filter_conditions_header T T' :
  columns T' = columns T -> filter_conditions T' = filter_conditions T.
Proof.
  intros H. unfold filter_conditions, when_col, has_col. now rewrite H.
Qed.

(** C6. The quality filter only removes rows: its output has the header
    of its input, its rows are a sub-sequence of the input rows (no cell is
    changed or made up), so there are no more of them, and filtering the
    output again returns it unchanged. *)
Theorem quality_filter_subset_idempotent (T T' : table) :
  quality_filter T = Ok T' ->
  columns T' = columns T
  /\ sublist (rows T') (rows T)
  /\ (List.length (rows T') <= List.length (rows T))%nat
  /\ quality_filter T' = Ok T'.
Proof.
  intros H. destruct (quality_filter_Ok T T' H) as [Hc Hr].
  assert (Hsub : sublist (rows T') (rows T)) by (rewrite Hr; apply filter_sublist).
  split; [exact Hc |]. split; [exact Hsub |].
  split; [now apply sublist_length |].
  rewrite quality_filter_unfold.
  assert (Hk : forall r, keeps T' r = keeps T r).
  { intros r. unfold keeps. now rewrite (filter_conditions_header T T' Hc), Hc. }
  rewrite filterR_all_pass.
  - simpl. now destruct T'.
  - rewrite Hr. apply Forall_forall. intros r Hin.
    apply filter_In in Hin as [_ Hp]. rewrite Hk. now apply passes_Ok.
Qed.

Lemma all_conditions_true conds get :
  all_conditions conds get = Ok true -> Forall (fun c : condition => c get = Ok true) conds.
Proof.
  unfold all_conditions. intros H.
  destruct (mapR (fun c : condition => c get) conds) as [bs |] eqn:E; [| discriminate].
  simpl in H. injection H as H. apply mapR_Ok in E.
  induction E as [| c b cs bs' Hc _ IH]; [constructor |].
  simpl in H. apply andb_prop in H as [-> H]. constructor; auto.
Qed.




Lemma kept_row_passes T T' r (c : condition) :
  quality_filter T = Ok T' ->
  In c (filter_conditions T) ->
  In r (rows T') ->
  c (cell_at (columns T') r) = Ok true.
Proof.
  intros H Hc Hr. destruct (quality_filter_Ok T T' H) as [Hcols Hrows].
  rewrite Hrows in Hr. apply filter_In in Hr as [_ Hp]. apply passes_Ok in Hp.
  unfold keeps in Hp. apply all_conditions_true in Hp.
  rewrite Forall_forall in Hp. rewrite Hcols. now apply Hp.
Qed.

Lemma when_col_In col T (c : condition) :
  has_col col T = true -> In c (when_col col T c).
Proof. intros H. unfold when_col. rewrite H. now left. Qed.

Lemma between_true col lo hi get :
  between col lo hi get = Ok true ->
  exists q, get col = Num (Fin q) /\ lo <= q /\ q <= hi.
Proof.
  unfold between. destruct (get col) as [x |]; [| discriminate].
  intros H. injection H as H. apply andb_prop in H as [H1 H2].
  destruct x as [| | | q]; try discriminate. simpl in H1, H2.
  apply Qle_bool_iff in H1, H2. eauto.
Qed.

(** C7. When the column 效率值 exists, every row the quality filter keeps
    has a percentage between 20 and 150, ends included, and the ratio the
    advanced analysis takes from it (the percentage over 100) lies in
    [0.2, 1.5]. *)
Theorem kept_efficiency_in_range (T T' : table) :
  has_col "效率值" T = true ->
  quality_filter T = Ok T' ->
  Forall (fun r => exists q,
              cell_at (columns T') r "效率值" = Num (Fin q)
              /\ 20 <= q /\ q <= 150) (rows T')
  /\ Forall (fun r => exists q,
                 efficiency_of (efficiency_ratio T') r = Fin q
                 /\ 2 # 10 <= q /\ q <= 15 # 10) (rows (efficiency_ratio T')).
Proof.
  intros Hcol H.
  assert (Hpct : Forall (fun r => exists q,
                             cell_at (columns T') r "效率值" = Num (Fin q)
                             /\ 20 <= q /\ q <= 150) (rows T')).
  { apply Forall_forall. intros r Hr. apply between_true.
    apply (kept_row_passes T T' r _ H); [| exact Hr].
    unfold filter_conditions. rewrite !in_app_iff.
    do 5 right. left. now apply when_col_In. }
  split; [exact Hpct |].
  destruct (quality_filter_Ok T T' H) as [Hcols _].
  assert (Hcol' : has_col "效率值" T' = true)
    by (unfold has_col in *; now rewrite Hcols).
  unfold efficiency_ratio. rewrite Hcol'.
  unfold assign, efficiency_of. cbn [rows columns].
  apply Forall_map. eapply Forall_impl; [| exact Hpct].
  intros r (q & Hq & Hlo & Hhi). rewrite cell_at_set_same, Hq.
  exists (q / 100). split; [reflexivity |].
  split.
  - apply Qle_shift_div_l; [reflexivity |]. eapply Qle_trans; [| exact Hlo]. discriminate.
  - apply Qle_shift_div_r; [reflexivity |]. eapply Qle_trans; [exact Hhi |]. discriminate.
Qed.

Example quality_filter_sample : quality_filter sample_selected = Ok sample_kept.
Proof. reflexivity. Qed.

Lemma quality_filter_subset_idempotent_witness :
  columns sample_kept = columns sample_selected
  /\ sublist (rows sample_kept) (rows sample_selected)
  /\ (List.length (rows sample_kept) <= List.length (rows sample_selected))%nat
  /\ quality_filter sample_kept = Ok sample_kept.
Proof.
  apply (quality_filter_subset_idempotent sample_selected sample_kept).
  reflexivity.
Defined.

Lemma kept_efficiency_in_range_witness :
  Forall (fun r => exists q,
              cell_at (columns sample_kept) r "效率值" = Num (Fin q)
              /\ 20 <= q /\ q <= 150) (rows sample_kept)
  /\ Forall (fun r => exists q,
                 efficiency_of (efficiency_ratio sample_kept) r = Fin q
                 /\ 2 # 10 <= q /\ q <= 15 # 10) (rows (efficiency_ratio sample_kept)).
Proof.
  apply (kept_efficiency_in_range sample_selected sample_kept); reflexivity.
Defined.

(** ** The column check of the advanced analysis *)

Lemma base_of_run (st : gmap string table) merged_df filtered_df :
  base_of (<["filtered_df" := filtered_df]> (<["merged_df" := merged_df]> st))
          filtered_df = filtered_df.
Proof. unfold base_of. now rewrite lookup_insert_eq. Qed.

Lemma run_analysis_Ok st merged_df r :
  run_analysis st merged_df = Ok r ->
  derive merged_df = Ok (merged_out r)
  /\ filtered_of (merged_out r) = Ok (filtered_out r)
  /\ advanced_out r = advanced_analysis (filtered_out r)
  /\ rows (merged_out r) <> [].
Proof.
  unfold run_analysis. intros H.
  destruct (derive merged_df) as [d |]; [| discriminate]. cbn [result_bind] in H.
  destruct (filtered_of d) as [f |] eqn:Ef; [| discriminate]. cbn [result_bind] in H.
  destruct (rows d) as [| r0 rs] eqn:Er; [discriminate |].
  cbn [List.length Nat.eqb] in H. injection H as <-. cbn [merged_out filtered_out advanced_out].
  rewrite base_of_run, Er. repeat split; auto.
Qed.

(** C3, as the code has it. When the table handed to the advanced analysis
    lacks 工站 or 姓名, or has neither 效率值 nor 效率, the run raises nothing:
    the analysis is skipped with the one fixed notice of the [else] branch,
    whichever column is missing, and the completed merged table is still
    returned. *)
Theorem missing_columns_skip_analysis (st : gmap string table) (merged_df : table) (r : run) :
  run_analysis st merged_df = Ok r ->
  enough_columns (filtered_out r) = false ->
  advanced_out r = Skipped skip_notice
  /\ derive merged_df = Ok (merged_out r).
Proof.
  intros H Hcols. apply run_analysis_Ok in H as (Hd & _ & Ha & _).
  split; [| exact Hd]. rewrite Ha. unfold advanced_analysis. now rewrite Hcols.
Qed.

(** C3, refuted as stated: without the column 工站 the run returns normally
    and the analysis is skipped silently with a notice; nothing is raised. *)
Lemma missing_station_is_skipped :
  exists r, run_analysis ∅ no_station = Ok r
            /\ advanced_out r = Skipped skip_notice.
Proof. eexists. split; [vm_compute; reflexivity | reflexivity]. Qed.

Lemma missing_columns_skip_analysis_witness :
  advanced_out no_station_run = Skipped skip_notice
  /\ derive no_station = Ok (merged_out no_station_run).
Proof.
  apply (missing_columns_skip_analysis ∅ no_station no_station_run);
    vm_compute; reflexivity.
Defined.

(** ** Order of the ratios *)

Lemma Qltb_false a b : Float.Qltb a b = false -> b <= a.
Proof.
  unfold Float.Qltb. intros H. apply negb_false_iff in H. now apply Qle_bool_iff.
Qed.

Lemma Qltb_true a b : Float.Qltb a b = true -> a < b.
Proof.
  unfold Float.Qltb. intros H. apply negb_true_iff in H.
  apply Qnot_le_lt. intros Hle. apply Qle_bool_iff in Hle. congruence.
Qed.

Lemma leb_trans x y z :
  Float.leb x y = true -> Float.leb y z = true -> Float.leb x z = true.
Proof.
  destruct x as [| | | a], y as [| | | b], z as [| | | c]; simpl;
    try discriminate; try reflexivity.
  intros H1 H2. apply Qle_bool_iff in H1, H2. apply Qle_bool_iff.
  now apply Qle_trans with b.
Qed.

Lemma ltb_leb x y : Float.ltb x y = true -> Float.leb x y = true.
Proof.
  destruct x as [| | | a], y as [| | | b]; simpl; try discriminate; try reflexivity.
  intros H. apply Qltb_true in H. apply Qle_bool_iff. now apply Qlt_le_weak.
Qed.

Lemma not_ltb_leb x y :
  Float.isnan x = false -> Float.isnan y = false ->
  Float.ltb x y = false -> Float.leb y x = true.
Proof.
  destruct x as [| | | a], y as [| | | b]; simpl; try discriminate; try reflexivity.
  intros _ _ H. apply Qltb_false in H. now apply Qle_bool_iff.
Qed.

(** ** The stable outcome of the sort *)

Section Sorting.
Variable key : row -> num.

Lemma insert_desc_perm r l : Permutation (insert_desc key r l) (r :: l).
Proof.
  induction l as [| r' l IH]; simpl; [reflexivity |].
  destruct (Float.ltb (key r') (key r)); [reflexivity |].
  rewrite IH. apply perm_swap.
Qed.

Lemma insert_desc_sorted r l :
  Float.isnan (key r) = false -> Forall (fun a => Float.isnan (key a) = false) l ->
  descending key l -> descending key (insert_desc key r l).
Proof.
  intros Hr Hl Hs. induction Hs as [| r' l Hs IH Hall]; simpl.
  - repeat constructor.
  - apply Forall_cons_iff in Hl as [Hr' Hl].
    destruct (Float.ltb (key r') (key r)) eqn:E.
    + constructor; [now constructor |]. constructor; [now apply ltb_leb |].
      eapply Forall_impl; [| exact Hall]. intros a Ha. cbv beta in *.
      eapply leb_trans; [exact Ha |]. now apply ltb_leb.
    + constructor; [now apply IH |].
      rewrite (insert_desc_perm r l). constructor; [| exact Hall].
      now apply not_ltb_leb.
Qed.

Lemma fold_insert_perm l :
  Permutation (fold_right (insert_desc key) [] l) l.
Proof.
  induction l as [| r l IH]; simpl; [reflexivity |].
  rewrite insert_desc_perm. now constructor.
Qed.

Lemma fold_insert_sorted l :
  Forall (fun a => Float.isnan (key a) = false) l ->
  descending key (fold_right (insert_desc key) [] l).
Proof.
  induction 1 as [| r l Hr Hl IH]; simpl; [constructor |].
  apply insert_desc_sorted; [exact Hr | | exact IH].
  now rewrite fold_insert_perm.
Qed.

(** The stable insertion sort is one admissible outcome of the sort. *)
Lemma sort_values_stable_spec l :
  sort_values_desc key l (sort_values_stable key l).
Proof.
  unfold sort_values_desc, sort_values_stable.
  exists (fold_right (insert_desc key) []
            (List.filter (fun r => negb (Float.isnan (key r))) l)).
  split; [apply fold_insert_perm |]. split; [| reflexivity].
  apply fold_insert_sorted. apply Forall_forall. intros r Hr.
  apply filter_In in Hr as [_ Hr]. now apply negb_true_iff.
Qed.

Lemma filter_split_perm l :
  Permutation (List.filter (fun r => negb (Float.isnan (key r))) l
               ++ List.filter (fun r => Float.isnan (key r)) l) l.
Proof.
  induction l as [| r l IH]; simpl; [reflexivity |].
  destruct (Float.isnan (key r)); simpl.
  - rewrite <- Permutation_middle. now constructor.
  - now constructor.
Qed.

Lemma sort_values_desc_perm l out :
  sort_values_desc key l out -> Permutation out l.
Proof.
  intros (s & Hp & _ & ->). rewrite Hp. apply filter_split_perm.
Qed.

Lemma sort_values_desc_ordered l out i j ri rj :
  sort_values_desc key l out ->
  (i < j)%nat -> out !! i = Some ri -> out !! j = Some rj ->
  ordered_pair key ri rj.
Proof.
  intros (s & Hp & Hs & ->) Hij Hi Hj. unfold ordered_pair.
  destruct (Float.isnan (key rj)) eqn:En; [now left | right].
  assert (Hnan : Forall (fun r => Float.isnan (key r) = true)
                        (List.filter (fun r => Float.isnan (key r)) l)).
  { apply Forall_forall. intros r Hr. now apply filter_In in Hr. }
  assert (Hjs : s !! j = Some rj).
  { apply lookup_app_Some in Hj as [Hj | [_ Hj]]; [exact Hj |].
    apply list_elem_of_lookup_2, list_elem_of_In in Hj.
    rewrite Forall_forall in Hnan. apply Hnan in Hj. congruence. }
  assert (His : s !! i = Some ri).
  { rewrite lookup_app_l in Hi; [exact Hi |].
    apply lookup_lt_Some in Hjs. lia. }
  assert (Hkeys : Forall (fun r => Float.isnan (key r) = false) s).
  { apply Forall_forall. intros r Hr.
    apply (Permutation_in _ Hp) in Hr. apply filter_In in Hr as [_ Hr].
    now apply negb_true_iff. }
  split.
  - rewrite Forall_forall in Hkeys. apply Hkeys.
    now apply list_elem_of_In, list_elem_of_lookup_2 with i.
  - clear Hp Hi Hj Hkeys Hnan. revert i j Hij His Hjs.
    induction Hs as [| a s Hs IH Hall]; intros i j Hij His Hjs; [discriminate |].
    destruct j as [| j]; [lia |]. destruct i as [| i]; simpl in *.
    + injection His as <-. rewrite Forall_forall in Hall. apply Hall.
      now apply list_elem_of_In, list_elem_of_lookup_2 with j.
    + apply (IH i j); [lia | assumption | assumption].
Qed.
End Sorting.

(** ** Top performers *)

(** C4, as the code has it. Every outcome of the selection has the header
    of the table and exactly [min 10 |T|] rows; with the rows left out they
    make up the table, and no row left out has a larger ratio than a
    selected one; a later row has no ratio or a ratio that is not larger
    than the ratio of an earlier row, so the rows are in non-increasing
    order with the rows lacking a ratio last.  Nothing is claimed on the
    order of equal ratios. *)
Theorem top_performers_sorted_prefix (T out : table) :
  top_performers T out ->
  columns out = columns T
  /\ List.length (rows out) = Nat.min 10 (List.length (rows T))
  /\ (exists rest,
        Permutation (rows out ++ rest) (rows T)
        /\ forall ri rj, In ri (rows out) -> In rj rest ->
                         ordered_pair (efficiency_of T) ri rj)
  /\ (forall i j ri rj,
         (i < j)%nat -> rows out !! i = Some ri -> rows out !! j = Some rj ->
         ordered_pair (efficiency_of T) ri rj).
Proof.
  intros (sorted & Hsort & ->). cbn [columns rows].
  pose proof (sort_values_desc_perm _ _ _ Hsort) as Hperm.
  split; [reflexivity |]. split; [| split].
  - rewrite length_take. now rewrite (Permutation_length Hperm).
  - exists (skipn 10 sorted). split; [now rewrite firstn_skipn |].
    intros ri rj Hi Hj.
    apply list_elem_of_In, list_elem_of_lookup in Hi as [i Hi].
    apply list_elem_of_In, list_elem_of_lookup in Hj as [j Hj].
    apply lookup_take_Some in Hi as [Hi Hlt]. rewrite lookup_drop in Hj.
    apply (sort_values_desc_ordered _ _ _ i (10 + j) ri rj Hsort); [lia | | ]; assumption.
  - intros i j ri rj Hij Hi Hj.
    apply (sort_values_desc_ordered _ _ _ i j ri rj Hsort Hij).
    + apply lookup_take_Some in Hi. tauto.
    + apply lookup_take_Some in Hj. tauto.
Qed.

(** The selection always has an outcome, the stable one among them. *)
Lemma top_performers_exists (T : table) : top_performers T (top_stable T).
Proof.
  exists (sort_values_stable (efficiency_of T) (rows T)).
  split; [apply sort_values_stable_spec | reflexivity].
Qed.

Example top_of_spec_example :
  column "姓名" (top_stable spec_example) = [Str "p3"; Str "p2"; Str "p1"].
Proof. reflexivity. Qed.

Lemma top_performers_sorted_prefix_witness :
  let T := spec_example in
  let out := top_stable spec_example in
  columns out = columns T
  /\ List.length (rows out) = Nat.min 10 (List.length (rows T))
  /\ (exists rest,
        Permutation (rows out ++ rest) (rows T)
        /\ forall ri rj, In ri (rows out) -> In rj rest ->
                         ordered_pair (efficiency_of T) ri rj)
  /\ (forall i j ri rj,
         (i < j)%nat -> rows out !! i = Some ri -> rows out !! j = Some rj ->
         ordered_pair (efficiency_of T) ri rj).
Proof.
  apply (top_performers_sorted_prefix spec_example (top_stable spec_example)).
  exists (rev (rows spec_example)). split; [| reflexivity].
  exists (rev (rows spec_example)). split; [| split].
  - symmetry. apply Permutation_rev.
  - vm_compute. repeat constructor.
  - reflexivity.
Defined.

Lemma tied_reversed_admissible : top_performers tied_table tied_reversed.
Proof.
  exists (rev (rows tied_table)). split; [| reflexivity].
  exists (rev (rows tied_table)). split; [| split].
  - change (List.filter _ (rows tied_table)) with (rows tied_table).
    symmetry. apply Permutation_rev.
  - cbv [tied_table rows List.map rev app operator].
    repeat (constructor; [| repeat (constructor; [reflexivity |]); constructor]).
    constructor.
  - change (List.filter _ (rows tied_table)) with (@nil row).
    now rewrite app_nil_r.
Qed.

(** C4, refuted as stated: with eighteen operators at the same ratio, the
    ten of them in the reverse of their original order is an outcome of the
    default sort, and it does not keep the original order of equal
    ratios. *)
Lemma ties_need_not_keep_order :
  top_performers tied_table tied_reversed
  /\ ~ keeps_tie_order tied_table tied_reversed.
Proof.
  split; [apply tied_reversed_admissible |].
  intros H. specialize (H (Fin (90 # 100))).
  apply prefix_cons_inv_1 in H. discriminate.
Qed.

(** ** Group keys *)

Lemma float_eqb_sym x y : Float.eqb x y = Float.eqb y x.
Proof.
  destruct x as [| | | a], y as [| | | b]; simpl; try reflexivity.
  destruct (Qeq_bool a b) eqn:E, (Qeq_bool b a) eqn:E'; try reflexivity.
  - apply Qeq_bool_iff in E. symmetry in E. apply Qeq_bool_iff in E. congruence.
  - apply Qeq_bool_iff in E'. symmetry in E'. apply Qeq_bool_iff in E'. congruence.
Qed.

Lemma float_eqb_trans x y z :
  Float.eqb x y = true -> Float.eqb y z = true -> Float.eqb x z = true.
Proof.
  destruct x as [| | | a], y as [| | | b], z as [| | | c]; simpl;
    try discriminate; try reflexivity.
  intros H1 H2. apply Qeq_bool_iff in H1, H2. apply Qeq_bool_iff.
  now rewrite H1.
Qed.

Lemma cell_eqb_sym a b : cell_eqb a b = cell_eqb b a.
Proof.
  destruct a, b; simpl; try reflexivity.
  - apply float_eqb_sym.
  - apply String.eqb_sym.
Qed.

Lemma cell_eqb_trans a b c :
  cell_eqb a b = true -> cell_eqb b c = true -> cell_eqb a c = true.
Proof.
  destruct a, b, c; simpl; try discriminate.
  - apply float_eqb_trans.
  - intros H1 H2. apply String.eqb_eq in H1, H2. subst. apply String.eqb_refl.
Qed.

Lemma cell_eqb_refl a : isna a = false -> cell_eqb a a = true.
Proof.
  destruct a as [[| | | q] | s]; simpl; try discriminate; try reflexivity.
  - intros _. now apply Qeq_bool_iff.
  - intros _. apply String.eqb_refl.
Qed.

(** Keys equal to [s] select the same rows as [s]. *)
Lemma cell_eqb_right a k s :
  cell_eqb k s = true -> cell_eqb a k = cell_eqb a s.
Proof.
  intros H. destruct (cell_eqb a k) eqn:E1, (cell_eqb a s) eqn:E2; try reflexivity.
  - rewrite (cell_eqb_trans a k s E1 H) in E2. discriminate.
  - rewrite cell_eqb_sym in H. rewrite (cell_eqb_trans a s k E2 H) in E1. discriminate.
Qed.

Lemma filter_none {A} (f : A -> bool) l :
  (forall a, In a l -> f a = false) -> List.filter f l = [].
Proof.
  induction l as [| a l IH]; simpl; intros H; [reflexivity |].
  rewrite (H a) by now left. apply IH. intros b Hb. apply H. now right.
Qed.

Lemma filter_filter_same {A} (f g : A -> bool) l :
  (forall a, f a = true -> g a = true) ->
  List.filter f (List.filter g l) = List.filter f l.
Proof.
  intros H. induction l as [| a l IH]; simpl; [reflexivity |].
  destruct (g a) eqn:Eg; simpl.
  - now rewrite IH.
  - destruct (f a) eqn:Ef; [| exact IH]. rewrite (H a Ef) in Eg. discriminate.
Qed.

(** Among the distinct keys exactly one is equal to a key of the list. *)
Lemma distinct_one s l :
  (exists a, In a l /\ cell_eqb a s = true) ->
  exists k, cell_eqb k s = true
            /\ List.filter (fun k => cell_eqb k s) (distinct l) = [k].
Proof.
  induction l as [| a l IH]; intros (b & Hb & Hbs); [destruct Hb |].
  simpl. destruct (cell_eqb a s) eqn:Ea.
  - exists a. split; [exact Ea |]. f_equal. apply filter_none.
    intros k Hk. apply filter_In in Hk as [_ Hk]. apply negb_true_iff in Hk.
    destruct (cell_eqb k s) eqn:Ek; [| reflexivity].
    rewrite cell_eqb_sym in Ek. rewrite (cell_eqb_trans a s k Ea Ek) in Hk. discriminate.
  - destruct Hb as [-> | Hb]; [congruence |].
    destruct (IH (ex_intro _ b (conj Hb Hbs))) as (k & Hk & Hf).
    exists k. split; [exact Hk |]. rewrite filter_filter_same; [exact Hf |].
    intros c Hc. apply negb_true_iff.
    destruct (cell_eqb a c) eqn:Eac; [| reflexivity].
    rewrite (cell_eqb_trans a c s Eac Hc) in Ea. discriminate.
Qed.

Lemma insert_sorted_perm k l : Permutation (insert_sorted k l) (k :: l).
Proof.
  induction l as [| k' l IH]; simpl; [reflexivity |].
  destruct (cell_leb k k'); [reflexivity |]. rewrite IH. apply perm_swap.
Qed.

Lemma sort_keys_perm l : Permutation (sort_keys l) l.
Proof.
  induction l as [| k l IH]; simpl; [reflexivity |].
  rewrite insert_sorted_perm. now constructor.
Qed.

Lemma filter_perm {A} (f : A -> bool) l l' :
  Permutation l l' -> Permutation (List.filter f l) (List.filter f l').
Proof.
  induction 1; simpl; try reflexivity.
  - destruct (f x); [now constructor | assumption].
  - destruct (f x), (f y); try reflexivity. apply perm_swap.
  - etransitivity; eassumption.
Qed.

(** Exactly one group key is equal to a station of the table. *)
Lemma group_keys_one df s :
  (exists r, In r (rows df) /\ cell_eqb (station_of df r) s = true) ->
  exists k, cell_eqb k s = true
            /\ List.filter (fun k => cell_eqb k s) (group_keys df) = [k].
Proof.
  intros (r & Hr & Hs). unfold group_keys.
  destruct (distinct_one s (List.filter (fun k => negb (isna k)) (column "工站" df)))
    as (k & Hk & Hf).
  - exists (station_of df r). split; [| exact Hs]. apply filter_In. split.
    + unfold column. apply in_map_iff. eauto.
    + destruct (station_of df r) as [[| | | q] |]; simpl in *; try reflexivity.
      destruct s as [[| | | q'] |]; discriminate.
  - exists k. split; [exact Hk |].
    apply Permutation_singleton_r. rewrite <- Hf.
    apply filter_perm. apply sort_keys_perm.
Qed.

Lemma group_rows_eqb df k s :
  cell_eqb k s = true -> group_rows df k = group_rows df s.
Proof.
  intros H. unfold group_rows. apply filter_ext. intros r.
  now apply cell_eqb_right.
Qed.

Lemma filter_map_comm {A B} (f : B -> bool) (g : A -> B) l :
  List.filter f (List.map g l) = List.map g (List.filter (fun a => f (g a)) l).
Proof.
  induction l as [| a l IH]; simpl; [reflexivity |].
  destruct (f (g a)); simpl; now rewrite IH.
Qed.

(** The rows of the metrics table for one station. *)
Lemma metrics_of_station df s :
  (exists r, In r (rows df) /\ cell_eqb (station_of df r) s = true) ->
  exists k, cell_eqb k s = true
            /\ List.filter (fun m => cell_eqb (nth 0 m NA) s) (rows (station_metrics df))
               = [[k; Num (Float.mul (group_mean df s) (Fin 100));
                      Num (Float.of_nat (group_count df s))]].
Proof.
  intros H. destruct (group_keys_one df s H) as (k & Hk & Hf).
  exists k. split; [exact Hk |]. unfold station_metrics. cbn [rows].
  rewrite filter_map_comm. cbn [nth]. rewrite Hf. cbn [List.map].
  unfold group_mean, group_count. now rewrite (group_rows_eqb df k s Hk).
Qed.

(** ** Denominators of the station aggregates *)

Lemma filter_length_le {A} (f : A -> bool) l :
  (List.length (List.filter f l) <= List.length l)%nat.
Proof. induction l as [| a l IH]; simpl; [lia |]. destruct (f a); simpl; lia. Qed.

Lemma filter_length_lt {A} (f : A -> bool) l a :
  In a l -> f a = false -> (List.length (List.filter f l) < List.length l)%nat.
Proof.
  induction l as [| b l IH]; simpl; intros Hin Hf; [destruct Hin |].
  destruct Hin as [-> | Hin].
  - rewrite Hf. pose proof (filter_length_le f l). lia.
  - specialize (IH Hin Hf). destruct (f b); simpl; lia.
Qed.

Lemma mean_unfold xs :
  Float.mean xs
  = if (List.length (Float.notna xs) =? 0)%nat then NaN
    else Float.div (Float.sum (Float.notna xs))
                   (Float.of_nat (List.length (Float.notna xs))).
Proof. unfold Float.mean. destruct (Float.notna xs); reflexivity. Qed.

(** ** Stages of the pipeline, row by row *)

Lemma Forall2_map_graph {A B} (f : A -> B) (R : A -> B -> Prop) l :
  (forall a, R a (f a)) -> Forall2 R l (List.map f l).
Proof. intros H. induction l; simpl; constructor; auto. Qed.

Lemma stage_trans (P Q R : (string -> cell) -> (string -> cell) -> Prop) T1 T2 T3 :
  stage P T1 T2 -> stage Q T2 T3 ->
  (forall g1 g2 g3, P g1 g2 -> Q g2 g3 -> R g1 g3) ->
  stage R T1 T3.
Proof.
  unfold stage. intros H12 H23 HR. revert H23. generalize (rows T3).
  induction H12 as [| r1 r2 l1 l2 H _ IH]; intros l3 H23; inversion H23; subst;
    constructor; eauto.
Qed.

Lemma stage_impl (P Q : (string -> cell) -> (string -> cell) -> Prop) T T' :
  stage P T T' -> (forall g g', P g g' -> Q g g') -> stage Q T T'.
Proof. unfold stage. intros H HPQ. eapply Forall2_impl; [| exact H]. auto. Qed.

Lemma stage_Forall (P Q : (string -> cell) -> Prop)
      (R : (string -> cell) -> (string -> cell) -> Prop) T T' :
  Forall (fun r => P (view T r)) (rows T) -> stage R T T' ->
  (forall g g', P g -> R g g' -> Q g') ->
  Forall (fun r' => Q (view T' r')) (rows T').
Proof.
  unfold stage. intros HP HR HQ.
  induction HR as [| r r' l l' H _ IH]; [constructor |].
  apply Forall_cons_iff in HP as [Hr Hl]. constructor; eauto.
Qed.

Lemma stage_same (P : (string -> cell) -> (string -> cell) -> Prop) T :
  (forall g, P g g) -> stage P T T.
Proof.
  intros H. unfold stage. induction (rows T); constructor; auto.
Qed.

Lemma stage_assign c f T : stage (assigned c f) T (assign c f T).
Proof.
  unfold stage, assign, view. cbn [rows columns].
  apply Forall2_map_graph. intros r. split.
  - apply cell_at_set_same.
  - intros c' Hne. now apply cell_at_set_other.
Qed.

Lemma stage_assign_if c f T :
  stage (fun g g' => forall c', c' <> c -> g' c' = g c') T (assign_if c f T).
Proof.
  unfold assign_if. destruct (has_col c T).
  - eapply stage_impl; [apply stage_assign |]. now intros g g' [_ H].
  - now apply stage_same.
Qed.

Lemma has_col_assign c f T c' :
  has_col c' (assign c f T) = has_col c' T || String.eqb c' c.
Proof.
  apply eq_true_iff_eq. rewrite orb_true_iff, !has_col_In.
  cbn [assign columns]. rewrite In_set_header. now rewrite String.eqb_eq.
Qed.

Lemma has_col_assign_other c f T c' :
  c' <> c -> has_col c' (assign c f T) = has_col c' T.
Proof.
  intros H. rewrite has_col_assign. apply String.eqb_neq in H. rewrite H.
  apply orb_false_r.
Qed.

Lemma columns_assign_existing c f T :
  has_col c T = true -> columns (assign c f T) = columns T.
Proof.
  unfold has_col, assign, set_header. cbn [columns].
  destruct (col_index c (columns T)); [reflexivity | discriminate].
Qed.

Lemma columns_assign_if c f T : columns (assign_if c f T) = columns T.
Proof.
  unfold assign_if. destruct (has_col c T) eqn:E; [| reflexivity].
  now apply columns_assign_existing.
Qed.

Ltac neq_label := let H := fresh in intros H; discriminate H.

(** A later assignment to another column keeps what a stage has
    established on the columns [cs]. *)
Lemma stage_then_assign (P : (string -> cell) -> (string -> cell) -> Prop)
      (cs : list string) c f T T' :
  stage P T T' ->
  ~ In c cs ->
  (forall g g1 g2, P g g1 -> (forall c', In c' cs -> g2 c' = g1 c') -> P g g2) ->
  stage P T (assign c f T').
Proof.
  intros H Hc HP. eapply stage_trans; [exact H | apply stage_assign |].
  intros g1 g2 g3 H12 [_ Ho]. apply (HP g1 g2 g3 H12).
  intros c' Hc'. apply Ho. intros ->. contradiction.
Qed.

(** The table of the advanced analysis, row by row from its input. *)
Lemma stage_analysis F :
  has_col "效率值" F = true ->
  stage (fun g g' =>
           g' "工站" = g "工站" /\ g' "姓名" = g "姓名"
           /\ g' "效率" = Num (Float.div (to_numeric (g "效率值")) (Fin 100)))
        F (if has_ct_cols F then ct_columns (efficiency_ratio F)
           else efficiency_ratio F).
Proof.
  intros Hv.
  set (P := fun g g' : string -> cell =>
           g' "工站" = g "工站" /\ g' "姓名" = g "姓名"
           /\ g' "效率" = Num (Float.div (to_numeric (g "效率值")) (Fin 100))).
  assert (H1 : stage P F (efficiency_ratio F)).
  { unfold efficiency_ratio. rewrite Hv.
    eapply stage_impl; [apply stage_assign |].
    intros g g' [He Ho]. unfold P. rewrite !Ho by neq_label. auto. }
  destruct (has_ct_cols F); [| exact H1].
  unfold ct_columns.
  repeat (apply (stage_then_assign P ["工站"; "姓名"; "效率"]);
          [| simpl; intuition discriminate
           | intros g g1 g2 (Hs & Hn & He) Hk; unfold P;
             rewrite !Hk by (simpl; tauto); auto]).
  exact H1.
Qed.

(** ** Station metrics of a complete table *)

Lemma filter_all {A} (f : A -> bool) l :
  Forall (fun a => f a = true) l -> List.filter f l = l.
Proof.
  induction 1 as [| a l Ha _ IH]; simpl; [reflexivity |]. now rewrite Ha, IH.
Qed.

Lemma mean_no_missing xs :
  Forall (fun x => Float.isnan x = false) xs -> Float.mean xs = arithmetic_mean xs.
Proof.
  intros H. unfold Float.mean, arithmetic_mean, Float.notna.
  rewrite filter_all by (eapply Forall_impl; [| exact H]; intros x ->; reflexivity).
  destruct xs; reflexivity.
Qed.

Lemma complete_group df s :
  complete df ->
  group_mean df s = arithmetic_mean (List.map (efficiency_of df) (group_rows df s))
  /\ group_count df s = List.length (group_rows df s).
Proof.
  intros H. unfold complete in H. rewrite Forall_forall in H.
  unfold group_mean, group_count. split.
  - apply mean_no_missing. apply Forall_forall. intros x Hx.
    apply in_map_iff in Hx as (r & <- & Hr). apply filter_In in Hr as [Hr _].
    now apply H.
  - f_equal. apply filter_all. apply Forall_forall. intros r Hr.
    apply filter_In in Hr as [Hr _]. apply H in Hr as (_ & -> & _). reflexivity.
Qed.

(** On a complete table, the metrics table has exactly one row for the
    station of a record: the mean of the ratios of all the records of the
    station, times 100, and their number. *)
Lemma station_metrics_complete df record :
  complete df ->
  In record (rows df) ->
  let s := station_of df record in
  let group := group_rows df s in
  exists k,
    cell_eqb k s = true
    /\ List.filter (fun m => cell_eqb (nth 0 m NA) s) (rows (station_metrics df))
       = [[k;
           Num (Float.mul (arithmetic_mean (List.map (efficiency_of df) group)) (Fin 100));
           Num (Float.of_nat (List.length group))]].
Proof.
  intros Hc Hr s group.
  destruct (metrics_of_station df s) as (k & Hk & Hm).
  - exists record. split; [exact Hr |]. apply cell_eqb_refl.
    unfold complete in Hc. rewrite Forall_forall in Hc. now apply Hc.
  - exists k. split; [exact Hk |]. rewrite Hm.
    now destruct (complete_group df s Hc) as [-> ->].
Qed.

(** ** What reaches the advanced analysis *)

Lemma convert_columns S0 S :
  convert S0 = Ok S ->
  columns S = if has_col "效率" S0 then set_header (columns S0) "效率值" else columns S0.
Proof.
  unfold convert. intros H.
  set (d2 := assign_if "實際CT" _ (assign_if "實際產出" _ S0)) in H.
  assert (Hd2 : columns d2 = columns S0).
  { unfold d2. now rewrite !columns_assign_if. }
  destruct (efficiency_value d2) as [d3 |] eqn:E; [| discriminate].
  cbn [result_bind] in H. injection H as <-.
  cbn [fold_left]. rewrite !columns_assign_if.
  unfold efficiency_value in E.
  assert (Hh : has_col "效率" d2 = has_col "效率" S0) by (unfold has_col; now rewrite Hd2).
  rewrite Hh in E. destruct (has_col "效率" S0).
  - destruct (_ || _); [| discriminate]. injection E as <-.
    cbn [assign columns]. now rewrite Hd2.
  - injection E as <-. exact Hd2.
Qed.

Lemma available_In c D :
  In c (available_columns D) <-> In c important_columns /\ has_col c D = true.
Proof. unfold available_columns. apply filter_In. Qed.

Lemma filtered_of_selected D F :
  filtered_of D = Ok F ->
  has_col "工站" F = true ->
  exists S, convert (select (available_columns D) D) = Ok S
            /\ quality_filter S = Ok F.
Proof.
  unfold filtered_of. intros H Hst.
  destruct (available_columns D) as [| c cs] eqn:E.
  - injection H as <-.
    assert (Hin : In "工站" (available_columns D)).
    { apply available_In. split; [simpl; tauto | exact Hst]. }
    rewrite E in Hin. destruct Hin.
  - destruct (convert (select (c :: cs) D)) as [S |]; [| discriminate].
    cbn [result_bind] in H. eauto.
Qed.

Lemma has_col_eq T T' c : columns T' = columns T -> has_col c T' = has_col c T.
Proof. intros H. unfold has_col. now rewrite H. Qed.

(** With the columns the advanced analysis asks for, the percentage is a
    column too. *)
Lemma percentage_column D S :
  convert (select (available_columns D) D) = Ok S ->
  has_eff_cols S = true ->
  has_col "效率值" S = true.
Proof.
  intros Hc He. unfold has_eff_cols in He.
  destruct (has_col "效率值" S) eqn:Ev; [reflexivity |]. simpl in He.
  apply convert_columns in Hc.
  destruct (has_col "效率" (select (available_columns D) D)) eqn:E0.
  - apply has_col_false in Ev. exfalso. apply Ev. rewrite Hc.
    apply In_set_header. now right.
  - apply has_col_In in He. rewrite Hc in He. apply has_col_In in He. congruence.
Qed.

(** Every row handed to the advanced analysis has a station, a name and a
    percentage between 20 and 150. *)
Lemma filtered_rows D F :
  filtered_of D = Ok F ->
  enough_columns F = true ->
  has_col "效率值" F = true
  /\ Forall (fun r => isna (view F r "工站") = false
                      /\ isna (view F r "姓名") = false
                      /\ exists q, view F r "效率值" = Num (Fin q)
                                   /\ 20 <= q /\ q <= 150) (rows F).
Proof.
  intros HF Hcheck. unfold enough_columns in Hcheck.
  apply andb_prop in Hcheck as [Hneed Heff]. cbn [needed_cols forallb] in Hneed.
  apply andb_prop in Hneed as [Hst Hneed]. apply andb_prop in Hneed as [Hnm _].
  destruct (filtered_of_selected D F HF Hst) as (S & HS & HQ).
  destruct (quality_filter_Ok S F HQ) as [Hcols _].
  assert (Hst' : has_col "工站" S = true) by now rewrite <- (has_col_eq S F _ Hcols).
  assert (Hnm' : has_col "姓名" S = true) by now rewrite <- (has_col_eq S F _ Hcols).
  assert (Hv' : has_col "效率值" S = true).
  { apply (percentage_column D S HS). unfold has_eff_cols in *.
    now rewrite <- !(has_col_eq S F _ Hcols). }
  split; [now rewrite (has_col_eq S F _ Hcols) |].
  apply Forall_forall. intros r Hr. unfold view.
  assert (Hpass : forall c : condition,
             In c (filter_conditions S) -> c (cell_at (columns F) r) = Ok true).
  { intros c Hc. now apply (kept_row_passes S F r c HQ). }
  split; [| split].
  - specialize (Hpass (notna "工站")). unfold notna in Hpass at 2.
    assert (H : Ok (negb (isna (cell_at (columns F) r "工站"))) = Ok true).
    { apply Hpass. unfold filter_conditions. rewrite !in_app_iff.
      do 6 right. left. now apply when_col_In. }
    injection H as H. now apply negb_true_iff.
  - specialize (Hpass (notna "姓名")). unfold notna in Hpass at 2.
    assert (H : Ok (negb (isna (cell_at (columns F) r "姓名"))) = Ok true).
    { apply Hpass. unfold filter_conditions. rewrite !in_app_iff.
      do 8 right. now apply when_col_In. }
    injection H as H. now apply negb_true_iff.
  - apply between_true. apply Hpass. unfold filter_conditions. rewrite !in_app_iff.
    do 5 right. left. now apply when_col_In.
Qed.

Lemma advanced_analysis_Analysed F a :
  advanced_analysis F = Analysed a ->
  enough_columns F = true
  /\ analysis_df a = (if has_ct_cols F then ct_columns (efficiency_ratio F)
                      else efficiency_ratio F)
  /\ metrics a = station_metrics (analysis_df a).
Proof.
  unfold advanced_analysis. destruct (enough_columns F); [| discriminate].
  intros H. injection H as <-. cbn [analysis_df metrics]. auto.
Qed.

(** The table of the advanced analysis is complete. *)
Lemma analysis_complete st merged_df r a :
  run_analysis st merged_df = Ok r ->
  advanced_out r = Analysed a ->
  complete (analysis_df a).
Proof.
  intros Hrun Ha. apply run_analysis_Ok in Hrun as (_ & HF & Hadv & _).
  rewrite Hadv in Ha. apply advanced_analysis_Analysed in Ha as (Hcheck & HA & _).
  destruct (filtered_rows _ _ HF Hcheck) as [Hv Hrows].
  pose proof (stage_analysis (filtered_out r) Hv) as Hstage.
  rewrite <- HA in Hstage. unfold complete.
  apply (stage_Forall
           (fun g => isna (g "工站") = false /\ isna (g "姓名") = false
                     /\ exists q, g "效率值" = Num (Fin q) /\ 20 <= q /\ q <= 150)
           (fun g => isna (g "工站") = false /\ isna (g "姓名") = false
                     /\ Float.isnan (value (g "效率")) = false)
           _ _ _ Hrows Hstage).
  intros g g' (Hs & Hn & q & Hq & _) (-> & -> & ->). rewrite Hq.
  repeat split; assumption || reflexivity.
Qed.

(** C5. In every run that reaches the advanced analysis, the metrics table
    has exactly one row for the station of each analysed record; its mean
    is the arithmetic mean of the ratio (their sum over their number) over
    exactly the analysed records with that station, times 100, and its head
    count is the number of those records (one per record, not per
    person). *)
Theorem station_metrics_per_station
        (st : gmap string table) (merged_df : table) (r : run) (a : analysis)
        (record : row) :
  run_analysis st merged_df = Ok r ->
  advanced_out r = Analysed a ->
  In record (rows (analysis_df a)) ->
  let s := station_of (analysis_df a) record in
  let group :=
    List.filter (fun r => cell_eqb (station_of (analysis_df a) r) s)
                (rows (analysis_df a)) in
  exists k,
    cell_eqb k s = true
    /\ List.filter (fun m => cell_eqb (nth 0 m NA) s) (rows (metrics a))
       = [[k;
           Num (Float.mul
                  (Float.div (Float.sum (List.map (efficiency_of (analysis_df a)) group))
                             (Float.of_nat (List.length group)))
                  (Fin 100));
           Num (Float.of_nat (List.length group))]].
Proof.
  intros Hrun Ha Hin.
  pose proof (analysis_complete st merged_df r a Hrun Ha) as Hc.
  apply run_analysis_Ok in Hrun as (_ & _ & Hadv & _).
  rewrite Hadv in Ha. apply advanced_analysis_Analysed in Ha as (_ & _ & ->).
  destruct (station_metrics_complete (analysis_df a) record Hc Hin) as (k & Hk & Hm).
  exists k. split; [exact Hk |]. rewrite Hm.
  unfold arithmetic_mean, group_rows. now rewrite List.length_map.
Qed.

Lemma station_metrics_per_station_witness :
  let a := sample_analysis in
  let record := nth 0 (rows (analysis_df a)) [] in
  let s := station_of (analysis_df a) record in
  let group :=
    List.filter (fun r => cell_eqb (station_of (analysis_df a) r) s)
                (rows (analysis_df a)) in
  exists k,
    cell_eqb k s = true
    /\ List.filter (fun m => cell_eqb (nth 0 m NA) s) (rows (metrics a))
       = [[k;
           Num (Float.mul
                  (Float.div (Float.sum (List.map (efficiency_of (analysis_df a)) group))
                             (Float.of_nat (List.length group)))
                  (Fin 100));
           Num (Float.of_nat (List.length group))]].
Proof.
  apply (station_metrics_per_station ∅ sample_merged sample_run sample_analysis
           (nth 0 (rows (analysis_df sample_analysis)) []));
    [vm_compute; reflexivity | vm_compute; reflexivity | vm_compute; left; reflexivity].
Defined.

(** ** Denominators of the station aggregates *)

Lemma distinct_incl l k : In k (distinct l) -> In k l.
Proof.
  revert k. induction l as [| a l IH]; simpl; intros k; [tauto |].
  intros [-> | H]; [now left |]. apply filter_In in H as [H _]. right. now apply IH.
Qed.

Lemma station_metrics_keys df :
  List.map (fun m => nth 0 m NA) (rows (station_metrics df)) = group_keys df.
Proof.
  unfold station_metrics. cbn [rows]. rewrite List.map_map. cbn [nth].
  apply List.map_id.
Qed.

Lemma group_keys_In df k :
  In k (group_keys df) ->
  isna k = false /\ exists r, In r (rows df) /\ station_of df r = k.
Proof.
  unfold group_keys. intros H.
  apply (Permutation_in _ (sort_keys_perm _)) in H. apply distinct_incl in H.
  apply filter_In in H as [H Hna]. apply negb_true_iff in Hna. split; [exact Hna |].
  unfold column in H. apply in_map_iff in H as (r & <- & Hr). now exists r.
Qed.




(** ** The percentage as a text and back *)

Lemma remove_percent_app s t :
  Text.remove_percent (s ++ t)%string
  = (Text.remove_percent s ++ Text.remove_percent t)%string.
Proof.
  induction s as [| a s IH]; [reflexivity |].
  change (String a s ++ t)%string with (String a (s ++ t)%string).
  cbn [Text.remove_percent]. destruct (Ascii.eqb a "%"); [exact IH |].
  now rewrite IH.
Qed.

Lemma remove_percent_digits s : all_digits s = true -> Text.remove_percent s = s.
Proof.
  induction s as [| a s IH]; [reflexivity |]. cbn [all_digits Text.remove_percent].
  intros H. apply andb_prop in H as [Ha Hs].
  destruct (Ascii.eqb a "%") eqn:E.
  - apply Ascii.eqb_eq in E. subst a. discriminate.
  - now rewrite IH.
Qed.

Lemma frac_plain_all r : (r < 100)%N -> frac_plain r = true.
Proof.
  intros H.
  assert (Hall : forallb frac_plain (List.map N.of_nat (seq 0 100)) = true)
    by (vm_compute; reflexivity).
  rewrite forallb_forall in Hall. apply Hall.
  apply in_map_iff. exists (N.to_nat r). split; [lia |].
  apply in_seq. lia.
Qed.

Lemma remove_percent_float_str x :
  Text.remove_percent (Text.float_str (Float.round2 x) ++ "%")%string
  = Text.float_str (Float.round2 x).
Proof.
  rewrite remove_percent_app. change (Text.remove_percent "%") with EmptyString.
  assert (Hnil : forall s : string, (s ++ "")%string = s).
  { induction s as [| a s IH]; [reflexivity |].
    change (String a s ++ "")%string with (String a (s ++ "")%string). now rewrite IH. }
  rewrite Hnil.
  destruct x as [| | | q]; try reflexivity.
  cbn [Float.round2]. unfold Text.float_str. cbn [Qnum Qden].
  change (N.pos 100) with 100%N.
  rewrite !remove_percent_app.
  rewrite (remove_percent_digits (Text.string_of_N _)) by apply string_of_N_digits.
  assert (Hf : Text.remove_percent (Text.frac_digits 17 (Z.abs_N (Float.rint (q * 100)) mod 100) 100)
               = Text.frac_digits 17 (Z.abs_N (Float.rint (q * 100)) mod 100) 100).
  { apply String.eqb_eq. apply frac_plain_all. apply N.mod_lt. lia. }
  rewrite Hf. now destruct (_ <? 0)%Z.
Qed.

Lemma parse_float_str_round2 x :
  Float.eqv (Text.parse_float (Text.float_str (Float.round2 x))) (Float.round2 x).
Proof.
  destruct x as [| | | q]; try exact I.
  apply parse_float_str_hundredths.
Qed.

Lemma eqv_trans x y z : Float.eqv x y -> Float.eqv y z -> Float.eqv x z.
Proof.
  destruct x, y, z; simpl; try tauto. intros H1 H2. now rewrite H1.
Qed.

Lemma eqv_div_100 x y :
  Float.eqv x y -> Float.eqv (Float.div x (Fin 100)) (Float.div y (Fin 100)).
Proof.
  destruct x as [| | | a], y as [| | | b]; simpl; try tauto.
  intros H. now rewrite H.
Qed.

Lemma rint_comp a b : a == b -> Float.rint a = Float.rint b.
Proof.
  intros H. unfold Float.rint, Float.Qltb.
  rewrite (Qfloor_comp _ _ H).
  assert (Hd : a - inject_Z (Qfloor b) == b - inject_Z (Qfloor b)) by now rewrite H.
  now rewrite !(Qleb_comp _ _ (Qeq_refl _) _ _ Hd), !(Qleb_comp _ _ Hd _ _ (Qeq_refl _)).
Qed.

(** Two decimals of the percentage are four decimals of the ratio. *)
(** ** From the merged table to the analysed ratio *)

Lemma stage_assignM c f T T' :
  assignM c f T = Ok T' ->
  columns T' = set_header (columns T) c
  /\ stage (fun g g' => exists v, f g = Ok v /\ g' c = v
                                  /\ forall c', c' <> c -> g' c' = g c') T T'.
Proof.
  intros H. apply assignM_Ok in H as [Hc Hr]. split; [exact Hc |].
  unfold stage, view. rewrite Hc. eapply Forall2_impl; [| exact Hr].
  intros r r' (v & Hv & ->). exists v. split; [exact Hv |]. split.
  - apply cell_at_set_same.
  - intros c' Hne. now apply cell_at_set_other.
Qed.

Lemma has_col_set_header c c' T T' :
  columns T' = set_header (columns T) c ->
  has_col c' T' = has_col c' T || String.eqb c' c.
Proof.
  intros H. apply eq_true_iff_eq. rewrite orb_true_iff, !has_col_In, H.
  rewrite In_set_header. now rewrite String.eqb_eq.
Qed.

Lemma col_index_rename c (ren : string -> string) cols :
  (forall c', ren c' = c <-> c' = c) ->
  col_index c (List.map ren cols) = col_index c cols.
Proof.
  intros H. induction cols as [| c' cols IH]; [reflexivity |].
  cbn [List.map col_index]. rewrite IH.
  destruct (String.eqb_spec c (ren c')) as [E | E], (String.eqb_spec c c') as [E' | E'];
    try reflexivity.
  - symmetry in E. apply (proj1 (H c')) in E. congruence.
  - exfalso. apply E. symmetry. now apply (proj2 (H c')).
Qed.

Lemma rename_standard_ct_index M c :
  c <> "標工" -> c <> "標準CT" ->
  col_index c (columns (rename_standard_ct M)) = col_index c (columns M).
Proof.
  intros H1 H2. unfold rename_standard_ct.
  destruct (has_col "標工" M); [| reflexivity].
  cbn [rename_columns columns]. apply col_index_rename. intros c'.
  destruct (decide (c' = "標工")) as [-> | Hne].
  - rewrite lookup_singleton_eq. cbn [default id]. split; congruence.
  - rewrite lookup_singleton_ne by congruence. cbn [default]. reflexivity.
Qed.

Lemma stage_rename_standard_ct M :
  stage (fun g g' => g' "實際產出" = g "實際產出" /\ g' "理論產出" = g "理論產出")
        M (rename_standard_ct M).
Proof.
  unfold stage, view.
  assert (Hrows : rows (rename_standard_ct M) = rows M).
  { unfold rename_standard_ct. now destruct (has_col "標工" M). }
  rewrite Hrows. clear Hrows. generalize (rows M). intros l.
  induction l as [| r l IH]; constructor; [| exact IH].
  unfold cell_at. rewrite !rename_standard_ct_index by discriminate. auto.
Qed.

Lemma has_col_rename_standard_ct M c :
  c <> "標工" -> c <> "標準CT" ->
  has_col c (rename_standard_ct M) = has_col c M.
Proof. intros H1 H2. unfold has_col. now rewrite rename_standard_ct_index. Qed.

Lemma cell_div_Ok a b v :
  cell_div a b = Ok v ->
  exists x y, a = Num x /\ b = Num y /\ v = Num (Float.div x y).
Proof.
  destruct a as [x |], b as [y |]; try discriminate.
  intros H. injection H as <-. eauto.
Qed.

Lemma with_actual_ct_stage M D :
  with_actual_ct M = Ok D ->
  (forall c, c <> "實際CT" -> has_col c D = has_col c M)
  /\ stage (fun g g' => forall c, c <> "實際CT" -> g' c = g c) M D.
Proof.
  unfold with_actual_ct. destruct (_ && _).
  - intros H. apply stage_assignM in H as [Hc Hs]. split.
    + intros c Hne. rewrite (has_col_set_header _ _ _ _ Hc).
      apply String.eqb_neq in Hne. rewrite Hne. apply orb_false_r.
    + eapply stage_impl; [exact Hs |]. now intros g g' (v & _ & _ & Ho).
  - intros H. injection H as <-. split; [reflexivity |]. now apply stage_same.
Qed.

Lemma with_efficiency_stage M D :
  has_col "實際產出" M = true -> has_col "理論產出" M = true ->
  with_efficiency M = Ok D ->
  has_col "效率" D = true
  /\ stage (fun g g' => exists o t,
                g "實際產出" = Num o /\ g "理論產出" = Num t
                /\ g' "效率" = Str (percentage_text o t)) M D.
Proof.
  intros Ho Ht. unfold with_efficiency. rewrite Ho, Ht. cbn [andb].
  destruct (assignM "效率" _ M) as [d |] eqn:E1; [| discriminate].
  cbn [result_bind]. intros E2.
  apply stage_assignM in E1 as [Hc1 Hs1]. apply stage_assignM in E2 as [Hc2 Hs2].
  split.
  - rewrite (has_col_set_header _ _ _ _ Hc2), String.eqb_refl. apply orb_true_r.
  - eapply stage_trans; [exact Hs1 | exact Hs2 |]. cbv beta.
    intros g1 g2 g3 (v1 & Hv1 & He1 & _) (v2 & Hv2 & He2 & _).
    apply cell_div_Ok in Hv1 as (o & t & Hgo & Hgt & ->).
    rewrite He1 in Hv2. cbn [percent_text] in Hv2. injection Hv2 as <-.
    exists o, t. auto.
Qed.

Lemma derive_stage M D :
  has_col "實際產出" M = true -> has_col "理論產出" M = true ->
  derive M = Ok D ->
  has_col "效率" D = true
  /\ stage (fun g g' => exists o t,
                g "實際產出" = Num o /\ g "理論產出" = Num t
                /\ g' "效率" = Str (percentage_text o t)) M D.
Proof.
  intros Ho Ht. unfold derive.
  destruct (with_actual_ct (rename_standard_ct M)) as [d |] eqn:E1; [| discriminate].
  cbn [result_bind]. intros E2.
  apply with_actual_ct_stage in E1 as [Hh Hs1].
  apply with_efficiency_stage in E2 as [He Hs2].
  - split; [exact He |].
    eapply stage_trans; [apply stage_rename_standard_ct | |].
    + eapply stage_trans; [exact Hs1 | exact Hs2 |]. cbv beta.
      intros g1 g2 g3 H12 (o & t & Hgo & Hgt & H3).
      rewrite H12 in Hgo, Hgt by discriminate.
      exact (ex_intro _ o (ex_intro _ t (conj Hgo (conj Hgt H3)))).
    + cbv beta. intros g1 g2 g3 [H1 H2] (o & t & Hgo & Hgt & H3).
      exists o, t. rewrite <- H1, <- H2. auto.
  - rewrite Hh by discriminate. now rewrite has_col_rename_standard_ct by discriminate.
  - rewrite Hh by discriminate. now rewrite has_col_rename_standard_ct by discriminate.
Qed.

Lemma stage_select cs T :
  stage (fun g g' => forall c, In c cs -> g' c = g c) T (select cs T).
Proof.
  unfold stage, select, view. cbn [rows columns].
  apply Forall2_map_graph. intros r c Hc. now apply cell_at_select.
Qed.

Lemma stage_then_assign_if (P : (string -> cell) -> (string -> cell) -> Prop)
      (cs : list string) c f T T' :
  stage P T T' ->
  ~ In c cs ->
  (forall g g1 g2, P g g1 -> (forall c', In c' cs -> g2 c' = g1 c') -> P g g2) ->
  stage P T (assign_if c f T').
Proof.
  intros H Hc HP. eapply stage_trans; [exact H | apply stage_assign_if |].
  intros g1 g2 g3 H12 Ho. apply (HP g1 g2 g3 H12).
  intros c' Hc'. apply Ho. intros ->. contradiction.
Qed.

Lemma convert_stage S0 S :
  has_col "效率" S0 = true ->
  convert S0 = Ok S ->
  stage (fun g g' => forall s, g "效率" = Str s ->
                               g' "效率值" = Num (Text.parse_float (Text.remove_percent s)))
        S0 S.
Proof.
  intros He. unfold convert.
  set (d1 := assign_if "實際產出" _ S0). set (d2 := assign_if "實際CT" _ d1).
  assert (Hs2 : stage (fun g g' => g' "效率" = g "效率") S0 d2).
  { eapply stage_trans; [apply stage_assign_if | apply stage_assign_if |].
    cbv beta. intros g1 g2 g3 H1 H2. rewrite H2, H1 by discriminate. reflexivity. }
  assert (He2 : has_col "效率" d2 = true).
  { unfold has_col, d2, d1. rewrite !columns_assign_if. exact He. }
  unfold efficiency_value. rewrite He2.
  destruct (_ || _); [| discriminate].
  cbn [result_bind]. intros H. injection H as <-. cbn [fold_left].
  set (P := fun g g' : string -> cell =>
              forall s, g "效率" = Str s ->
                        g' "效率值" = Num (Text.parse_float (Text.remove_percent s))).
  assert (Hs3 : stage P S0 (assign "效率值"
                    (fun get => match get "效率" with
                                | Str s => Num (Text.parse_float (Text.remove_percent s))
                                | Num _ => NA
                                end) d2)).
  { eapply stage_trans; [exact Hs2 | apply stage_assign |]. cbv beta.
    intros g1 g2 g3 H12 [H3 _] s Hs. rewrite H3, H12, Hs. reflexivity. }
  repeat (apply (stage_then_assign_if P ["效率值"]);
          [| simpl; intuition discriminate
           | intros g g1 g2 H1 Hk s Hs; rewrite Hk by (simpl; tauto); auto]).
  exact Hs3.
Qed.

Lemma Forall2_sublist_r {A B} (R : A -> B -> Prop) l l' k' :
  Forall2 R l l' -> sublist k' l' -> exists k, sublist k l /\ Forall2 R k k'.
Proof.
  intros H. revert k'. induction H as [| a b l l' Hab _ IH]; intros k' Hs.
  - apply sublist_nil_r in Hs. subst. exists []. split; constructor.
  - apply sublist_cons_r in Hs as [Hs | (k'' & -> & Hs)].
    + destruct (IH _ Hs) as (k & Hk & HR). exists k. split; [now constructor | exact HR].
    + destruct (IH _ Hs) as (k & Hk & HR). exists (a :: k).
      split; [now constructor | now constructor].
Qed.

Lemma Forall2_compose {A B C} (P : A -> B -> Prop) (Q : B -> C -> Prop)
      (R : A -> C -> Prop) l1 l2 l3 :
  Forall2 P l1 l2 -> Forall2 Q l2 l3 ->
  (forall a b c, P a b -> Q b c -> R a c) ->
  Forall2 R l1 l3.
Proof.
  intros H12 H23 HR. revert l3 H23.
  induction H12 as [| a b l1 l2 H _ IH]; intros l3 H23; inversion H23; subst;
    constructor; eauto.
Qed.

(** The ratio read by the analysis, from the two outputs of the record. *)
Lemma ratio_of_text o t :
  Float.eqv
    (Float.div (to_numeric (Num (Text.parse_float
                                   (Text.remove_percent (percentage_text o t)))))
               (Fin 100))
    (rounded_ratio o t).
Proof.
  unfold percentage_text, rounded_ratio. rewrite remove_percent_float_str.
  cbn [to_numeric]. apply eqv_div_100. apply parse_float_str_round2.
Qed.

(** Rounding moves a value by at most one half. *)
Lemma rint_bounds y :
  inject_Z (Float.rint y) - (1 # 2) <= y /\ y <= inject_Z (Float.rint y) + (1 # 2).
Proof.
  unfold Float.rint.
  pose proof (Qfloor_le y) as Hlo. pose proof (Qlt_floor y) as Hhi.
  rewrite inject_Z_plus in Hhi. change (inject_Z 1) with 1 in Hhi.
  set (f := Qfloor y) in *.
  destruct (Float.Qltb (y - inject_Z f) (1 # 2)) eqn:E1.
  - apply Qltb_true in E1. split; lra.
  - apply Qltb_false in E1.
    destruct (Float.Qltb (1 # 2) (y - inject_Z f)) eqn:E2.
    + rewrite inject_Z_plus. change (inject_Z 1) with 1. split; lra.
    + apply Qltb_false in E2. destruct (Z.even f).
      * split; lra.
      * rewrite inject_Z_plus. change (inject_Z 1) with 1. split; lra.
Qed.

Lemma stage_length P T T' : stage P T T' -> List.length (rows T') = List.length (rows T).
Proof. unfold stage. induction 1; simpl; congruence. Qed.

Lemma analysis_ratio_range st merged_df r a :
  run_analysis st merged_df = Ok r ->
  advanced_out r = Analysed a ->
  List.length (rows (analysis_df a)) = List.length (rows (filtered_out r))
  /\ Forall (fun ra => exists e, efficiency_of (analysis_df a) ra = Fin e
                                 /\ 2 # 10 <= e /\ e <= 15 # 10)
            (rows (analysis_df a)).
Proof.
  intros Hrun Ha. apply run_analysis_Ok in Hrun as (_ & HF & Hadv & _).
  rewrite Hadv in Ha. apply advanced_analysis_Analysed in Ha as (Hcheck & HA & _).
  destruct (filtered_rows _ _ HF Hcheck) as [Hv Hrows].
  pose proof (stage_analysis (filtered_out r) Hv) as Hstage.
  rewrite <- HA in Hstage. split; [exact (stage_length _ _ _ Hstage) |].
  apply (stage_Forall
           (fun g => isna (g "工站") = false /\ isna (g "姓名") = false
                     /\ exists q, g "效率值" = Num (Fin q) /\ 20 <= q /\ q <= 150)
           (fun g => exists e, value (g "效率") = Fin e /\ 2 # 10 <= e /\ e <= 15 # 10)
           _ _ _ Hrows Hstage).
  intros g g' (_ & _ & q & Hq & Hlo & Hhi) (_ & _ & ->). rewrite Hq.
  exists (q / 100). split; [reflexivity |]. split.
  - apply Qle_shift_div_l; [reflexivity | lra].
  - apply Qle_shift_div_r; [reflexivity | lra].
Qed.

(** The analysed records, in order, beside the merged records they come
    from. *)
Lemma analysed_records st merged_df r a :
  has_col "實際產出" merged_df = true ->
  has_col "理論產出" merged_df = true ->
  run_analysis st merged_df = Ok r ->
  advanced_out r = Analysed a ->
  exists records,
    sublist records (rows merged_df)
    /\ Forall2
         (fun m ra => exists o t,
              view merged_df m "實際產出" = Num o
              /\ view merged_df m "理論產出" = Num t
              /\ Float.eqv (efficiency_of (analysis_df a) ra) (rounded_ratio o t))
         records (rows (analysis_df a)).
Proof.
  intros Ho Ht Hrun Ha.
  apply run_analysis_Ok in Hrun as (HD & HF & Hadv & _).
  rewrite Hadv in Ha. apply advanced_analysis_Analysed in Ha as (Hcheck & HA & _).
  destruct (filtered_rows _ _ HF Hcheck) as [Hv _].
  assert (Hst : has_col "工站" (filtered_out r) = true).
  { unfold enough_columns in Hcheck. apply andb_prop in Hcheck as [Hn _].
    cbn [needed_cols forallb] in Hn. now apply andb_prop in Hn as [Hn _]. }
  destruct (filtered_of_selected _ _ HF Hst) as (S & HS & HQ).
  destruct (derive_stage _ _ Ho Ht HD) as [He HMD].
  set (av := available_columns (merged_out r)) in *.
  assert (Hav : In "效率" av).
  { apply available_In. split; [simpl; tauto | exact He]. }
  assert (He0 : has_col "效率" (select av (merged_out r)) = true)
    by now apply has_col_In.
  pose proof (convert_stage _ _ He0 HS) as HS0.
  pose proof (stage_select av (merged_out r)) as Hsel.
  set (Q := fun g g' : string -> cell =>
              exists o t, g "實際產出" = Num o /\ g "理論產出" = Num t
                          /\ g' "效率值"
                             = Num (Text.parse_float
                                      (Text.remove_percent (percentage_text o t)))).
  assert (HDS : stage (fun g g' => forall s, g "效率" = Str s ->
                         g' "效率值" = Num (Text.parse_float (Text.remove_percent s)))
                      (merged_out r) S).
  { eapply stage_trans; [exact Hsel | exact HS0 |]. cbv beta.
    intros g1 g2 g3 H12 H23 s Hs. apply H23. now rewrite H12. }
  assert (HMS : stage Q merged_df S).
  { eapply stage_trans; [exact HMD | exact HDS |]. cbv beta.
    intros g1 g2 g3 (o & t & Hgo & Hgt & H2) H3. exists o, t. auto. }
  destruct (quality_filter_Ok _ _ HQ) as [Hcols Hrows].
  assert (Hsub : sublist (rows (filtered_out r)) (rows S))
    by (rewrite Hrows; apply filter_sublist).
  destruct (Forall2_sublist_r _ _ _ _ HMS Hsub) as (records & Hrec & HR).
  exists records. split; [exact Hrec |].
  pose proof (stage_analysis _ Hv) as HFA. rewrite <- HA in HFA.
  eapply Forall2_compose; [exact HR | exact HFA |]. cbv beta.
  intros m rf ra (o & t & Hgo & Hgt & Hval) (_ & _ & Heff).
  exists o, t. split; [exact Hgo |]. split; [exact Hgt |].
  unfold efficiency_of. unfold view in Heff, Hval. rewrite Heff.
  rewrite Hcols, Hval. cbn [value]. apply ratio_of_text.
Qed.

(** A rounded ratio from 0.2 to 1.5 is the ratio of two finite outputs
    other than zero: a number of four decimals, at most 0.00005 off their
    quotient. *)
Lemma rounded_ratio_in_range o t e :
  Float.eqv (Fin e) (rounded_ratio o t) -> 2 # 10 <= e -> e <= 15 # 10 ->
  exists qo qt (k : Z),
    o = Fin qo /\ t = Fin qt /\ ~ qo == 0 /\ ~ qt == 0
    /\ e == inject_Z k / 10000
    /\ Qabs (e - qo / qt) <= 1 # 20000
    /\ 19995 # 100000 <= qo / qt /\ qo / qt <= 150005 # 100000.
Proof.
  unfold rounded_ratio. intros Hv Hlo Hhi.
  destruct (Float.div o t) as [| | | q] eqn:Ed;
    [contradiction Hv | contradiction Hv | contradiction Hv |].
  cbn [Float.mul Float.of_nat Float.round2 Float.div] in Hv.
  change (Qeq_bool 100 0) with false in Hv. cbn [Float.eqv] in Hv.
  set (y := q * inject_Z (Z.of_nat 100) * 100) in *.
  assert (Hy : y == q * 10000).
  { unfold y. change (inject_Z (Z.of_nat 100)) with 100. ring. }
  destruct (rint_bounds y) as [B1 B2].
  assert (Hr : inject_Z (Float.rint y) == e * 10000).
  { rewrite Hv. unfold Qeq, Qdiv, Qmult, Qinv, inject_Z. simpl. lia. }
  assert (Hq : 19995 # 100000 <= q /\ q <= 150005 # 100000) by (split; lra).
  assert (Hk : e == inject_Z (Float.rint y) / 10000) by (rewrite Hr; field).
  assert (Habs : Qabs (e - q) <= 1 # 20000) by (apply Qabs_Qle_condition; split; lra).
  destruct o as [| | | qo], t as [| | | qt]; cbn [Float.div] in Ed; try discriminate.
  - destruct (Float.Qltb qt 0); discriminate.
  - destruct (Float.Qltb qt 0); discriminate.
  - injection Ed as <-. lra.
  - injection Ed as <-. lra.
  - destruct (Qeq_bool qt 0) eqn:Et.
    + destruct (Qeq_bool qo 0); [discriminate |].
      destruct (Float.Qltb 0 qo); discriminate.
    + injection Ed as <-. apply Qeq_bool_neq in Et.
      exists qo, qt, (Float.rint y). repeat split; try tauto; try exact Et; try assumption.
      intros Hz. assert (H0 : qo / qt == 0) by (rewrite Hz; apply Qmult_0_l). lra.
Qed.

(** C9. When 實際產出 and 理論產出 are columns of the merged table, the
    records of the advanced analysis are, in order, records of the merged
    table with two finite outputs, and the ratio the analysis computes with
    is not the quotient 實際產出 / 理論產出 itself but the one read back from
    the text of the percentage: a number of four decimals, at most 0.00005
    off the quotient, that is the quotient rounded to four decimal places
    (to either neighbour where it lies halfway). *)
Theorem analysed_ratio_is_rounded
        (st : gmap string table) (merged_df : table) (r : run) (a : analysis) :
  has_col "實際產出" merged_df = true ->
  has_col "理論產出" merged_df = true ->
  run_analysis st merged_df = Ok r ->
  advanced_out r = Analysed a ->
  exists records,
    sublist records (rows merged_df)
    /\ Forall2
         (fun m ra => exists o t e (k : Z),
              view merged_df m "實際產出" = Num (Fin o)
              /\ view merged_df m "理論產出" = Num (Fin t)
              /\ ~ t == 0
              /\ efficiency_of (analysis_df a) ra = Fin e
              /\ e == inject_Z k / 10000
              /\ Qabs (e - o / t) <= 1 # 20000)
         records (rows (analysis_df a)).
Proof.
  intros Ho Ht Hrun Ha.
  destruct (analysed_records _ _ _ _ Ho Ht Hrun Ha) as (records & Hsub & HR).
  destruct (analysis_ratio_range _ _ _ _ Hrun Ha) as [_ Hrange].
  exists records. split; [exact Hsub |].
  clear -HR Hrange. induction HR as [| m ra l l' H _ IH]; [constructor |].
  apply Forall_cons_iff in Hrange as [(e & He & Hlo & Hhi) Hrange].
  constructor; [| now apply IH].
  destruct H as (o & t & Hgo & Hgt & Hv). rewrite He in Hv.
  destruct (rounded_ratio_in_range o t e Hv Hlo Hhi)
    as (qo & qt & k & -> & -> & _ & Hnt & Hk & Habs & _).
  exists qo, qt, e, k. repeat split; assumption.
Qed.

Lemma analysed_ratio_is_rounded_witness :
  exists records,
    sublist records (rows sample_merged)
    /\ Forall2
         (fun m ra => exists o t e (k : Z),
              view sample_merged m "實際產出" = Num (Fin o)
              /\ view sample_merged m "理論產出" = Num (Fin t)
              /\ ~ t == 0
              /\ efficiency_of (analysis_df sample_analysis) ra = Fin e
              /\ e == inject_Z k / 10000
              /\ Qabs (e - o / t) <= 1 # 20000)
         records (rows (analysis_df sample_analysis)).
Proof.
  apply (analysed_ratio_is_rounded ∅ sample_merged sample_run sample_analysis);
    vm_compute; reflexivity.
Defined.

(** A third of the theoretical output is analysed as 0.3333. *)
Example analysed_third :
  (let* r := run_analysis ∅ third_output in
   Ok (match advanced_out r with
       | Analysed a => List.map (efficiency_of (analysis_df a)) (rows (analysis_df a))
       | Skipped _ => []
       end))
  = Ok [Fin ((3333 # 100) / 100)].
Proof. reflexivity. Qed.

(** ** Join input *)

Lemma cell_at_map (f : cell -> cell) cols r c :
  f NA = NA -> cell_at cols (List.map f r) c = f (cell_at cols r c).
Proof.
  intros Hf. unfold cell_at. destruct (col_index c cols) as [i |]; [| now rewrite Hf].
  change (List.map f r) with (f <$> r). rewrite list_lookup_fmap.
  destruct (r !! i); simpl; [reflexivity | now rewrite Hf].
Qed.

Lemma stage_replace_empty df :
  stage (fun g g' => forall c, g' c = replace_empty (g c))
        df (map_cells replace_empty df).
Proof.
  unfold stage, map_cells, view. cbn [rows columns].
  apply Forall2_map_graph. intros r c. now apply cell_at_map.
Qed.

Lemma stage_strip_column col T :
  stage (fun g g' =>
           (has_col col T = true ->
            exists as_float, g' col = Str (Text.strip (astype_str as_float (g col))))
           /\ forall c, c <> col -> g' c = g c)
        T (strip_column col T).
Proof.
  unfold strip_column. destruct (has_col col T).
  - eapply stage_impl; [apply stage_assign |]. intros g g' [H1 H2]. split; [| exact H2].
    intros _. eexists. exact H1.
  - apply stage_same. intros g. split; [discriminate | reflexivity].
Qed.

Lemma columns_strip_column col T : columns (strip_column col T) = columns T.
Proof.
  unfold strip_column. destruct (has_col col T) eqn:E; [| reflexivity].
  now apply columns_assign_existing.
Qed.

Lemma columns_processed df : columns (processed df) = columns df.
Proof. unfold processed. cbn [fold_left]. now rewrite !columns_strip_column. Qed.

(** The processed sheet, row by row: 料號 and 工序 are texts without
    whitespace around them, the other cells are kept but for the empty
    text, which is missing. *)
Lemma stage_processed df :
  stage (fun g g' =>
           (forall col, In col trimmed_columns -> has_col col df = true ->
                        exists as_float,
                          g' col = Str (Text.strip
                                          (astype_str as_float (replace_empty (g col)))))
           /\ forall c, ~ In c trimmed_columns -> g' c = replace_empty (g c))
        df (processed df).
Proof.
  unfold processed. cbn [fold_left].
  set (T0 := map_cells replace_empty df). set (T1 := strip_column "料號" T0).
  assert (H0 : has_col "料號" T0 = has_col "料號" df) by reflexivity.
  assert (H1 : has_col "工序" T1 = has_col "工序" df).
  { unfold has_col, T1. now rewrite columns_strip_column. }
  assert (S01 : stage (fun g g' =>
             (has_col "料號" df = true ->
              exists as_float,
                g' "料號" = Str (Text.strip (astype_str as_float (replace_empty (g "料號")))))
             /\ forall c, c <> "料號" -> g' c = replace_empty (g c)) df T1).
  { eapply stage_trans; [apply stage_replace_empty | apply stage_strip_column |].
    cbv beta. intros g1 g2 g3 H12 [Hs Ho]. rewrite H0 in Hs. split.
    - intros Hh. destruct (Hs Hh) as [b Hb]. exists b. rewrite Hb, H12. reflexivity.
    - intros c Hc. rewrite (Ho c Hc). apply H12. }
  eapply stage_trans; [exact S01 | apply stage_strip_column |].
  cbv beta. intros g1 g2 g3 [Hs1 Ho1] [Hs2 Ho2]. rewrite H1 in Hs2. split.
  - intros col [<- | [<- | []]] Hh.
    + rewrite Ho2 by discriminate. now apply Hs1.
    + destruct (Hs2 Hh) as [b Hb]. exists b. rewrite Hb. rewrite Ho1 by discriminate.
      reflexivity.
  - intros c Hc. simpl in Hc. rewrite Ho2 by intuition congruence.
    apply Ho1. intuition congruence.
Qed.

Lemma dropna_Ok subset df out :
  dropna subset df = Ok out ->
  columns out = columns df
  /\ rows out
     = List.filter (fun r => forallb (fun k => negb (isna (cell_at (columns df) r k)))
                                     subset) (rows df).
Proof.
  unfold dropna. destruct (forallb _ subset); [| discriminate].
  intros H. injection H as <-. auto.
Qed.

Lemma replace_empty_notna c :
  isna (replace_empty c) = false ->
  replace_empty c = c /\ isna c = false /\ c <> Str "".
Proof.
  destruct c as [x | [| a s]]; simpl; intros H; try discriminate; repeat split;
    try assumption; discriminate.
Qed.

Lemma replace_empty_cases c :
  (c = Str "" -> replace_empty c = NA) /\ (c <> Str "" -> replace_empty c = c).
Proof.
  destruct c as [x | [| a s]]; simpl; split; intros H; try reflexivity;
    try discriminate; congruence.
Qed.

(** C2, as the code has it. Every cell that is the empty text becomes
    missing.  The rows of the join input are rows of the sheet, in order,
    such that: no selected key column is missing in a kept row; the
    columns 料號 and 工序, when the sheet has them, hold a text, which for a
    cell that is a text is that text without whitespace around it; and in
    a kept row a key column other than these two holds the value of the
    sheet unchanged, which is neither missing nor the empty text. *)
Theorem join_input_keys (merge_columns : list string) (df out : table) :
  join_input merge_columns df = Ok out ->
  exists kept,
    sublist kept (rows df)
    /\ Forall2
         (fun r r' =>
            (forall c, ~ In c trimmed_columns ->
               (view df r c = Str "" -> view out r' c = NA)
               /\ (view df r c <> Str "" -> view out r' c = view df r c))
            /\ (forall k, In k merge_columns -> isna (view out r' k) = false)
            /\ (forall col, In col trimmed_columns -> has_col col df = true ->
                  exists t, view out r' col = Str t
                            /\ forall s, view df r col = Str s -> s <> "" ->
                                         t = Text.strip s)
            /\ (forall k, In k merge_columns -> ~ In k trimmed_columns ->
                  view out r' k = view df r k
                  /\ isna (view df r k) = false
                  /\ view df r k <> Str ""))
         kept (rows out).
Proof.
  unfold join_input. intros H. apply dropna_Ok in H as [Hcols Hrows].
  assert (Hsub : sublist (rows out) (rows (processed df)))
    by (rewrite Hrows; apply filter_sublist).
  destruct (Forall2_sublist_r _ _ _ _ (stage_processed df) Hsub) as (kept & Hk & HR).
  exists kept. split; [exact Hk |].
  assert (Hkeys : Forall (fun r' => forall k, In k merge_columns ->
                                              isna (view out r' k) = false) (rows out)).
  { apply Forall_forall. intros r' Hr' k Hin. rewrite Hrows in Hr'.
    apply filter_In in Hr' as [_ Hr']. rewrite forallb_forall in Hr'.
    specialize (Hr' k Hin). apply negb_true_iff in Hr'.
    unfold view. now rewrite Hcols. }
  clear Hrows Hsub Hk. revert Hkeys HR. generalize (rows out). intros lo Hkeys HR.
  induction HR as [| r r' l l' [Ht Ho] _ IH]; [constructor |].
  apply Forall_cons_iff in Hkeys as [Hr' Hl']. constructor; [| now apply IH].
  unfold view in *. rewrite Hcols in *. split; [| split; [| split]].
  - intros c Hc. rewrite (Ho c Hc). apply replace_empty_cases.
  - exact Hr'.
  - intros col Hin Hcol. destruct (Ht col Hin Hcol) as [b Hb].
    eexists. split; [exact Hb |]. intros s Hs Hne. rewrite Hs.
    destruct s as [| c s]; [contradiction | reflexivity].
  - intros k Hin Hnot. specialize (Hr' k Hin). rewrite (Ho k Hnot) in Hr'.
    destruct (replace_empty_notna _ Hr') as (He & Hna & Hne).
    rewrite (Ho k Hnot), He. auto.
Qed.

(** C2, refuted as stated: a part number of blanks only is trimmed to the
    empty text and its row stays in the join input, and the selected key
    column 姓名 is not trimmed. *)
Lemma blank_key_is_joined :
  join_input ["料號"; "姓名"] blank_key_sheet
  = Ok {| columns := ["料號"; "姓名"]; rows := [[Str ""; Str " amy "]] |}.
Proof. reflexivity. Qed.

Lemma join_input_keys_witness :
  exists kept,
    sublist kept (rows blank_key_sheet)
    /\ Forall2
         (fun r r' =>
            let out := {| columns := ["料號"; "姓名"]; rows := [[Str ""; Str " amy "]] |} in
            (forall c, ~ In c trimmed_columns ->
               (view blank_key_sheet r c = Str "" -> view out r' c = NA)
               /\ (view blank_key_sheet r c <> Str "" ->
                   view out r' c = view blank_key_sheet r c))
            /\ (forall k, In k ["料號"; "姓名"] -> isna (view out r' k) = false)
            /\ (forall col, In col trimmed_columns -> has_col col blank_key_sheet = true ->
                  exists t, view out r' col = Str t
                            /\ forall s, view blank_key_sheet r col = Str s -> s <> "" ->
                                         t = Text.strip s)
            /\ (forall k, In k ["料號"; "姓名"] -> ~ In k trimmed_columns ->
                  view out r' k = view blank_key_sheet r k
                  /\ isna (view blank_key_sheet r k) = false
                  /\ view blank_key_sheet r k <> Str ""))
         kept [[Str ""; Str " amy "]].
Proof.
  apply (join_input_keys ["料號"; "姓名"] blank_key_sheet
           {| columns := ["料號"; "姓名"]; rows := [[Str ""; Str " amy "]] |}).
  reflexivity.
Defined.

(** A full-width space around a part number is whitespace too, and a whole
    number of a column of whole numbers is its text without fractional
    part. *)
Example join_input_wide_space :
  (let* out := join_input ["料號"] wide_space_sheet in Ok (column "料號" out))
  = Ok [Str "P1"; Str "P 2"]
  /\ (let* out := join_input ["料號"] numbered_parts in Ok (column "料號" out))
     = Ok [Str "1001"; Str "1002"].
Proof. split; reflexivity. Qed.

(** * Further properties *)

(** ** Anomaly groups *)

Lemma low_high_exclusive x :
  Float.ltb x (Fin too_low) = true -> Float.ltb (Fin too_high) x = true -> False.
Proof.
  destruct x as [| | | q]; simpl; try discriminate.
  intros H1 H2. apply Qltb_true in H1, H2. unfold too_low, too_high in *.
  assert (H : 105 # 100 < 8 # 10) by (eapply Qlt_trans; eassumption).
  discriminate H.
Qed.

(** X1. The two efficiency groups are taken from the analysed records in
    their order; no record is in both, and a record without a ratio is in
    neither. *)
Theorem efficiency_groups_exclusive (df : table) (r : row) :
  In r (rows df) ->
  sublist (rows (low_efficiency df)) (rows df)
  /\ sublist (rows (high_efficiency df)) (rows df)
  /\ (In r (rows (low_efficiency df)) -> ~ In r (rows (high_efficiency df)))
  /\ (Float.isnan (efficiency_of df r) = true ->
      ~ In r (rows (low_efficiency df)) /\ ~ In r (rows (high_efficiency df))).
Proof.
  intros _. unfold low_efficiency, high_efficiency, keep_rows. cbn [rows].
  split; [apply filter_sublist |]. split; [apply filter_sublist |]. split.
  - intros Hl Hh. apply filter_In in Hl as [_ Hl]. apply filter_In in Hh as [_ Hh].
    exact (low_high_exclusive _ Hl Hh).
  - intros Hn. split; intros H; apply filter_In in H as [_ H];
      destruct (efficiency_of df r); discriminate.
Qed.

Lemma efficiency_groups_exclusive_witness :
  let df := mixed_ratios in
  let r := operator "A" "amy" 75 in
  sublist (rows (low_efficiency df)) (rows df)
  /\ sublist (rows (high_efficiency df)) (rows df)
  /\ (In r (rows (low_efficiency df)) -> ~ In r (rows (high_efficiency df)))
  /\ (Float.isnan (efficiency_of df r) = true ->
      ~ In r (rows (low_efficiency df)) /\ ~ In r (rows (high_efficiency df))).
Proof.
  apply (efficiency_groups_exclusive mixed_ratios (operator "A" "amy" 75)).
  vm_compute. now left.
Defined.

(** ** The session state *)

(** X2. What a run returns does not depend on the session state it starts
    from: the entries of an earlier run are overwritten before the advanced
    analysis reads them. *)
Theorem run_ignores_session_state (st st' : gmap string table) (merged_df : table) :
  match run_analysis st merged_df, run_analysis st' merged_df with
  | Ok r, Ok r' =>
      merged_out r = merged_out r' /\ filtered_out r = filtered_out r'
      /\ advanced_out r = advanced_out r'
  | Raise e, Raise e' => e = e'
  | _, _ => False
  end.
Proof.
  unfold run_analysis. destruct (derive merged_df) as [d |]; [| reflexivity].
  cbn [result_bind]. destruct (filtered_of d) as [f |]; [| reflexivity].
  cbn [result_bind]. destruct (List.length (rows d) =? 0)%nat; [reflexivity |].
  cbn [merged_out filtered_out advanced_out]. now rewrite !base_of_run.
Qed.

(** ** What the quality filter keeps *)

Lemma ge_filled_true col k get :
  ge_filled col k get = Ok true ->
  exists x, get col = Num x /\ Float.leb (Fin k) (fillna0 x) = true.
Proof.
  unfold ge_filled. destruct (get col) as [x |]; [| discriminate].
  intros H. injection H as H. eauto.
Qed.

Lemma not_isin_true col values get :
  not_isin col values get = Ok true ->
  forall s, In s values -> get col <> Str s.
Proof.
  unfold not_isin. destruct (get col) as [x | s']; [discriminate |].
  intros H s Hs E. injection H as H. injection E as ->.
  apply negb_true_iff in H.
  assert (Ht : existsb (String.eqb s) values = true).
  { apply existsb_exists. exists s. split; [exact Hs | apply String.eqb_refl]. }
  congruence.
Qed.

Lemma notna_true col get : notna col get = Ok true -> isna (get col) = false.
Proof. unfold notna. intros H. injection H as H. now apply negb_true_iff. Qed.

Lemma condition_In T (c : condition) col :
  has_col col T = true ->
  In c (when_col col T c).
Proof. apply when_col_In. Qed.

(** X3. A row the quality filter keeps meets every condition whose column
    exists: 人員作業時間 is a number of at least 0.03 (not missing); 實際產出
    and 實際CT are missing or not negative (a missing value passes, being
    filled with 0); the name is neither missing nor MFGR nor MFG_R; 工站 and
    標準CT are not missing; and the text of 效率 is none of 0.0%, inf%,
    nan%. *)
Theorem kept_rows_meet_conditions (T T' : table) :
  quality_filter T = Ok T' ->
  Forall
    (fun r =>
       (has_col "人員作業時間" T = true ->
        exists x, view T' r "人員作業時間" = Num x
                  /\ Float.leb (Fin (3 # 100)) x = true)
       /\ (forall col, In col ["實際產出"; "實際CT"] -> has_col col T = true ->
           exists x, view T' r col = Num x
                     /\ (Float.isnan x = true \/ Float.leb (Fin 0) x = true))
       /\ (has_col "姓名" T = true ->
           isna (view T' r "姓名") = false
           /\ view T' r "姓名" <> Str "MFGR" /\ view T' r "姓名" <> Str "MFG_R")
       /\ (forall col, In col ["工站"; "標準CT"] -> has_col col T = true ->
           isna (view T' r col) = false)
       /\ (has_col "效率" T = true ->
           forall s, In s ["0.0%"; "inf%"; "nan%"] -> view T' r "效率" <> Str s))
    (rows T').
Proof.
  intros H. apply Forall_forall. intros r Hr. unfold view.
  assert (Hpass : forall c : condition,
             In c (filter_conditions T) -> c (cell_at (columns T') r) = Ok true).
  { intros c Hc. now apply (kept_row_passes T T' r c H). }
  unfold filter_conditions in Hpass.
  split; [| split; [| split; [| split]]].
  - intros Hc. destruct (ge_filled_true "人員作業時間" (3 # 100) (cell_at (columns T') r))
      as (x & Hx & Hle).
    + apply Hpass. rewrite !in_app_iff. left. now apply when_col_In.
    + exists x. split; [exact Hx |]. destruct x; try discriminate; exact Hle.
  - intros col [<- | [<- | []]] Hc.
    + destruct (ge_filled_true "實際產出" 0 (cell_at (columns T') r)) as (x & Hx & Hle).
      * apply Hpass. rewrite !in_app_iff. right. left. now apply when_col_In.
      * exists x. split; [exact Hx |]. destruct x; auto.
    + destruct (ge_filled_true "實際CT" 0 (cell_at (columns T') r)) as (x & Hx & Hle).
      * apply Hpass. rewrite !in_app_iff. do 2 right. left. now apply when_col_In.
      * exists x. split; [exact Hx |]. destruct x; auto.
  - intros Hc. split.
    + apply (notna_true "姓名"). apply Hpass. rewrite !in_app_iff.
      do 8 right. now apply when_col_In.
    + assert (Hn := not_isin_true "姓名" ["MFGR"; "MFG_R"] (cell_at (columns T') r)).
      split; apply Hn; try (simpl; tauto); apply Hpass; rewrite !in_app_iff;
        do 4 right; left; now apply when_col_In.
  - intros col [<- | [<- | []]] Hc.
    + apply (notna_true "工站"). apply Hpass. rewrite !in_app_iff.
      do 6 right. left. now apply when_col_In.
    + apply (notna_true "標準CT"). apply Hpass. rewrite !in_app_iff.
      do 7 right. left. now apply when_col_In.
  - intros Hc. apply (not_isin_true "效率"). apply Hpass. rewrite !in_app_iff.
    do 3 right. left. now apply when_col_In.
Qed.

Lemma kept_rows_meet_conditions_witness :
  let T := sample_selected in
  let T' := sample_kept in
  Forall
    (fun r =>
       (has_col "人員作業時間" T = true ->
        exists x, view T' r "人員作業時間" = Num x
                  /\ Float.leb (Fin (3 # 100)) x = true)
       /\ (forall col, In col ["實際產出"; "實際CT"] -> has_col col T = true ->
           exists x, view T' r col = Num x
                     /\ (Float.isnan x = true \/ Float.leb (Fin 0) x = true))
       /\ (has_col "姓名" T = true ->
           isna (view T' r "姓名") = false
           /\ view T' r "姓名" <> Str "MFGR" /\ view T' r "姓名" <> Str "MFG_R")
       /\ (forall col, In col ["工站"; "標準CT"] -> has_col col T = true ->
           isna (view T' r col) = false)
       /\ (has_col "效率" T = true ->
           forall s, In s ["0.0%"; "inf%"; "nan%"] -> view T' r "效率" <> Str s))
    (rows T').
Proof.
  apply (kept_rows_meet_conditions sample_selected sample_kept). reflexivity.
Defined.

(** ** The filter works row by row *)

Lemma filterR_app {A} (p : A -> result bool) a b ka kb :
  filterR p a = Ok ka -> filterR p b = Ok kb -> filterR p (a ++ b) = Ok (ka ++ kb).
Proof.
  revert ka. induction a as [| x a IH]; simpl; intros ka Ha Hb.
  - injection Ha as <-. exact Hb.
  - destruct (p x) as [bx |]; [| discriminate]. cbn [result_bind] in *.
    destruct (filterR p a) as [ra |]; [| discriminate]. cbn [result_bind] in *.
    injection Ha as <-. rewrite (IH ra eq_refl Hb). cbn [result_bind].
    now destruct bx.
Qed.

Lemma filterR_ext {A} (p q : A -> result bool) l :
  (forall a, p a = q a) -> filterR p l = filterR q l.
Proof.
  intros H. induction l as [| x l IH]; [reflexivity |].
  cbn [filterR]. now rewrite H, IH.
Qed.

Lemma quality_filter_rows T T' :
  quality_filter T = Ok T' ->
  filterR (keeps T) (rows T) = Ok (rows T') /\ columns T' = columns T.
Proof.
  rewrite quality_filter_unfold.
  destruct (filterR (keeps T) (rows T)) as [kept |]; [| discriminate].
  cbn [result_bind]. intros H. injection H as <-. auto.
Qed.

(** X4. The filter decides on each row by itself: the filter of two
    tables of one header put one after the other is the filter of the
    first followed by the filter of the second. *)
Theorem quality_filter_app (cols : list string) (a b : list row) (A B : table) :
  quality_filter {| columns := cols; rows := a |} = Ok A ->
  quality_filter {| columns := cols; rows := b |} = Ok B ->
  quality_filter {| columns := cols; rows := a ++ b |}
  = Ok {| columns := cols; rows := rows A ++ rows B |}.
Proof.
  intros HA HB.
  apply quality_filter_rows in HA as [HA _]. apply quality_filter_rows in HB as [HB _].
  rewrite quality_filter_unfold. cbn [rows columns] in *.
  assert (Hk : forall rs r, keeps {| columns := cols; rows := rs |} r
                            = keeps {| columns := cols; rows := a ++ b |} r).
  { intros rs r. unfold keeps. cbn [columns].
    now rewrite (filter_conditions_header {| columns := cols; rows := a ++ b |}
                   {| columns := cols; rows := rs |} eq_refl). }
  rewrite (filterR_app _ a b (rows A) (rows B)); [reflexivity | |].
  - rewrite <- HA. apply filterR_ext. intros r. symmetry. apply Hk.
  - rewrite <- HB. apply filterR_ext. intros r. symmetry. apply Hk.
Qed.

Lemma quality_filter_app_witness :
  quality_filter {| columns := columns sample_selected;
                    rows := rows sample_selected ++ rows sample_kept |}
  = Ok {| columns := columns sample_selected;
          rows := rows sample_kept ++ rows sample_kept |}.
Proof.
  apply (quality_filter_app (columns sample_selected) (rows sample_selected)
           (rows sample_kept) sample_kept sample_kept); reflexivity.
Defined.

(** ** The renamed headers *)

Lemma map_id_on {A} (f : A -> A) l : (forall a, In a l -> f a = a) -> List.map f l = l.
Proof.
  induction l as [| a l IH]; intros H; [reflexivity |]. cbn [List.map].
  rewrite H by now left. rewrite IH; [reflexivity |]. intros b Hb. apply H. now right.
Qed.

Lemma normalize_1_columns T : columns (normalize_1 T) = List.map canonical_1 (columns T).
Proof.
  unfold normalize_1, rename_mapping_1. cbv zeta.
  destruct (has_col "作業時間" T) eqn:Ha, (has_col "工作內容" T) eqn:Hb.
  all: try apply has_col_false in Ha; try apply has_col_false in Hb.
  all: match goal with
       | |- context [decide (@eq (gmap string string) ∅ ∅)] =>
           rewrite decide_True by reflexivity
       | |- _ => rewrite decide_False by apply insert_non_empty
       end.
  all: cbn [rename_columns columns].
  all: try (symmetry; apply map_id_on); try apply map_ext_in.
  all: intros c Hc; unfold canonical_1.
  all: destruct (String.eqb_spec c "作業時間") as [-> | H1];
    [try contradiction; simplify_map_eq; reflexivity |].
  all: destruct (String.eqb_spec c "工作內容") as [-> | H2];
    [try contradiction; simplify_map_eq; reflexivity |].
  all: try reflexivity; simplify_map_eq; reflexivity.
Qed.

Lemma normalize_2_columns T : columns (normalize_2 T) = List.map canonical_2 (columns T).
Proof.
  unfold normalize_2, rename_mapping_2. cbv zeta.
  destruct (has_col "產出" T) eqn:Ha, (has_col "RUN總時數" T) eqn:Hb.
  all: try apply has_col_false in Ha; try apply has_col_false in Hb.
  all: match goal with
       | |- context [decide (@eq (gmap string string) ∅ ∅)] =>
           rewrite decide_True by reflexivity
       | |- _ => rewrite decide_False by apply insert_non_empty
       end.
  all: cbn [rename_columns columns].
  all: try (symmetry; apply map_id_on); try apply map_ext_in.
  all: intros c Hc; unfold canonical_2.
  all: destruct (String.eqb_spec c "產出") as [-> | H1];
    [try contradiction; simplify_map_eq; reflexivity |].
  all: destruct (String.eqb_spec c "RUN總時數") as [-> | H2];
    [try contradiction; simplify_map_eq; reflexivity |].
  all: try reflexivity; simplify_map_eq; reflexivity.
Qed.

Lemma normalize_rows T : rows (normalize_1 T) = rows T /\ rows (normalize_2 T) = rows T.
Proof.
  unfold normalize_1, normalize_2. cbv zeta.
  split; case_decide; reflexivity.
Qed.

(** X5. The renaming of a sheet touches the header only, label by label
    and in place: the cells are kept, 作業時間 becomes 標工 and 工作內容
    becomes 工站 in the first sheet, 產出 becomes 實際產出 and RUN總時數
    becomes 人員作業時間 in the second, every other label is kept, and no
    source label is left. *)
Theorem normalize_header (T : table) :
  rows (normalize_1 T) = rows T
  /\ rows (normalize_2 T) = rows T
  /\ columns (normalize_1 T) = List.map canonical_1 (columns T)
  /\ columns (normalize_2 T) = List.map canonical_2 (columns T)
  /\ has_col "作業時間" (normalize_1 T) = false
  /\ has_col "工作內容" (normalize_1 T) = false
  /\ has_col "產出" (normalize_2 T) = false
  /\ has_col "RUN總時數" (normalize_2 T) = false.
Proof.
  destruct (normalize_rows T) as [H1 H2].
  repeat split; try assumption; try apply normalize_1_columns;
    try apply normalize_2_columns.
  all: apply has_col_false; rewrite ?normalize_1_columns, ?normalize_2_columns.
  all: rewrite in_map_iff; intros (c & Hc & _); revert Hc.
  all: unfold canonical_1, canonical_2.
  all: repeat match goal with
         | |- context [String.eqb ?a ?b] =>
             destruct (String.eqb_spec a b); try discriminate
         end; congruence.
Qed.

(** ** The keys of the join *)

Lemma has_col_processed c df : has_col c (processed df) = has_col c df.
Proof. unfold has_col. now rewrite columns_processed. Qed.

Lemma Forall2_right_inv {A B} (R : A -> B -> Prop) l l' :
  Forall2 R l l' -> forall y, In y l' -> exists x, In x l /\ R x y.
Proof.
  induction 1 as [| x y l l' Hxy _ IH]; intros z [].
  - subst. exists x. split; [now left | exact Hxy].
  - destruct (IH z) as (x' & Hin & Hr); [assumption |].
    exists x'. split; [now right | exact Hr].
Qed.

(** X6. With 料號 as the only key no row is dropped: the column is turned
    into text before the rows with a missing key are removed, so a missing
    part number is the text [nan] by then, and its row goes into the
    join. *)
Theorem part_number_key_keeps_every_row (df : table) :
  has_col "料號" df = true ->
  exists out,
    join_input ["料號"] df = Ok out
    /\ Forall2 (fun r r' => exists s,
                    view out r' "料號" = Str s
                    /\ (isna (view df r "料號") = true -> s = "nan"))
               (rows df) (rows out).
Proof.
  intros Hc. unfold join_input, dropna. cbn [forallb].
  rewrite has_col_processed, Hc. cbn [andb]. eexists. split; [reflexivity |].
  cbn [rows columns].
  pose proof (stage_processed df) as Hs. unfold stage in Hs.
  assert (Hstr : Forall2 (fun r r' => exists s,
                    view (processed df) r' "料號" = Str s
                    /\ (isna (view df r "料號") = true -> s = "nan"))
                   (rows df) (rows (processed df))).
  { eapply Forall2_impl; [| exact Hs]. cbv beta. intros r r' [Ht _].
    destruct (Ht "料號") as [b Hb]; [simpl; tauto | exact Hc |].
    eexists. split; [exact Hb |].
    intros Hna. destruct (view df r "料號") as [[| | | q] | s]; try discriminate.
    reflexivity. }
  rewrite filter_all; [exact Hstr |].
  apply Forall_forall. intros r' Hr'.
  destruct (Forall2_right_inv _ _ _ Hstr r' Hr') as (r & _ & s & Hs' & _).
  unfold view in Hs'. now rewrite Hs'.
Qed.

Lemma part_number_key_keeps_every_row_witness :
  exists out,
    join_input ["料號"] output_sheet = Ok out
    /\ Forall2 (fun r r' => exists s,
                    view out r' "料號" = Str s
                    /\ (isna (view output_sheet r "料號") = true -> s = "nan"))
               (rows output_sheet) (rows out).
Proof. apply (part_number_key_keeps_every_row output_sheet). reflexivity. Defined.

Example missing_part_number_joins :
  (let* out := join_input ["料號"] output_sheet in Ok (column "料號" out))
  = Ok [Str "P1"; Str "nan"].
Proof. reflexivity. Qed.

(** X7. A key chosen among the labels the two sheets share is a column of
    both, so the preparation of the join raises nothing on either sheet; a
    key that is no column of a sheet is a [KeyError]. *)
Theorem join_keys (df1 df2 : table) (merge_columns : list string) :
  Forall (fun k => k ∈ common_columns df1 df2) merge_columns ->
  (exists out1 out2,
      join_input merge_columns df1 = Ok out1
      /\ join_input merge_columns df2 = Ok out2
      /\ columns out1 = columns df1 /\ columns out2 = columns df2)
  /\ forall df k, In k merge_columns -> has_col k df = false ->
                  join_input merge_columns df = Raise KeyError.
Proof.
  intros Hk. split.
  - assert (H : forall df, Forall (fun k => In k (columns df)) merge_columns ->
                           exists out, join_input merge_columns df = Ok out
                                       /\ columns out = columns df).
    { intros df Hin. unfold join_input, dropna.
      assert (Hall : forallb (fun k => has_col k (processed df)) merge_columns = true).
      { apply forallb_forall. intros k Hkin. rewrite has_col_processed.
        apply has_col_In. rewrite Forall_forall in Hin. now apply Hin. }
      rewrite Hall. eexists. split; [reflexivity |]. apply columns_processed. }
    destruct (H df1) as (o1 & H1 & C1).
    { eapply Forall_impl; [| exact Hk]. intros k Hc. unfold common_columns in Hc.
      apply elem_of_intersection in Hc as [Hc _].
      now apply elem_of_list_to_set, list_elem_of_In in Hc. }
    destruct (H df2) as (o2 & H2 & C2).
    { eapply Forall_impl; [| exact Hk]. intros k Hc. unfold common_columns in Hc.
      apply elem_of_intersection in Hc as [_ Hc].
      now apply elem_of_list_to_set, list_elem_of_In in Hc. }
    exists o1, o2. auto.
  - intros df k Hin Hno. unfold join_input, dropna.
    assert (Hall : forallb (fun k => has_col k (processed df)) merge_columns = false).
    { apply not_true_is_false. intros Ht. rewrite forallb_forall in Ht.
      specialize (Ht k Hin). rewrite has_col_processed in Ht. congruence. }
    now rewrite Hall.
Qed.

Lemma join_keys_witness :
  (exists out1 out2,
      join_input ["料號"; "姓名"] time_sheet = Ok out1
      /\ join_input ["料號"; "姓名"] output_sheet = Ok out2
      /\ columns out1 = columns time_sheet /\ columns out2 = columns output_sheet)
  /\ forall df k, In k ["料號"; "姓名"] -> has_col k df = false ->
                  join_input ["料號"; "姓名"] df = Raise KeyError.
Proof.
  apply (join_keys time_sheet output_sheet ["料號"; "姓名"]).
  repeat constructor; vm_compute; reflexivity.
Defined.

(** ** Cycle times *)






Example ct_abnormal_names :
  column "姓名" (abnormal ct_analysis) = [Str "amy"; Str "cat"].
Proof. reflexivity. Qed.

(** ** The table of station metrics *)

Lemma string_leb_trans s1 s2 s3 :
  String.leb s1 s2 = true -> String.leb s2 s3 = true -> String.leb s1 s3 = true.
Proof.
  revert s2 s3. induction s1 as [| c1 s1 IH]; intros [| c2 s2] [| c3 s3];
    unfold String.leb; cbn [String.compare]; try reflexivity; try discriminate.
  unfold Ascii.compare.
  destruct (N.compare_spec (N_of_ascii c1) (N_of_ascii c2)) as [E12 | L12 | G12];
    destruct (N.compare_spec (N_of_ascii c2) (N_of_ascii c3)) as [E23 | L23 | G23];
    destruct (N.compare_spec (N_of_ascii c1) (N_of_ascii c3)) as [E13 | L13 | G13];
    try lia; try discriminate; try reflexivity.
  apply IH.
Qed.

Lemma string_leb_false s t : String.leb s t = false -> String.leb t s = true.
Proof. intros H. destruct (String.leb_total s t) as [E | E]; congruence. Qed.

Lemma cell_leb_trans a b c :
  cell_leb a b = true -> cell_leb b c = true -> cell_leb a c = true.
Proof.
  destruct a, b, c; simpl; try discriminate; try reflexivity.
  - apply leb_trans.
  - apply string_leb_trans.
Qed.

Lemma cell_leb_false a b :
  isna a = false -> isna b = false -> cell_leb a b = false -> cell_leb b a = true.
Proof.
  destruct a as [x | s], b as [y | t]; simpl; try discriminate; try reflexivity.
  - destruct x as [| | | p], y as [| | | q]; simpl; try discriminate; try reflexivity.
    intros _ _ H. apply Qle_bool_iff. apply Qlt_le_weak. apply Qnot_le_lt.
    intros Hle. apply Qle_bool_iff in Hle. congruence.
  - intros _ _. apply string_leb_false.
Qed.

Lemma insert_sorted_strict k l :
  isna k = false -> Forall (fun k' => isna k' = false) l ->
  Forall (fun k' => cell_eqb k k' = false) l ->
  StronglySorted key_lt l -> StronglySorted key_lt (insert_sorted k l).
Proof.
  intros Hk Hna Hne Hs. induction Hs as [| k' l Hs IH Hall]; simpl.
  - repeat constructor.
  - apply Forall_cons_iff in Hna as [Hk' Hna]. apply Forall_cons_iff in Hne as [Hkk' Hne].
    destruct (cell_leb k k') eqn:E.
    + constructor; [now constructor |]. constructor; [now split |].
      rewrite Forall_forall in *. intros x Hx. split; [| now apply Hne].
      apply cell_leb_trans with k'; [exact E | apply (Hall x Hx)].
    + constructor; [now apply IH |].
      assert (Hk'k : key_lt k' k).
      { split; [now apply cell_leb_false | now rewrite cell_eqb_sym]. }
      rewrite Forall_forall in *. intros x Hx.
      apply (Permutation_in _ (insert_sorted_perm k l)) in Hx as [<- | Hx]; auto.
Qed.

Lemma filter_strongly_sorted {A} (R : A -> A -> Prop) (f : A -> bool) l :
  StronglySorted R l -> StronglySorted R (List.filter f l).
Proof.
  induction 1 as [| a l Hs IH Hall]; simpl; [constructor |].
  destruct (f a); [| exact IH]. constructor; [exact IH |].
  rewrite Forall_forall in *. intros x Hx. apply filter_In in Hx as [Hx _]. auto.
Qed.

Lemma distinct_pairwise l :
  StronglySorted (fun a b => cell_eqb a b = false) (distinct l).
Proof.
  induction l as [| a l IH]; simpl; constructor.
  - now apply filter_strongly_sorted.
  - apply Forall_forall. intros x Hx. apply filter_In in Hx as [_ Hx].
    now apply negb_true_iff in Hx.
Qed.

Lemma sort_keys_strict l :
  Forall (fun k => isna k = false) l ->
  StronglySorted (fun a b => cell_eqb a b = false) l ->
  StronglySorted key_lt (sort_keys l).
Proof.
  intros Hna Hd. induction Hd as [| k l Hd IH Hall]; simpl; [constructor |].
  apply Forall_cons_iff in Hna as [Hk Hna].
  apply insert_sorted_strict; auto.
  - rewrite Forall_forall in *. intros x Hx. apply Hna.
    now apply (Permutation_in _ (sort_keys_perm l)).
  - rewrite Forall_forall in *. intros x Hx. apply Hall.
    now apply (Permutation_in _ (sort_keys_perm l)).
Qed.

(** X9. The table of station metrics has one row for each station of the
    analysis table and no other: its keys are stations of records, none is
    missing, they come in strictly ascending order (so no station twice),
    and every record with a station has its row. *)
Theorem station_metrics_rows (df : table) :
  let keys := List.map (fun m => nth 0 m NA) (rows (station_metrics df)) in
  keys = column "工站" (station_metrics df)
  /\ Forall (fun k => isna k = false
                      /\ exists r, In r (rows df) /\ station_of df r = k) keys
  /\ StronglySorted (fun a b => cell_leb a b = true /\ cell_eqb a b = false) keys
  /\ forall r, In r (rows df) -> isna (station_of df r) = false ->
               exists k, In k keys /\ cell_eqb k (station_of df r) = true.
Proof.
  cbv zeta. rewrite station_metrics_keys. split; [| split; [| split]].
  - unfold column, station_metrics. cbn [rows columns]. rewrite List.map_map.
    symmetry. apply List.map_id.
  - apply Forall_forall. intros k Hk. now apply group_keys_In.
  - unfold group_keys. apply sort_keys_strict.
    + apply Forall_forall. intros k Hk. apply distinct_incl in Hk.
      apply filter_In in Hk as [_ Hk]. now apply negb_true_iff in Hk.
    + apply distinct_pairwise.
  - intros r Hr Hna.
    destruct (group_keys_one df (station_of df r)) as (k & Hk & Hf).
    { exists r. split; [exact Hr | now apply cell_eqb_refl]. }
    exists k. split; [| exact Hk].
    assert (Hin : In k (List.filter (fun k => cell_eqb k (station_of df r)) (group_keys df)))
      by (rewrite Hf; now left).
    now apply filter_In in Hin as [Hin _].
Qed.

(** ** The text of the percentage *)

Lemma rint_small y : 0 <= y -> y <= 1 # 2 -> Float.rint y = 0%Z.
Proof.
  intros H0 H1.
  assert (Hf : Qfloor y = 0%Z).
  { apply Z.le_antisymm.
    - change 0%Z with (Qfloor (1 # 2)). now apply Qfloor_resp_le.
    - change 0%Z with (Qfloor 0). now apply Qfloor_resp_le. }
  unfold Float.rint. rewrite Hf.
  destruct (Float.Qltb (y - inject_Z 0) (1 # 2)) eqn:E1; [reflexivity |].
  destruct (Float.Qltb (1 # 2) (y - inject_Z 0)) eqn:E2; [| reflexivity].
  apply Qltb_true in E2. change (inject_Z 0) with 0 in E2. lra.
Qed.

(** What a percentage text reads back as. *)
Lemma percent_text_value x lit :
  (Text.float_str (Float.round2 x) ++ "%")%string = lit ->
  Float.eqv (Text.parse_float (Text.remove_percent lit)) (Float.round2 x).
Proof.
  intros <-. rewrite remove_percent_float_str. apply parse_float_str_round2.
Qed.

(** X10. The three texts the quality filter excludes are the texts of a
    missing ratio, of an infinite positive one, and of one that rounds to
    zero (a ratio of at most 0.00005); the text of a negative infinite
    ratio is another one, which the exclusion lets through. *)
Theorem excluded_percent_texts (x : num) (s : string) :
  percent_text (Num x) = Ok (Str s) ->
  (s = "nan%" <-> x = NaN)
  /\ (s = "inf%" <-> x = PInf)
  /\ (x = NInf -> s = "-inf%")
  /\ forall q, x = Fin q -> 0 <= q -> (s = "0.0%" <-> q <= 1 # 20000).
Proof.
  cbn [percent_text]. intros H. injection H as H.
  pose proof (percent_text_value _ _ H) as Hv.
  split; [| split; [| split]].
  - split.
    + intros ->. destruct x as [| | | q]; [reflexivity | | |]; vm_compute in Hv;
        contradiction.
    + intros ->. rewrite <- H. reflexivity.
  - split.
    + intros ->. destruct x as [| | | q]; [| reflexivity | |]; vm_compute in Hv;
        contradiction.
    + intros ->. rewrite <- H. reflexivity.
  - intros ->. rewrite <- H. reflexivity.
  - intros q -> Hq. cbn [Float.mul Float.of_nat Float.round2] in *.
    set (y := q * inject_Z (Z.of_nat 100) * 100) in *.
    assert (Hy : y == q * 10000).
    { unfold y. change (inject_Z (Z.of_nat 100)) with 100. ring. }
    split.
    + intros ->. change (Text.parse_float (Text.remove_percent "0.0%"))
        with (Text.parse_float "0.0") in Hv.
      assert (Hz : Float.rint y = 0%Z).
      { destruct (Text.parse_float "0.0") as [| | | p] eqn:Ep; try contradiction.
        vm_compute in Ep. injection Ep as <-. cbn [Float.eqv] in Hv.
        unfold Qeq in Hv. cbn in Hv. lia. }
      destruct (rint_bounds y) as [_ Hb]. rewrite Hz in Hb.
      change (inject_Z 0) with 0 in Hb. lra.
    + intros Hle. rewrite <- H. rewrite rint_small by lra. reflexivity.
Qed.

Lemma excluded_percent_texts_witness :
  ("0.0%" = "nan%" <-> Fin 0 = NaN)
  /\ ("0.0%" = "inf%" <-> Fin 0 = PInf)
  /\ (Fin 0 = NInf -> "0.0%" = "-inf%")
  /\ forall q, Fin 0 = Fin q -> 0 <= q -> ("0.0%" = "0.0%" <-> q <= 1 # 20000).
Proof. apply (excluded_percent_texts (Fin 0) "0.0%"). reflexivity. Defined.

(** ** The ratios of a run *)

Lemma advanced_analysis_groups F a :
  advanced_analysis F = Analysed a ->
  low a = low_efficiency (analysis_df a) /\ high a = high_efficiency (analysis_df a).
Proof.
  unfold advanced_analysis. destruct (enough_columns F); [| discriminate].
  intros H. injection H as <-. cbn [analysis_df low high]. auto.
Qed.

(** X11. In every run that reaches the advanced analysis, the analysis
    table has one record for each filtered record; a record of the
    low-efficiency group has a ratio from 0.2 to below 0.8, a record of the
    high-efficiency group one above 1.05 up to 1.5, and every other analysed
    record one from 0.8 to 1.05. *)
Theorem anomaly_groups_of_run
        (st : gmap string table) (merged_df : table) (r : run) (a : analysis) :
  run_analysis st merged_df = Ok r ->
  advanced_out r = Analysed a ->
  List.length (rows (analysis_df a)) = List.length (rows (filtered_out r))
  /\ Forall (fun ra => exists e, efficiency_of (analysis_df a) ra = Fin e
                                 /\ 2 # 10 <= e /\ e < 8 # 10) (rows (low a))
  /\ Forall (fun ra => exists e, efficiency_of (analysis_df a) ra = Fin e
                                 /\ 105 # 100 < e /\ e <= 15 # 10) (rows (high a))
  /\ Forall (fun ra => In ra (rows (low a)) \/ In ra (rows (high a))
                       \/ exists e, efficiency_of (analysis_df a) ra = Fin e
                                    /\ 8 # 10 <= e /\ e <= 105 # 100)
            (rows (analysis_df a)).
Proof.
  intros Hrun Ha.
  destruct (analysis_ratio_range _ _ _ _ Hrun Ha) as [Hlen Hrange].
  apply run_analysis_Ok in Hrun as (_ & _ & Hadv & _). rewrite Hadv in Ha.
  apply advanced_analysis_groups in Ha as [-> ->].
  rewrite Forall_forall in Hrange.
  split; [exact Hlen |]. unfold low_efficiency, high_efficiency, keep_rows. cbn [rows].
  split; [| split]; apply Forall_forall; intros ra Hra.
  - apply filter_In in Hra as [Hra Hlt]. destruct (Hrange ra Hra) as (e & He & Hlo & Hhi).
    exists e. rewrite He in Hlt. cbn [Float.ltb] in Hlt. apply Qltb_true in Hlt.
    unfold too_low in Hlt. auto.
  - apply filter_In in Hra as [Hra Hlt]. destruct (Hrange ra Hra) as (e & He & Hlo & Hhi).
    exists e. rewrite He in Hlt. cbn [Float.ltb] in Hlt. apply Qltb_true in Hlt.
    unfold too_high in Hlt. auto.
  - destruct (Hrange ra Hra) as (e & He & Hlo & Hhi). rewrite !filter_In, He.
    cbn [Float.ltb].
    destruct (Float.Qltb e too_low) eqn:E1; [left; auto |].
    destruct (Float.Qltb too_high e) eqn:E2; [right; left; auto |].
    right. right. exists e. apply Qltb_false in E1, E2.
    unfold too_low, too_high in *. auto.
Qed.

Lemma anomaly_groups_of_run_witness :
  let a := sample_analysis in
  List.length (rows (analysis_df a)) = List.length (rows (filtered_out sample_run))
  /\ Forall (fun ra => exists e, efficiency_of (analysis_df a) ra = Fin e
                                 /\ 2 # 10 <= e /\ e < 8 # 10) (rows (low a))
  /\ Forall (fun ra => exists e, efficiency_of (analysis_df a) ra = Fin e
                                 /\ 105 # 100 < e /\ e <= 15 # 10) (rows (high a))
  /\ Forall (fun ra => In ra (rows (low a)) \/ In ra (rows (high a))
                       \/ exists e, efficiency_of (analysis_df a) ra = Fin e
                                    /\ 8 # 10 <= e /\ e <= 105 # 100)
            (rows (analysis_df a)).
Proof.
  apply (anomaly_groups_of_run ∅ sample_merged sample_run sample_analysis);
    vm_compute; reflexivity.
Defined.

(** X12. When 實際產出 and 理論產出 are columns of the merged table, every
    analysed record comes from a merged record, the records being paired
    in order, whose two outputs are finite numbers other than zero with a
    quotient from 0.19995 to 1.50005, and its ratio is at most 0.00005 off
    that quotient: a record without output, without theoretical output, or
    with a missing one is never analysed. *)
Theorem analysed_outputs
        (st : gmap string table) (merged_df : table) (r : run) (a : analysis) :
  has_col "實際產出" merged_df = true ->
  has_col "理論產出" merged_df = true ->
  run_analysis st merged_df = Ok r ->
  advanced_out r = Analysed a ->
  exists records,
    sublist records (rows merged_df)
    /\ Forall2
         (fun m ra => exists o t e,
              view merged_df m "實際產出" = Num (Fin o)
              /\ view merged_df m "理論產出" = Num (Fin t)
              /\ ~ o == 0 /\ ~ t == 0
              /\ 19995 # 100000 <= o / t /\ o / t <= 150005 # 100000
              /\ efficiency_of (analysis_df a) ra = Fin e
              /\ Qabs (e - o / t) <= 1 # 20000)
         records (rows (analysis_df a)).
Proof.
  intros Ho Ht Hrun Ha.
  destruct (analysed_records _ _ _ _ Ho Ht Hrun Ha) as (records & Hsub & HR).
  destruct (analysis_ratio_range _ _ _ _ Hrun Ha) as [_ Hrange].
  exists records. split; [exact Hsub |].
  clear -HR Hrange. induction HR as [| m ra l l' H _ IH]; [constructor |].
  apply Forall_cons_iff in Hrange as [(e & He & Hlo & Hhi) Hrange].
  constructor; [| now apply IH].
  destruct H as (o & t & Hgo & Hgt & Hv). rewrite He in Hv.
  destruct (rounded_ratio_in_range o t e Hv Hlo Hhi)
    as (qo & qt & k & -> & -> & Hno & Hnt & _ & Habs & H1 & H2).
  exists qo, qt, e. repeat split; assumption.
Qed.

Lemma analysed_outputs_witness :
  exists records,
    sublist records (rows sample_merged)
    /\ Forall2
         (fun m ra => exists o t e,
              view sample_merged m "實際產出" = Num (Fin o)
              /\ view sample_merged m "理論產出" = Num (Fin t)
              /\ ~ o == 0 /\ ~ t == 0
              /\ 19995 # 100000 <= o / t /\ o / t <= 150005 # 100000
              /\ efficiency_of (analysis_df sample_analysis) ra = Fin e
              /\ Qabs (e - o / t) <= 1 # 20000)
         records (rows (analysis_df sample_analysis)).
Proof.
  apply (analysed_outputs ∅ sample_merged sample_run sample_analysis);
    vm_compute; reflexivity.
Defined.

(** ** Key figures *)

Lemma three_way x :
  ((if Float.leb (Fin (8 # 10)) x then 1 else 0)
   + (if Float.ltb x (Fin too_low) then 1 else 0)
   + (if Float.isnan x then 1 else 0) = 1)%nat.
Proof.
  destruct x as [| | | q]; try reflexivity. cbn [Float.leb Float.ltb Float.isnan].
  unfold Float.Qltb, too_low. destruct (Qle_bool (8 # 10) q); reflexivity.
Qed.

Lemma count_three_ways df l :
  (List.length (List.filter (qualified df) l)
   + List.length (List.filter (fun r => Float.ltb (efficiency_of df r) (Fin too_low)) l)
   + List.length (List.filter (fun r => Float.isnan (efficiency_of df r)) l)
   = List.length l)%nat.
Proof.
  induction l as [| r l IH]; [reflexivity |]. cbn [List.filter].
  pose proof (three_way (efficiency_of df r)) as H. unfold qualified at 1.
  destruct (Float.leb _ _), (Float.ltb _ _), (Float.isnan _);
    cbn [List.length]; simpl in H; lia.
Qed.

Lemma sum_indicator (p : row -> bool) l acc :
  exists s, fold_left Float.add (List.map (fun r => if p r then Fin 1 else Fin 0) l) (Fin acc)
            = Fin s
            /\ s == acc + inject_Z (Z.of_nat (List.length (List.filter p l))).
Proof.
  revert acc. induction l as [| r l IH]; intros acc.
  - exists acc. split; [reflexivity |]. cbn. ring.
  - cbn [List.map fold_left List.filter]. destruct (p r); cbn [Float.add].
    + destruct (IH (acc + 1)) as (s & -> & Hs). exists s. split; [reflexivity |].
      rewrite Hs. cbn [List.length]. rewrite Nat2Z.inj_succ, <- Z.add_1_r, inject_Z_plus.
      change (inject_Z 1) with 1. ring.
    + destruct (IH (acc + 0)) as (s & -> & Hs). exists s. split; [reflexivity |].
      rewrite Hs. ring.
Qed.

(** X13. The share of qualified records shown with the key figures counts
    the records with a ratio of at least 0.8 over all the records: a record
    is qualified, or in the low-efficiency group, or without a ratio, and
    only one of the three, so without missing ratios the share and the
    low-efficiency group make up the table.  On a table without records the
    share is missing. *)
Theorem qualified_rate_counts (df : table) :
  let n := List.length (rows df) in
  let missing :=
    List.length (List.filter (fun r => Float.isnan (efficiency_of df r)) (rows df)) in
  exists k : nat,
    (k + List.length (rows (low_efficiency df)) + missing = n)%nat
    /\ (n = 0%nat -> qualified_rate df = NaN)
    /\ (n <> 0%nat ->
        exists q, qualified_rate df = Fin q
                  /\ q == inject_Z (Z.of_nat k) / inject_Z (Z.of_nat n) * 100).
Proof.
  cbv zeta. exists (List.length (List.filter (qualified df) (rows df))).
  split; [apply count_three_ways |]. unfold qualified_rate. split.
  - intros Hn. destruct (rows df); [reflexivity | discriminate].
  - intros Hn. rewrite mean_unfold. unfold Float.notna.
    set (ind := List.map _ (rows df)).
    assert (Hall : List.filter (fun x => negb (Float.isnan x)) ind = ind).
    { apply filter_all. apply Forall_forall. intros x Hx. unfold ind in Hx.
      apply in_map_iff in Hx as (r & <- & _). now destruct (qualified df r). }
    rewrite Hall. assert (Hlen : List.length ind = List.length (rows df))
      by apply List.length_map.
    rewrite Hlen. destruct (Nat.eqb_spec (List.length (rows df)) 0) as [E | _];
      [contradiction |].
    unfold Float.sum. destruct (sum_indicator (qualified df) (rows df) 0) as (s & Hs & Hq).
    fold ind in Hs. rewrite Hs. unfold Float.of_nat. cbn [Float.div].
    assert (Hz : Qeq_bool (inject_Z (Z.of_nat (List.length (rows df)))) 0 = false).
    { apply not_true_is_false. intros H. apply Qeq_bool_iff in H.
      unfold Qeq in H. cbn in H. lia. }
    rewrite Hz. cbn [Float.mul]. eexists. split; [reflexivity |].
    rewrite Hq. field. intros H. apply Qeq_bool_iff in H. congruence.
Qed.

Example qualified_rate_mixed :
  Float.eqv (qualified_rate mixed_ratios) (Fin 50)
  /\ List.length (rows (low_efficiency mixed_ratios)) = 1%nat.
Proof. split; reflexivity. Qed.

(** ** The stations of the advice *)

Lemma unique_incl l k : In k (unique l) -> In k l.
Proof.
  revert k. induction l as [| a l IH]; simpl; intros k; [tauto |].
  intros [-> | H]; [now left |]. apply filter_In in H as [H _]. right. now apply IH.
Qed.

Lemma same_value_str s k : same_value (Str s) k = cell_eqb (Str s) k.
Proof. unfold same_value. cbn [isna andb]. apply orb_false_r. Qed.

(** Every value has an occurrence in the list of unique values. *)
Lemma unique_covers l k :
  In k l -> exists k', In k' (unique l) /\ (k' = k \/ same_value k' k = true).
Proof.
  induction l as [| a l IH]; [intros [] |]. intros [-> | H].
  - exists k. split; [now left | now left].
  - destruct (IH H) as (k' & Hin & Hk'). cbn [unique].
    destruct (same_value a k') eqn:E.
    + exists a. split; [now left |]. right.
      destruct Hk' as [-> | Hk']; [exact E |].
      unfold same_value in *. apply orb_prop in E, Hk'. apply orb_true_iff.
      destruct E as [E | E], Hk' as [Hk' | Hk'].
      * left. now apply cell_eqb_trans with k'.
      * apply andb_prop in Hk' as [H1 H2]. destruct a as [[| | | ?] |], k' as [[| | | ?] |];
          discriminate.
      * apply andb_prop in E as [H1 H2]. destruct k as [[| | | ?] |], k' as [[| | | ?] |];
          discriminate.
      * apply andb_prop in E as [H1 _]. apply andb_prop in Hk' as [_ H2].
        right. now rewrite H1, H2.
    + exists k'. split; [| exact Hk']. right. apply filter_In. split; [exact Hin |].
      now rewrite E.
Qed.

Lemma join_stations_Ok l :
  Forall (fun k => is_str k = true) l -> exists s, join_stations l = Ok s.
Proof.
  induction 1 as [| k l Hk _ [t Ht]]; [now exists EmptyString |].
  destruct k as [x | s]; [discriminate |]. cbn [join_stations]. rewrite Ht.
  cbn [result_bind]. eauto.
Qed.

Lemma join_stations_Raise l :
  ~ Forall (fun k => is_str k = true) l -> join_stations l = Raise TypeError.
Proof.
  induction l as [| k l IH]; intros H; [exfalso; apply H; constructor |].
  destruct k as [x | s]; [reflexivity |]. cbn [join_stations].
  rewrite IH; [reflexivity |]. intros Hl. apply H. now constructor.
Qed.

Lemma unique_all_text l :
  Forall (fun k => is_str k = true) (unique l) <-> Forall (fun k => is_str k = true) l.
Proof.
  rewrite !Forall_forall. split.
  - intros H k Hk. destruct (unique_covers l k Hk) as (k' & Hin & [-> | Hs]); [auto |].
    specialize (H k' Hin). destruct k' as [x | s]; [discriminate |].
    rewrite same_value_str in Hs. destruct k; [discriminate | reflexivity].
  - intros H k Hk. apply H. now apply unique_incl.
Qed.

Lemma joined_list (l : list cell) :
  (Forall (fun k => is_str k = true) l ->
   exists o, (if (0 <? List.length (unique l))%nat
              then let* s := join_stations (unique l) in Ok (Some s)
              else Ok None) = Ok o)
  /\ (~ Forall (fun k => is_str k = true) l ->
      (if (0 <? List.length (unique l))%nat
       then let* s := join_stations (unique l) in Ok (Some s)
       else Ok None) = Raise TypeError).
Proof.
  split.
  - intros H. destruct (0 <? _)%nat; [| eauto].
    destruct (join_stations_Ok (unique l)) as [s ->]; [now apply unique_all_text |].
    cbn [result_bind]. eauto.
  - intros H. assert (Hu : ~ Forall (fun k => is_str k = true) (unique l))
      by now rewrite unique_all_text.
    destruct (unique l) as [| k u] eqn:E; [exfalso; apply Hu; constructor |].
    cbn [List.length Nat.ltb Nat.leb]. now rewrite (join_stations_Raise _ Hu).
Qed.

Lemma Forall_text_dec (l : list cell) :
  {Forall (fun k => is_str k = true) l} + {~ Forall (fun k => is_str k = true) l}.
Proof.
  apply Forall_dec. intros k. destruct (is_str k); [now left | right; discriminate].
Qed.

(** X14. The advice on stations is produced exactly when the station of
    every record of the high-efficiency and of the low-efficiency group is
    a text; with a station given as a number (or missing) in one of the two
    groups, joining the station names raises a [TypeError], and nothing
    else is ever raised. *)
Theorem station_advice_needs_text (df : table) :
  ((exists a, station_advice df = Ok a)
   <-> Forall (fun r => is_str (station_of df r) = true)
              (rows (high_efficiency df) ++ rows (low_efficiency df)))
  /\ ((exists e, station_advice df = Raise e) -> station_advice df = Raise TypeError).
Proof.
  assert (Hcol : forall T : table, columns T = columns df ->
            (Forall (fun k => is_str k = true) (column "工站" T)
             <-> Forall (fun r => is_str (station_of df r) = true) (rows T))).
  { intros T HT. unfold column, station_of. rewrite Forall_map, HT. reflexivity. }
  pose proof (Hcol (high_efficiency df) eq_refl) as Hh.
  pose proof (Hcol (low_efficiency df) eq_refl) as Hl.
  rewrite Forall_app, <- Hh, <- Hl. unfold station_advice. cbv zeta.
  destruct (joined_list (column "工站" (high_efficiency df))) as [H1 H1'].
  destruct (joined_list (column "工站" (low_efficiency df))) as [H2 H2'].
  destruct (Forall_text_dec (column "工站" (high_efficiency df))) as [Th | Th];
    destruct (Forall_text_dec (column "工站" (low_efficiency df))) as [Tl | Tl].
  - destruct (H1 Th) as [h ->]. destruct (H2 Tl) as [l ->]. cbn [result_bind].
    split; [split; eauto | intros [e He]; discriminate].
  - destruct (H1 Th) as [h ->]. rewrite (H2' Tl). cbn [result_bind].
    split; [split; [intros [a Ha]; discriminate | tauto] | reflexivity].
  - rewrite (H1' Th). cbn [result_bind].
    split; [split; [intros [a Ha]; discriminate | tauto] | reflexivity].
  - rewrite (H1' Th). cbn [result_bind].
    split; [split; [intros [a Ha]; discriminate | tauto] | reflexivity].
Qed.

Example numbered_stations_advice :
  station_advice numbered_stations = Raise TypeError
  /\ station_advice mixed_ratios = Ok (Some "B", Some "A").
Proof. split; reflexivity. Qed.

(** ** Blank labels *)

Lemma stage_assign_if_full c f T :
  stage (fun g g' => (has_col c T = true -> g' c = f g)
                     /\ forall c', c' <> c -> g' c' = g c') T (assign_if c f T).
Proof.
  unfold assign_if. destruct (has_col c T).
  - eapply stage_impl; [apply stage_assign |]. intros g g' [H1 H2]. auto.
  - apply stage_same. intros g. split; [discriminate | reflexivity].
Qed.

Lemma has_col_assign_if c f T c' : has_col c' (assign_if c f T) = has_col c' T.
Proof. unfold has_col. now rewrite columns_assign_if. Qed.

Lemma efficiency_value_stage T T' :
  efficiency_value T = Ok T' ->
  (forall c, c <> "效率值" -> has_col c T' = has_col c T)
  /\ stage (fun g g' => forall c, c <> "效率值" -> g' c = g c) T T'.
Proof.
  unfold efficiency_value. destruct (has_col "效率" T).
  - destruct (_ || _); [| discriminate]. intros H. injection H as <-. split.
    + intros c Hc. now apply has_col_assign_other.
    + eapply stage_impl; [apply stage_assign |]. now intros g g' [_ H].
  - intros H. injection H as <-. split; [reflexivity | now apply stage_same].
Qed.

Lemma convert_blank S0 S :
  convert S0 = Ok S ->
  (forall col, In col ["姓名"; "工站"; "標準CT"] -> has_col col S = has_col col S0)
  /\ stage (fun g g' => forall col, In col ["姓名"; "工站"; "標準CT"] ->
                                    has_col col S0 = true ->
                                    g' col = blank_to_nan (g col)) S0 S.
Proof.
  unfold convert.
  set (d1 := assign_if "實際產出" _ S0). set (d2 := assign_if "實際CT" _ d1).
  destruct (efficiency_value d2) as [d3 |] eqn:E3; [| discriminate].
  cbn [result_bind fold_left]. intros H. injection H as <-.
  apply efficiency_value_stage in E3 as [Hc3 Hs3].
  assert (Hh : forall col, In col ["姓名"; "工站"; "標準CT"] -> has_col col d3 = has_col col S0).
  { intros col Hin. rewrite Hc3.
    - unfold d2, d1. now rewrite !has_col_assign_if.
    - simpl in Hin. intuition (subst; discriminate). }
  split.
  - intros col Hin. rewrite !has_col_assign_if. now apply Hh.
  - assert (S03 : stage (fun g g' => forall col, In col ["姓名"; "工站"; "標準CT"] ->
                                                 g' col = g col) S0 d3).
    { eapply stage_trans; [| exact Hs3 |].
      - eapply stage_trans; [apply stage_assign_if | apply stage_assign_if |].
        intros g1 g2 g3 H1 H2.
        exact (fun c (Hc1 : c <> "實際產出") (Hc2 : c <> "實際CT") =>
                 eq_trans (H2 c Hc2) (H1 c Hc1)).
      - cbv beta. intros g1 g2 g3 H12 H23 col Hin.
        simpl in Hin. rewrite H23, H12; intuition (subst; discriminate). }
    set (a1 := assign_if "姓名" (fun get => blank_to_nan (get "姓名")) d3).
    set (a2 := assign_if "工站" (fun get => blank_to_nan (get "工站")) a1).
    pose proof (stage_assign_if_full "姓名" (fun get => blank_to_nan (get "姓名")) d3) as T1.
    pose proof (stage_assign_if_full "工站" (fun get => blank_to_nan (get "工站")) a1) as T2.
    pose proof (stage_assign_if_full "標準CT" (fun get => blank_to_nan (get "標準CT")) a2)
      as T3.
    fold a1 in T1. fold a2 in T2.
    assert (H1 : has_col "姓名" d3 = has_col "姓名" S0) by (apply Hh; simpl; tauto).
    assert (H2 : has_col "工站" a1 = has_col "工站" S0).
    { unfold a1. rewrite has_col_assign_if. apply Hh; simpl; tauto. }
    assert (H3 : has_col "標準CT" a2 = has_col "標準CT" S0).
    { unfold a2, a1. rewrite !has_col_assign_if. apply Hh; simpl; tauto. }
    rewrite H1 in T1. rewrite H2 in T2. rewrite H3 in T3.
    set (keep := fun g g' : string -> cell =>
                   forall col, In col ["姓名"; "工站"; "標準CT"] -> g' col = g col) in *.
    assert (U1 : stage (fun g g' =>
                          (has_col "姓名" S0 = true -> g' "姓名" = blank_to_nan (g "姓名"))
                          /\ g' "工站" = g "工站" /\ g' "標準CT" = g "標準CT") S0 a1).
    { eapply stage_trans; [exact S03 | exact T1 |]. cbv beta.
      intros g0 g3 g4 H03 [N1 O1]. unfold keep in H03. repeat split.
      - intros Hc. rewrite (N1 Hc), H03; [reflexivity | simpl; tauto].
      - rewrite O1 by discriminate. apply H03. simpl. tauto.
      - rewrite O1 by discriminate. apply H03. simpl. tauto. }
    assert (U2 : stage (fun g g' =>
                          (has_col "姓名" S0 = true -> g' "姓名" = blank_to_nan (g "姓名"))
                          /\ (has_col "工站" S0 = true -> g' "工站" = blank_to_nan (g "工站"))
                          /\ g' "標準CT" = g "標準CT") S0 a2).
    { eapply stage_trans; [exact U1 | exact T2 |]. cbv beta.
      intros g0 g4 g5 (A1 & A2 & A3) [N2 O2]. repeat split.
      - intros Hc. rewrite O2 by discriminate. auto.
      - intros Hc. rewrite (N2 Hc), A2. reflexivity.
      - rewrite O2 by discriminate. exact A3. }
    eapply stage_trans; [exact U2 | exact T3 |]. cbv beta.
    intros g0 g5 g6 (A1 & A2 & A3) [N3 O3] col Hin Hcol.
    simpl in Hin. destruct Hin as [<- | [<- | [<- | []]]].
    + rewrite O3 by discriminate. auto.
    + rewrite O3 by discriminate. auto.
    + rewrite (N3 Hcol), A3. reflexivity.
Qed.

Lemma blank_to_nan_kept c :
  isna (blank_to_nan c) = false ->
  blank_to_nan c = c /\ isna c = false
  /\ forall s, c = Str s -> Text.is_blank s = false.
Proof.
  destruct c as [x | s]; cbn [blank_to_nan].
  - intros H. repeat split; [exact H | discriminate].
  - destruct (Text.is_blank s) eqn:E; [discriminate |]. intros _.
    repeat split. intros s' H. injection H as <-. exact E.
Qed.

Lemma Forall2_Forall_and_r {A B} (R : A -> B -> Prop) (P : B -> Prop) l l' :
  Forall2 R l l' -> Forall P l' -> Forall2 (fun a b => R a b /\ P b) l l'.
Proof.
  induction 1 as [| a b l l' H _ IH]; intros HP; [constructor |].
  apply Forall_cons_iff in HP as [Hb HP]. constructor; auto.
Qed.

Lemma notna_condition_In col T :
  In col ["姓名"; "工站"; "標準CT"] -> has_col col T = true ->
  In (notna col) (filter_conditions T).
Proof.
  intros Hin Hc. unfold filter_conditions. rewrite !in_app_iff.
  simpl in Hin. destruct Hin as [<- | [<- | [<- | []]]].
  - do 8 right. now apply when_col_In.
  - do 6 right. left. now apply when_col_In.
  - do 7 right. left. now apply when_col_In.
Qed.

(** X15. The records of the filtered table come, in order, from records of
    the merged table whose 姓名, 工站 and 標準CT (each when it is a column)
    are neither missing nor a text of blanks only, and these cells are
    kept as they are: a blank label is turned into a missing value and its
    record is filtered out. *)
Theorem blank_labels_are_filtered (merged_df filtered_df : table) :
  filtered_of merged_df = Ok filtered_df ->
  exists records,
    sublist records (rows merged_df)
    /\ Forall2
         (fun m f => forall col,
              In col ["姓名"; "工站"; "標準CT"] -> has_col col merged_df = true ->
              view filtered_df f col = view merged_df m col
              /\ isna (view merged_df m col) = false
              /\ forall s, view merged_df m col = Str s -> Text.is_blank s = false)
         records (rows filtered_df).
Proof.
  unfold filtered_of. destruct (available_columns merged_df) as [| c0 cs] eqn:Eav.
  - intros H. injection H as <-. exists (rows merged_df). split; [reflexivity |].
    assert (Hno : forall col, In col ["姓名"; "工站"; "標準CT"] ->
                              has_col col merged_df = true -> False).
    { intros col Hin Hc. assert (H : In col (available_columns merged_df)).
      { apply available_In. split; [| exact Hc]. simpl in Hin. simpl.
        intuition. }
      rewrite Eav in H. destruct H. }
    induction (rows merged_df); constructor; auto.
    intros col Hin Hc. destruct (Hno col Hin Hc).
  - rewrite <- Eav. set (av := available_columns merged_df).
    destruct (convert (select av merged_df)) as [S |] eqn:ES; [| discriminate].
    cbn [result_bind]. intros HQ.
    destruct (convert_blank _ _ ES) as [HcS HsS].
    destruct (quality_filter_Ok _ _ HQ) as [Hcols Hrows].
    assert (Hav : forall col, In col ["姓名"; "工站"; "標準CT"] ->
                              has_col col merged_df = true ->
                              In col av /\ has_col col S = true).
    { intros col Hin Hc. assert (Hi : In col av).
      { apply available_In. split; [| exact Hc]. simpl in Hin. simpl. intuition. }
      split; [exact Hi |]. rewrite (HcS col Hin). now apply has_col_In. }
    assert (HMS : stage (fun g g' => forall col, In col ["姓名"; "工站"; "標準CT"] ->
                            has_col col merged_df = true ->
                            g' col = blank_to_nan (g col)) merged_df S).
    { eapply stage_trans; [apply (stage_select av) | exact HsS |]. cbv beta.
      intros g1 g2 g3 H12 H23 col Hin Hc. destruct (Hav col Hin Hc) as [Hi _].
      rewrite H23; [now rewrite H12 | exact Hin | now apply has_col_In]. }
    assert (Hsub : sublist (rows filtered_df) (rows S))
      by (rewrite Hrows; apply filter_sublist).
    destruct (Forall2_sublist_r _ _ _ _ HMS Hsub) as (records & Hrec & HR).
    exists records. split; [exact Hrec |].
    assert (Hkept : Forall (fun f => forall col, In col ["姓名"; "工站"; "標準CT"] ->
                              has_col col merged_df = true ->
                              isna (view filtered_df f col) = false) (rows filtered_df)).
    { apply Forall_forall. intros f Hf col Hin Hc. destruct (Hav col Hin Hc) as [_ HS].
      pose proof (kept_row_passes S filtered_df f (notna col) HQ
                    (notna_condition_In col S Hin HS) Hf) as Hp.
      unfold notna in Hp. injection Hp as Hp. now apply negb_true_iff in Hp. }
    eapply Forall2_impl; [| exact (Forall2_Forall_and_r _ _ _ _ HR Hkept)].
    cbv beta. intros m f [HRmf Hna] col Hin Hc.
    specialize (HRmf col Hin Hc). specialize (Hna col Hin Hc).
    unfold view in *. rewrite Hcols in *. rewrite HRmf in Hna.
    destruct (blank_to_nan_kept _ Hna) as (Heq & Hn & Hb).
    rewrite HRmf, Heq. auto.
Qed.

Lemma blank_labels_are_filtered_witness :
  exists records,
    sublist records (rows (merged_out sample_run))
    /\ Forall2
         (fun m f => forall col,
              In col ["姓名"; "工站"; "標準CT"] ->
              has_col col (merged_out sample_run) = true ->
              view (filtered_out sample_run) f col = view (merged_out sample_run) m col
              /\ isna (view (merged_out sample_run) m col) = false
              /\ forall s, view (merged_out sample_run) m col = Str s ->
                           Text.is_blank s = false)
         records (rows (filtered_out sample_run)).
Proof.
  apply (blank_labels_are_filtered (merged_out sample_run) (filtered_out sample_run)).
  vm_compute. reflexivity.
Defined.

(** ** The share of filtered rows *)

Lemma rows_rename_standard_ct M : rows (rename_standard_ct M) = rows M.
Proof. unfold rename_standard_ct. now destruct (has_col "標工" M). Qed.

Lemma assignM_length c f T T' :
  assignM c f T = Ok T' -> List.length (rows T') = List.length (rows T).
Proof. intros H. apply stage_assignM in H as [_ H]. exact (stage_length _ _ _ H). Qed.

Lemma derive_length M D :
  derive M = Ok D -> List.length (rows D) = List.length (rows M).
Proof.
  unfold derive.
  destruct (with_actual_ct (rename_standard_ct M)) as [d |] eqn:E1; [| discriminate].
  cbn [result_bind]. intros E2.
  assert (H1 : List.length (rows d) = List.length (rows M)).
  { rewrite <- (rows_rename_standard_ct M). revert E1. unfold with_actual_ct.
    destruct (_ && _); [apply assignM_length | intros H; now injection H as <-]. }
  rewrite <- H1. revert E2. unfold with_efficiency.
  destruct (_ && _); [| intros H; now injection H as <-].
  destruct (assignM "效率" _ d) as [d' |] eqn:E; [| discriminate].
  cbn [result_bind]. intros E2. rewrite (assignM_length _ _ _ _ E2).
  exact (assignM_length _ _ _ _ E).
Qed.

Lemma filtered_of_length D F :
  filtered_of D = Ok F -> (List.length (rows F) <= List.length (rows D))%nat.
Proof.
  unfold filtered_of. destruct (available_columns D) as [| c cs].
  - intros H. now injection H as <-.
  - destruct (convert (select (c :: cs) D)) as [S |] eqn:ES; [| discriminate].
    cbn [result_bind]. intros HQ.
    destruct (convert_blank _ _ ES) as [_ Hs]. apply stage_length in Hs.
    destruct (quality_filter_Ok _ _ HQ) as [_ Hrows].
    assert (Hsel : List.length (rows (select (c :: cs) D)) = List.length (rows D))
      by (unfold select; cbn [rows]; apply List.length_map).
    rewrite <- Hsel, <- Hs, Hrows. apply filter_length_le.
Qed.

Lemma assignM_empty c f T :
  rows T = [] -> exists T', assignM c f T = Ok T' /\ rows T' = [].
Proof. intros H. unfold assignM. rewrite H. cbn. eauto. Qed.

Lemma derive_empty M : rows M = [] -> exists D, derive M = Ok D /\ rows D = [].
Proof.
  intros H. unfold derive.
  assert (H1 : exists d, with_actual_ct (rename_standard_ct M) = Ok d /\ rows d = []).
  { unfold with_actual_ct. destruct (_ && _).
    - apply assignM_empty. now rewrite rows_rename_standard_ct.
    - eexists. split; [reflexivity | now rewrite rows_rename_standard_ct]. }
  destruct H1 as (d & -> & Hd). cbn [result_bind]. unfold with_efficiency.
  destruct (_ && _); [| eauto].
  destruct (assignM_empty "效率" (fun get => cell_div (get "實際產出") (get "理論產出")) d Hd)
    as (d' & -> & Hd').
  cbn [result_bind]. now apply assignM_empty.
Qed.

Lemma rows_assign_if_empty c f T : rows T = [] -> rows (assign_if c f T) = [].
Proof.
  intros H. unfold assign_if. destruct (has_col c T); [| exact H].
  unfold assign. cbn [rows]. now rewrite H.
Qed.

(** ** Runs on numeric tables *)


Lemma stage_id (P : (string -> cell) -> (string -> cell) -> Prop) T :
  (forall r, P (view T r) (view T r)) -> stage P T T.
Proof. intros H. unfold stage. induction (rows T); constructor; auto. Qed.

Lemma stage_true T T' (P : (string -> cell) -> Prop) (R : (string -> cell) -> (string -> cell) -> Prop) :
  stage R T T' -> (forall g g', R g g' -> P g') -> Forall (fun r' => P (view T' r')) (rows T').
Proof.
  intros HR HP.
  apply (stage_Forall (fun _ => True) P R T T'); [| exact HR |].
  - apply Forall_forall. auto.
  - intros g g' _. apply HP.
Qed.

Lemma stage_rename_keep M :
  stage (fun g g' => forall c, c <> "標工" -> c <> "標準CT" -> g' c = g c)
        M (rename_standard_ct M).
Proof.
  unfold stage. rewrite rows_rename_standard_ct.
  induction (rows M) as [| r l IH]; constructor; [| exact IH].
  intros c H1 H2. unfold view, cell_at. now rewrite rename_standard_ct_index.
Qed.

Lemma with_efficiency_keep M D :
  with_efficiency M = Ok D ->
  (forall c, c <> "效率" -> has_col c D = has_col c M)
  /\ stage (fun g g' => forall c, c <> "效率" -> g' c = g c) M D.
Proof.
  unfold with_efficiency. destruct (_ && _).
  - destruct (assignM "效率" _ M) as [d |] eqn:E1; [| discriminate].
    cbn [result_bind]. intros E2.
    apply stage_assignM in E1 as [Hc1 Hs1]. apply stage_assignM in E2 as [Hc2 Hs2]. split.
    + intros c Hne. rewrite (has_col_set_header _ _ _ _ Hc2), (has_col_set_header _ _ _ _ Hc1).
      apply String.eqb_neq in Hne. rewrite Hne. now rewrite !orb_false_r.
    + eapply stage_trans; [exact Hs1 | exact Hs2 |]. cbv beta.
      intros g1 g2 g3 (v1 & _ & _ & O1) (v2 & _ & _ & O2) c Hne.
      now rewrite O2, O1.
  - intros H. injection H as <-. split; [reflexivity | now apply stage_id].
Qed.

Lemma no_text_Num cols g c : no_text cols g -> In c cols -> exists x, g c = Num x.
Proof.
  unfold no_text. rewrite Forall_forall. intros H Hin. specialize (H c Hin).
  destruct (g c); [eauto | discriminate].
Qed.

Lemma derive_numeric M :
  numeric_at ["人員作業時間"; "實際產出"; "理論產出"] M ->
  exists D,
    derive M = Ok D
    /\ stage (fun g g' => g' "人員作業時間" = g "人員作業時間") M D
    /\ (forall c, c <> "標工" -> c <> "標準CT" -> c <> "實際CT" -> c <> "效率" ->
                  has_col c D = has_col c M)
    /\ (has_col "實際產出" M && has_col "理論產出" M = true ->
        has_col "效率" D = true
        /\ Forall (fun r => is_str (view D r "效率") = true) (rows D))
    /\ (has_col "實際產出" M && has_col "理論產出" M = false ->
        has_col "效率" D = has_col "效率" M).
Proof.
  intros Hnum. set (cols := ["人員作業時間"; "實際產出"; "理論產出"]) in *.
  set (M' := rename_standard_ct M).
  pose proof (stage_rename_keep M) as SM. fold M' in SM.
  assert (NM' : Forall (fun r => no_text cols (view M' r)) (rows M')).
  { apply (stage_Forall (no_text cols) (no_text cols) _ M M' Hnum SM).
    intros g g' Hg HR. unfold no_text in *. rewrite Forall_forall in *.
    intros c Hc. rewrite HR; [now apply Hg | |];
      simpl in Hc; intuition (subst; discriminate). }
  assert (T1 : exists d, with_actual_ct M' = Ok d).
  { unfold with_actual_ct. destruct (_ && _); [| eauto]. apply assignM_total.
    eapply Forall_impl; [| exact NM']. cbv beta. intros r Hr.
    destruct (no_text_Num _ _ "人員作業時間" Hr) as [h Hh]; [simpl; tauto |].
    destruct (no_text_Num _ _ "實際產出" Hr) as [o Ho]; [simpl; tauto |].
    unfold view in Hh, Ho. rewrite Hh, Ho. cbn. eauto. }
  destruct T1 as [d E1]. destruct (with_actual_ct_stage _ _ E1) as [Hh1 Hs1].
  assert (Nd : Forall (fun r => no_text cols (view d r)) (rows d)).
  { apply (stage_Forall (no_text cols) (no_text cols) _ M' d NM' Hs1).
    intros g g' Hg HR. unfold no_text in *. rewrite Forall_forall in *.
    intros c Hc. rewrite HR; [now apply Hg |].
    simpl in Hc. intuition (subst; discriminate). }
  assert (T2 : exists D, with_efficiency d = Ok D).
  { unfold with_efficiency. destruct (_ && _); [| eauto].
    destruct (assignM_total "效率" (fun get => cell_div (get "實際產出") (get "理論產出")) d)
      as [d' E].
    { eapply Forall_impl; [| exact Nd]. cbv beta. intros r Hr.
      destruct (no_text_Num _ _ "實際產出" Hr) as [o Ho]; [simpl; tauto |].
      destruct (no_text_Num _ _ "理論產出" Hr) as [t Ht]; [simpl; tauto |].
      unfold view in Ho, Ht. rewrite Ho, Ht. cbn. eauto. }
    rewrite E. cbn [result_bind]. apply assignM_total.
    apply stage_assignM in E as [_ Hs].
    apply (stage_true d d' (fun g => exists v, percent_text (g "效率") = Ok v) _ Hs).
    intros g g' (v & Hv & Hg' & _). apply cell_div_Ok in Hv as (o & t & _ & _ & ->).
    rewrite Hg'. cbn. eauto. }
  destruct T2 as [D E2]. destruct (with_efficiency_keep _ _ E2) as [Hh2 Hs2].
  assert (Hsame : forall c, c <> "標工" -> c <> "標準CT" -> c <> "實際CT" ->
                            has_col c d = has_col c M).
  { intros c H1 H2 H3. rewrite Hh1 by exact H3. now apply has_col_rename_standard_ct. }
  exists D. split; [unfold derive; fold M'; rewrite E1; exact E2 |].
  split; [| split; [| split]].
  - eapply stage_trans; [exact SM | |].
    + eapply stage_trans; [exact Hs1 | exact Hs2 |]. cbv beta.
      intros g1 g2 g3 H12 H23.
      exact (eq_trans (H23 "人員作業時間" ltac:(discriminate))
                      (H12 "人員作業時間" ltac:(discriminate))).
    + cbv beta. intros g1 g2 g3 H12 H23. rewrite H23. apply H12; discriminate.
  - intros c H1 H2 H3 H4. rewrite Hh2 by exact H4. now apply Hsame.
  - intros Hot. apply andb_prop in Hot as [Ho Ht].
    assert (Ho' : has_col "實際產出" d = true) by (rewrite Hsame; [exact Ho | | |]; discriminate).
    assert (Ht' : has_col "理論產出" d = true) by (rewrite Hsame; [exact Ht | | |]; discriminate).
    destruct (with_efficiency_stage _ _ Ho' Ht' E2) as [He Hst]. split; [exact He |].
    apply (stage_true d D (fun g => is_str (g "效率") = true) _ Hst).
    intros g g' (o & t & _ & _ & ->). reflexivity.
  - intros Hot.
    assert (Hot' : has_col "實際產出" d && has_col "理論產出" d = false).
    { rewrite !Hsame by discriminate. exact Hot. }
    revert E2. unfold with_efficiency. rewrite Hot'. intros H. injection H as <-.
    rewrite Hh1 by discriminate. now apply has_col_rename_standard_ct.
Qed.








(** ** The share of filtered rows *)

Lemma has_col_select c av T : has_col c (select av T) = true <-> In c av.
Proof. apply has_col_In. Qed.

Lemma filtered_of_empty D :
  rows D = [] ->
  (has_col "效率" D = true -> has_col "實際產出" D && has_col "理論產出" D = true) ->
  exists F, filtered_of D = Ok F /\ rows F = [].
Proof.
  intros H Heff. unfold filtered_of.
  destruct (available_columns D) as [| c0 cs] eqn:Eav; [eauto |].
  rewrite <- Eav. set (av := available_columns D).
  set (S0 := select av D).
  assert (H0 : rows S0 = []) by (unfold S0, select; cbn [rows]; now rewrite H).
  unfold convert.
  set (d2 := assign_if "實際CT" _ (assign_if "實際產出" _ S0)).
  assert (H2 : rows d2 = [])
    by (unfold d2; apply rows_assign_if_empty, rows_assign_if_empty, H0).
  assert (Hc2 : forall c, has_col c d2 = true <-> In c av).
  { intros c. unfold d2. rewrite !has_col_assign_if. apply has_col_select. }
  assert (H3 : exists d3, efficiency_value d2 = Ok d3 /\ rows d3 = []).
  { unfold efficiency_value. destruct (has_col "效率" d2) eqn:He; [| eauto].
    assert (Hcomp : computed_efficiency d2 = true).
    { apply Hc2, available_In in He as [_ He]. specialize (Heff He).
      apply andb_prop in Heff as [Ho Ht]. unfold computed_efficiency.
      apply andb_true_intro. split; apply Hc2, available_In; (split; [simpl; tauto |]);
        assumption. }
    rewrite Hcomp. cbn [orb]. unfold assign. cbn [rows]. rewrite H2. eauto. }
  destruct H3 as (d3 & -> & H3). cbn [result_bind fold_left].
  set (S := assign_if "標準CT" _ _).
  assert (HS : rows S = [])
    by (unfold S; apply rows_assign_if_empty, rows_assign_if_empty, rows_assign_if_empty, H3).
  rewrite quality_filter_unfold, HS. cbn. eauto.
Qed.

(** X16. A merged table without rows, whose column 效率, if it has one, is
    recomputed from the two outputs, makes the run fail with a
    [ZeroDivisionError], raised by the share of filtered rows; in every run
    that returns, the merged table has the rows it had before the derived
    columns were added, the filtered table has no more rows, and the share
    of filtered rows is a percentage from 0 to 100. *)
Theorem filter_rate_of_run (st : gmap string table) (merged_df : table) :
  (rows merged_df = [] ->
   (has_col "效率" merged_df = true ->
    has_col "實際產出" merged_df && has_col "理論產出" merged_df = true) ->
   run_analysis st merged_df = Raise ZeroDivisionError)
  /\ forall r, run_analysis st merged_df = Ok r ->
       List.length (rows (merged_out r)) = List.length (rows merged_df)
       /\ (List.length (rows (filtered_out r)) <= List.length (rows (merged_out r)))%nat
       /\ exists q, filter_rate (merged_out r) (filtered_out r) = Ok (Fin q)
                    /\ 0 <= q /\ q <= 100.
Proof.
  split.
  - intros H Heff. unfold run_analysis.
    assert (Hnum : numeric_at ["人員作業時間"; "實際產出"; "理論產出"] merged_df)
      by (unfold numeric_at; rewrite H; constructor).
    destruct (derive_numeric merged_df Hnum) as (D & HD & _ & Hcols & Hot & Hnot).
    pose proof (derive_length _ _ HD) as Hlen. rewrite H in Hlen.
    assert (HDr : rows D = []) by (destruct (rows D); [reflexivity | discriminate]).
    rewrite HD. cbn [result_bind].
    destruct (filtered_of_empty D HDr) as (F & -> & HF).
    + intros He. rewrite !Hcols by discriminate.
      destruct (has_col "實際產出" merged_df && has_col "理論產出" merged_df) eqn:E;
        [reflexivity |].
      rewrite (Hnot eq_refl) in He. now apply Heff.
    + cbn [result_bind]. now rewrite HDr.
  - intros r Hrun. apply run_analysis_Ok in Hrun as (HD & HF & _ & Hne).
    pose proof (derive_length _ _ HD) as Hlen.
    pose proof (filtered_of_length _ _ HF) as Hle.
    split; [exact Hlen |]. split; [exact Hle |].
    unfold filter_rate.
    set (m := Z.of_nat (List.length (rows (merged_out r)))) in *.
    set (f := Z.of_nat (List.length (rows (filtered_out r)))) in *.
    assert (Hm : (0 < m)%Z).
    { unfold m. destruct (rows (merged_out r)); [contradiction | cbn [List.length]; lia]. }
    assert (Hf : (0 <= f <= m)%Z) by (unfold f, m; lia).
    destruct (Z.eqb_spec m 0) as [E | _]; [lia |].
    eexists. split; [reflexivity |].
    assert (Hmq : 0 < inject_Z m) by (unfold Qlt; cbn; lia).
    assert (Hd : 0 <= inject_Z (m - f) /\ inject_Z (m - f) <= inject_Z m).
    { split; unfold Qle; cbn; lia. }
    assert (Hq : 0 <= inject_Z (m - f) / inject_Z m /\ inject_Z (m - f) / inject_Z m <= 1).
    { split.
      - apply Qle_shift_div_l; [exact Hmq | lra].
      - apply Qle_shift_div_r; [exact Hmq | lra]. }
    split; lra.
Qed.

Example empty_merge :
  run_analysis ∅ {| columns := columns sample_merged; rows := [] |}
  = Raise ZeroDivisionError.
Proof. reflexivity. Qed.

(** ** Data of the charts *)

Lemma leb_refl x : Float.isnan x = false -> Float.leb x x = true.
Proof.
  destruct x as [| | | q]; simpl; try discriminate; try reflexivity.
  intros _. apply Qle_bool_iff. apply Qle_refl.
Qed.

Lemma running_max ys y :
  Float.isnan y = false -> Forall (fun x => Float.isnan x = false) ys ->
  let m := fold_left (fun m x => if Float.ltb m x then x else m) ys y in
  Float.isnan m = false /\ In m (y :: ys)
  /\ Forall (fun x => Float.leb x m = true) (y :: ys).
Proof.
  intros Hy Hys. revert y Hy. induction Hys as [| x ys Hx _ IH]; intros y Hy; cbn [fold_left].
  - repeat split; [exact Hy | now left |]. repeat constructor. now apply leb_refl.
  - destruct (Float.ltb y x) eqn:E.
    + destruct (IH x Hx) as (Hn & Hin & Hall). cbv zeta in *.
      apply Forall_cons_iff in Hall as [Hxm Hall].
      repeat split; [exact Hn | right; exact Hin |].
      constructor; [| constructor; assumption].
      apply leb_trans with x; [now apply ltb_leb | exact Hxm].
    + destruct (IH y Hy) as (Hn & Hin & Hall). cbv zeta in *.
      apply Forall_cons_iff in Hall as [Hym Hall].
      repeat split; [exact Hn | destruct Hin as [<- | Hin]; [now left | right; now right] |].
      constructor; [exact Hym |]. constructor; [| exact Hall].
      apply leb_trans with y; [now apply not_ltb_leb | exact Hym].
Qed.

Lemma notna_all xs : Forall (fun x => Float.isnan x = false) (Float.notna xs).
Proof.
  apply Forall_forall. intros x Hx. apply filter_In in Hx as [_ Hx].
  now apply negb_true_iff in Hx.
Qed.

Lemma series_max_spec xs :
  (Float.notna xs = [] -> series_max xs = NaN)
  /\ (Float.notna xs <> [] ->
      Float.isnan (series_max xs) = false
      /\ In (series_max xs) (Float.notna xs)
      /\ Forall (fun x => Float.leb x (series_max xs) = true) (Float.notna xs)).
Proof.
  unfold series_max. pose proof (notna_all xs) as H.
  destruct (Float.notna xs) as [| y ys]; split; try congruence; try reflexivity.
  intros _. apply Forall_cons_iff in H as [Hy Hys]. now apply running_max.
Qed.

(** X18. On a table with both cycle-time columns, holding numbers, the
    end of the ideal line of the cycle-time chart is the greatest of the
    standard and actual cycle times that are not missing, provided one
    standard cycle time is not missing; when every standard cycle time is
    missing it is NaN, whatever the actual cycle times. *)
Theorem max_ct_bounds (df : table) :
  has_ct_cols df = true ->
  numeric_at ["標準CT"; "實際CT"] df ->
  let standard := Float.notna (List.map value (column "標準CT" df)) in
  let actual := Float.notna (List.map value (column "實際CT" df)) in
  exists m,
    max_ct df = Ok m
    /\ (standard = [] -> m = NaN)
    /\ (standard <> [] ->
        Float.isnan m = false
        /\ In m (standard ++ actual)
        /\ Forall (fun x => Float.leb x m = true) (standard ++ actual)).
Proof.
  intros Hct _. cbv zeta. unfold max_ct, py_max. unfold has_ct_cols in Hct. rewrite Hct.
  eexists. split; [reflexivity |].
  destruct (series_max_spec (List.map value (column "標準CT" df))) as [S0 S1].
  destruct (series_max_spec (List.map value (column "實際CT" df))) as [A0 A1].
  set (s := Float.notna (List.map value (column "標準CT" df))) in *.
  set (a := Float.notna (List.map value (column "實際CT" df))) in *.
  set (ms := series_max (List.map value (column "標準CT" df))) in *.
  set (ma := series_max (List.map value (column "實際CT" df))) in *.
  split.
  - intros Hs. now rewrite (S0 Hs).
  - intros Hs. destruct (S1 Hs) as (Sn & Sin & Sall).
    destruct a as [| a0 a'] eqn:Ea.
    + rewrite (A0 eq_refl). destruct ms; cbn [Float.ltb]; try discriminate;
        rewrite app_nil_r; auto.
    + destruct A1 as (An & Ain & Aall); [discriminate |].
      rewrite Forall_app, in_app_iff. destruct (Float.ltb ms ma) eqn:E.
      * repeat split; [exact An | right; exact Ain | | exact Aall].
        eapply Forall_impl; [| exact Sall]. intros x Hx.
        apply leb_trans with ms; [exact Hx | now apply ltb_leb].
      * repeat split; [exact Sn | left; exact Sin | exact Sall |].
        eapply Forall_impl; [| exact Aall]. intros x Hx.
        apply leb_trans with ma; [exact Hx | now apply not_ltb_leb].
Qed.

Lemma max_ct_bounds_witness :
  let df := analysis_df ct_analysis in
  let standard := Float.notna (List.map value (column "標準CT" df)) in
  let actual := Float.notna (List.map value (column "實際CT" df)) in
  exists m,
    max_ct df = Ok m
    /\ (standard = [] -> m = NaN)
    /\ (standard <> [] ->
        Float.isnan m = false
        /\ In m (standard ++ actual)
        /\ Forall (fun x => Float.leb x m = true) (standard ++ actual)).
Proof.
  apply (max_ct_bounds (analysis_df ct_analysis)).
  - reflexivity.
  - vm_compute. repeat constructor.
Defined.

Example max_ct_without_standard :
  max_ct no_standard_ct = Ok NaN /\ max_ct (analysis_df ct_analysis) = Ok (Fin 40)
  /\ max_ct mixed_ratios = Raise KeyError.
Proof. repeat split; reflexivity. Qed.

Lemma isnan_times_100 v : Float.isnan (Float.mul v (Fin 100)) = Float.isnan v.
Proof. destruct v; reflexivity. Qed.

(** X19. On a table with the columns 工站 and 效率, the heat map shows the
    stations of the metrics table that have a mean, in the same order, each
    with the mean the table shows as a percentage; a station whose records
    all lack a ratio has a row in the metrics table and no cell on the
    map. *)
Theorem heatmap_cells_metrics (df : table) :
  has_col "工站" df = true ->
  has_col "效率" df = true ->
  exists cells,
    heatmap_cells df = Ok cells
    /\ List.map (fun kv => [fst kv; Num (Float.mul (snd kv) (Fin 100))]) cells
       = List.map (firstn 2)
           (List.filter (fun m => negb (isna (nth 1 m NA))) (rows (station_metrics df)))
    /\ forall k, In k (group_keys df) ->
         Forall (fun r => Float.isnan (efficiency_of df r) = true) (group_rows df k) ->
         ~ In k (List.map fst cells)
         /\ In k (column "工站" (station_metrics df)).
Proof.
  intros Hs He. unfold heatmap_cells. rewrite Hs, He. cbn [andb].
  eexists. split; [reflexivity |]. split.
  - unfold station_metrics. cbn [rows].
    induction (group_keys df) as [| k l IH]; [reflexivity |].
    cbn [List.map List.filter nth snd isna]. rewrite isnan_times_100.
    destruct (Float.isnan (group_mean df k)); cbn [negb]; [exact IH |].
    cbn [List.map fst snd firstn]. now rewrite IH.
  - intros k Hk Hall. split.
    + intros Hin. apply in_map_iff in Hin as ([k' v] & Hk' & Hin).
      cbn [fst] in Hk'. subst k'. apply filter_In in Hin as [Hin Hv].
      apply in_map_iff in Hin as (k'' & Heq & _). injection Heq as -> <-.
      cbn [snd] in Hv. unfold group_mean, Float.mean, Float.notna in Hv.
      rewrite filter_none in Hv; [discriminate |].
      intros x Hx. apply in_map_iff in Hx as (r & <- & Hr).
      rewrite Forall_forall in Hall. now rewrite (Hall r Hr).
    + unfold column, station_metrics. cbn [rows columns]. rewrite List.map_map.
      apply in_map_iff. exists k. split; [reflexivity | exact Hk].
Qed.

Lemma heatmap_cells_metrics_witness :
  exists cells,
    heatmap_cells ragged_station = Ok cells
    /\ List.map (fun kv => [fst kv; Num (Float.mul (snd kv) (Fin 100))]) cells
       = List.map (firstn 2)
           (List.filter (fun m => negb (isna (nth 1 m NA)))
                        (rows (station_metrics ragged_station)))
    /\ forall k, In k (group_keys ragged_station) ->
         Forall (fun r => Float.isnan (efficiency_of ragged_station r) = true)
                (group_rows ragged_station k) ->
         ~ In k (List.map fst cells)
         /\ In k (column "工站" (station_metrics ragged_station)).
Proof. apply (heatmap_cells_metrics ragged_station); reflexivity. Defined.

Example heatmap_of_ragged_station :
  heatmap_cells ragged_station = Ok [(Str "A", Fin ((0 + 90 # 100) / 1))]
  /\ heatmap_cells {| columns := ["工站"; "效率"]; rows := [[Str "A"; NA]] |} = Ok [].
Proof. split; reflexivity. Qed.

(** ** A numeric column 效率 *)





(** ** The average efficiency *)

Lemma sums_scaled P E :
  Forall2 (fun p e => exists q, p = Fin q /\ e = Fin (q / 100) /\ 20 <= q /\ q <= 150) P E ->
  forall aP aE, exists sP sE,
    fold_left Float.add P (Fin aP) = Fin sP
    /\ fold_left Float.add E (Fin aE) = Fin sE
    /\ sP - aP == 100 * (sE - aE)
    /\ 20 * inject_Z (Z.of_nat (List.length P)) <= sP - aP
    /\ sP - aP <= 150 * inject_Z (Z.of_nat (List.length P)).
Proof.
  induction 1 as [| p e P E (q & -> & -> & Hlo & Hhi) _ IH]; intros aP aE.
  - exists aP, aE. cbn [fold_left List.length]. change (inject_Z (Z.of_nat 0)) with 0.
    repeat split; try reflexivity; lra.
  - cbn [fold_left Float.add List.length].
    destruct (IH (aP + q) (aE + q / 100)) as (sP & sE & -> & -> & Hs & H1 & H2).
    exists sP, sE. split; [reflexivity |]. split; [reflexivity |].
    rewrite Nat2Z.inj_succ, <- Z.add_1_r, inject_Z_plus. change (inject_Z 1) with 1.
    assert (Hq : q == 100 * (q / 100)) by (field; discriminate).
    repeat split; lra.
Qed.

Lemma all_present xs :
  Forall (fun x => Float.isnan x = false) xs -> Float.notna xs = xs.
Proof.
  intros H. apply filter_all. eapply Forall_impl; [| exact H].
  intros x Hx. now rewrite Hx.
Qed.

Lemma mean_scaled P E :
  Forall2 (fun p e => exists q, p = Fin q /\ e = Fin (q / 100) /\ 20 <= q /\ q <= 150) P E ->
  Float.eqv (Float.mul (Float.mean E) (Fin 100)) (Float.mean P)
  /\ (P = [] -> Float.mean P = NaN)
  /\ (P <> [] -> exists m, Float.mean P = Fin m /\ 20 <= m /\ m <= 150).
Proof.
  intros H.
  assert (HP : Float.notna P = P).
  { apply all_present. clear -H. induction H as [| p e P E (q & -> & _) _ IH];
      constructor; auto. }
  assert (HE : Float.notna E = E).
  { apply all_present. clear -H. induction H as [| p e P E (q & _ & -> & _) _ IH];
      constructor; auto. }
  assert (Hlen : List.length E = List.length P)
    by (clear -H; induction H; simpl; congruence).
  rewrite !mean_unfold, HP, HE, Hlen.
  destruct P as [| p P'] eqn:EP.
  - cbn. repeat split; try reflexivity; try exact I; congruence.
  - rewrite <- EP in *. assert (Hn : List.length P <> 0%nat) by (rewrite EP; discriminate).
    destruct (Nat.eqb_spec (List.length P) 0) as [E0 | _]; [contradiction |].
    destruct (sums_scaled P E H 0 0) as (sP & sE & HsP & HsE & Hs & H1 & H2).
    unfold Float.sum. rewrite HsP, HsE. unfold Float.of_nat. cbn [Float.div].
    set (n := inject_Z (Z.of_nat (List.length P))) in *.
    assert (Hpos : 0 < n).
    { unfold n, Qlt. cbn. lia. }
    assert (Hz : Qeq_bool n 0 = false).
    { apply not_true_is_false. intros Hq. apply Qeq_bool_iff in Hq. lra. }
    rewrite Hz. cbn [Float.mul Float.eqv]. split; [| split].
    + assert (Hs' : sP == 100 * sE) by lra. rewrite Hs'. field. lra.
    + intros Hnil. rewrite Hnil in EP. discriminate.
    + intros _. exists (sP / n). split; [reflexivity |]. split.
      * apply Qle_shift_div_l; [exact Hpos | lra].
      * apply Qle_shift_div_r; [exact Hpos | lra].
Qed.

(** X21. In every run that reaches the advanced analysis, the average
    efficiency of the key figures (the mean ratio times 100) is the average
    percentage shown with the statistics of the filtered table; it lies
    between 20 and 150, and is NaN when no record is left. *)
Theorem average_efficiency_of_run
        (st : gmap string table) (merged_df : table) (r : run) (a : analysis) :
  run_analysis st merged_df = Ok r ->
  advanced_out r = Analysed a ->
  let shown :=
    Float.mul (Float.mean (List.map (efficiency_of (analysis_df a))
                                    (rows (analysis_df a)))) (Fin 100) in
  let statistic := Float.mean (List.map value (column "效率值" (filtered_out r))) in
  Float.eqv shown statistic
  /\ (rows (filtered_out r) = [] -> statistic = NaN)
  /\ (rows (filtered_out r) <> [] ->
      exists m, statistic = Fin m /\ 20 <= m /\ m <= 150).
Proof.
  intros Hrun Ha. cbv zeta.
  apply run_analysis_Ok in Hrun as (_ & HF & Hadv & _).
  rewrite Hadv in Ha. apply advanced_analysis_Analysed in Ha as (Hcheck & HA & _).
  destruct (filtered_rows _ _ HF Hcheck) as [Hv Hrows].
  pose proof (stage_analysis (filtered_out r) Hv) as Hstage. rewrite <- HA in Hstage.
  set (F := filtered_out r) in *. set (A := analysis_df a) in *.
  assert (H2 : Forall2 (fun p e => exists q, p = Fin q /\ e = Fin (q / 100)
                                             /\ 20 <= q /\ q <= 150)
                       (List.map value (column "效率值" F))
                       (List.map (efficiency_of A) (rows A))).
  { unfold column. rewrite List.map_map. unfold stage in Hstage.
    clear -Hrows Hstage. induction Hstage as [| rf ra lf la H _ IH]; [constructor |].
    apply Forall_cons_iff in Hrows as [(_ & _ & q & Hq & Hlo & Hhi) Hrows].
    cbn [List.map]. constructor; [| now apply IH].
    destruct H as (_ & _ & He). unfold view in *. exists q.
    unfold efficiency_of. rewrite He, Hq. cbn. auto. }
  destruct (mean_scaled _ _ H2) as (Heq & Hnil & Hne).
  split; [exact Heq |]. split.
  - intros Hr. apply Hnil. unfold column. now rewrite Hr.
  - intros Hr. apply Hne. unfold column. destruct (rows F); [contradiction | discriminate].
Qed.

Lemma average_efficiency_of_run_witness :
  let a := sample_analysis in
  let r := sample_run in
  let shown :=
    Float.mul (Float.mean (List.map (efficiency_of (analysis_df a))
                                    (rows (analysis_df a)))) (Fin 100) in
  let statistic := Float.mean (List.map value (column "效率值" (filtered_out r))) in
  Float.eqv shown statistic
  /\ (rows (filtered_out r) = [] -> statistic = NaN)
  /\ (rows (filtered_out r) <> [] ->
      exists m, statistic = Fin m /\ 20 <= m /\ m <= 150).
Proof.
  apply (average_efficiency_of_run ∅ sample_merged sample_run sample_analysis);
    vm_compute; reflexivity.
Defined.
